(** * GanttDiagram: the task-list backend, embedded and verified

    The repository holds two variants of one small Go program (both
    [package main]): a flat-file variant that keeps the task collection in
    [gantt.json], and a relational variant that keeps it in the SQLite table
    [tasks].  Each variant is embedded below in a module of its own
    ([FlatFile], [Relational]), with the functions under the names the
    source gives them; a function takes the state of the world and returns
    it with its result.

    What lies outside the repository is modelled as follows.
    - [encoding/json] is a parameter of the development (the class [JSON]);
      [RefJson] is a reference codec used to run the model on concrete inputs.
    - The file system and the SQL driver are small state machines.  Every call
      into them is logged in the state and consumes one entry of a script of
      outcomes held there, so that any pattern of I/O failures can be
      replayed; an exhausted script means that the remaining calls succeed.
    - The goroutines in which [net/http] runs the handlers are modelled in
      the module [Race], as interleavings of the steps of [loadTasksFromFile]
      and [saveTasksToFile] on the shared file and mutex.
    - Console and log output ([fmt.Printf], [log.Println]) and the response
      headers are not modelled.

    The definitions come first; the facts about each variant and the
    properties of the specification (C1 to C10, then further ones) follow. *)

From stdpp Require Import prelude strings gmap sorting.
From Stdlib Require Import Ascii DecimalString.
From Stdlib Require DecimalPos.

Open Scope string_scope.
Open Scope list_scope.
Open Scope Z_scope.

(** ** Go values *)

(** An [error] is identified with its message; [fmt.Errorf("p: %w", err)]
    is the message [p] followed by the message of [err]. *)
Definition error := string.

Inductive result (A : Type) : Type :=
| Ok (a : A)
| Err (e : error).
Arguments Ok {A} a.
Arguments Err {A} e.

Definition is_Ok {A} (r : result A) : bool :=
  match r with Ok _ => true | Err _ => false end.

Definition dq : string := String (ascii_of_nat 34) EmptyString.

(** [quoted s] is [s] between double quotes. *)
Definition quoted (s : string) : string := dq +:+ s +:+ dq.

(** ** strconv *)

Definition Itoa (z : Z) : string := NilZero.string_of_int (Z.to_int z).

Definition digit (c : ascii) : option Z :=
  let n := Z.of_nat (nat_of_ascii c) in
  if (48 <=? n) && (n <=? 57) then Some (n - 48) else None.

Fixpoint digits (s : string) (acc : Z) : option Z :=
  match s with
  | EmptyString => Some acc
  | String c rest =>
      match digit c with
      | Some d => digits rest (10 * acc + d)
      | None => None
      end
  end.

Definition minInt : Z := - 2 ^ 63.
Definition maxInt : Z := 2 ^ 63 - 1.

(** [strconv.Atoi]: an optional sign, then one decimal digit or more, the
    value within the range of [int] (64 bits). *)
Definition Atoi (s : string) : result Z :=
  let syntax := Err ("strconv.Atoi: parsing " +:+ quoted s +:+ ": invalid syntax") in
  let range := Err ("strconv.Atoi: parsing " +:+ quoted s +:+ ": value out of range") in
  let '(neg, body) :=
    match s with
    | String "-"%char rest => (true, rest)
    | String "+"%char rest => (false, rest)
    | _ => (false, s)
    end in
  match body with
  | EmptyString => syntax
  | _ =>
      match digits body 0 with
      | None => syntax
      | Some n =>
          let v := if neg : bool then - n else n in
          if (minInt <=? v) && (v <=? maxInt) then Ok v else range
      end
  end.

(** ** time: calendar dates at midnight UTC *)

Record Date := mkDate { year : Z; month : Z; day : Z }.

Definition leap (y : Z) : bool :=
  (y mod 4 =? 0) && (negb (y mod 100 =? 0) || (y mod 400 =? 0)).

Definition daysIn (y m : Z) : Z :=
  if m =? 2 then (if leap y then 29 else 28)
  else if (m =? 4) || (m =? 6) || (m =? 9) || (m =? 11) then 30
  else 31.

Definition nextDay (t : Date) : Date :=
  if day t <? daysIn (year t) (month t) then mkDate (year t) (month t) (day t + 1)
  else if month t <? 12 then mkDate (year t) (month t + 1) 1
  else mkDate (year t + 1) 1 1.

(** [t.AddDate(0, 0, days)] for [days >= 0]. *)
Definition AddDate (days : nat) (t : Date) : Date := Nat.iter days nextDay t.

Fixpoint zeros (n : nat) : string :=
  match n with O => "" | S n' => "0" +:+ zeros n' end.

(** [appendInt] of package time: [x] in decimal, padded with zeros to
    [width] digits. *)
Definition appendInt (x : Z) (width : nat) : string :=
  let ds := Itoa (Z.abs x) in
  (if x <? 0 then "-" else "") +:+ zeros (width - String.length ds) +:+ ds.

(** [t.Format("2006-01-02")]. *)
Definition formatDate (t : Date) : string :=
  appendInt (year t) 4 +:+ "-" +:+ appendInt (month t) 2 +:+ "-" +:+ appendInt (day t) 2.

(** ** net/http *)

Definition StatusOK : Z := 200.
Definition StatusBadRequest : Z := 400.
Definition StatusNotFound : Z := 404.
Definition StatusMethodNotAllowed : Z := 405.
Definition StatusInternalServerError : Z := 500.

(** What the handlers read of a request: the method, the value of
    [r.URL.Query().Get("id")] (empty when the parameter is missing) and the
    outcome of [io.ReadAll(r.Body)]. *)
Record Request := mkRequest {
  Method : string;
  QueryID : string;
  Body : result string
}.

Record Response := mkResponse {
  Status : Z;
  Payload : string
}.

Definition newline : string := String (ascii_of_nat 10) EmptyString.

(** [http.Error(w, msg, code)]. *)
Definition http_Error (msg : string) (code : Z) : Response :=
  mkResponse code (msg +:+ newline).

(** The body [{"key": "msg"}] the handlers write by hand. *)
Definition jsonMessage (key msg : string) : string :=
  "{" +:+ quoted key +:+ ": " +:+ quoted msg +:+ "}".

(** ** The data model (identical in both variants) *)

Record Task := mkTask {
  ID : Z;
  Name : string;
  Start : string;
  DurationDays : Z;
  Color : string;
  Priority : Z
}.

(** [getInitialTasks], given the year [time.Now().Year()] returns. *)
Definition getInitialTasks (now : Z) : list Task :=
  let nextYear := now + 1 in
  let start := mkDate nextYear 1 1 in
  [ mkTask 1 "需求收集" (formatDate start) 7 "#3B82F6" 4;
    mkTask 2 "系統設計" (formatDate (AddDate 7 start)) 5 "#F97316" 2;
    mkTask 3 "後端開發" (formatDate (AddDate 12 start)) 12 "#EF4444" 1;
    mkTask 4 "前端開發" (formatDate (AddDate 12 start)) 10 "#FBBF24" 3;
    mkTask 5 "整合測試" (formatDate (AddDate 24 start)) 8 "#10B981" 5 ].

(** ** encoding/json at the type [[]Task] *)

Class JSON := {
  (** [json.MarshalIndent(tasks, "", "  ")] *)
  MarshalIndent : list Task → result string;
  (** [json.Unmarshal(data, &tasks)] into a fresh slice *)
  Unmarshal : string → result (list Task);
  (** what [json.NewEncoder(w).Encode(tasks)] writes to the response *)
  Encode : list Task → string
}.

(** A collection that the document format represents faithfully: parsing
    its serialization gives it back. *)
Definition json_stable `{JSON} (tasks : list Task) : Prop :=
  ∃ d, MarshalIndent tasks = Ok d ∧ Unmarshal d = Ok tasks.

(** ** How a run of [main] ends *)

(** [Serving]: [http.ListenAndServe] has bound the port and serves requests
    (it does not return).  [Exited code listened]: the process has ended with
    [code]; [listened] tells whether [http.ListenAndServe] had been called. *)
Inductive Process (W : Type) : Type :=
| Serving (w : W)
| Exited (code : Z) (listened : bool) (w : W).
Arguments Serving {W} w.
Arguments Exited {W} code listened w.

(** * The flat-file variant *)

Module FlatFile.

(** Outcome of one call into the operating system.  [io_fail None]: the call
    fails before it touches the file.  [io_fail (Some n)], for a write: the
    file has been truncated on opening and the write stops after [n] bytes
    ([os.WriteFile] is several system calls). *)
Inductive io : Type :=
| io_ok
| io_fail (written : option nat).

(** The system calls the program makes. *)
Inductive syscall : Type :=
| SysReadFile
| SysWriteFile (data : string)
| SysListen.

(** The world of the process: the content of [gantt.json] ([None] when the
    file does not exist), the outcomes of the system calls still to come, the
    system calls made so far (oldest first), and the year the clock shows. *)
Record World := mkWorld {
  file : option string;
  faults : list io;
  syscalls : list syscall;
  clock : Z
}.

(** Entering a system call: it is logged, and the next outcome of the script
    is its outcome. *)
Definition enter (c : syscall) (w : World) : io * World :=
  match faults w with
  | [] => (io_ok, mkWorld (file w) [] (syscalls w ++ [c]) (clock w))
  | o :: rest => (o, mkWorld (file w) rest (syscalls w ++ [c]) (clock w))
  end.

Definition with_file (f : option string) (w : World) : World :=
  mkWorld f (faults w) (syscalls w) (clock w).

Definition ENOENT : error := "open gantt.json: no such file or directory".
Definition EIO : error := "gantt.json: input/output error".
Definition EADDRINUSE : error := "listen tcp :8080: bind: address already in use".

(** [os.ReadFile(jsonFilePath)]. *)
Definition os_ReadFile (w : World) : result string * World :=
  let '(o, w') := enter SysReadFile w in
  match o with
  | io_fail _ => (Err EIO, w')
  | io_ok =>
      match file w' with
      | None => (Err ENOENT, w')
      | Some data => (Ok data, w')
      end
  end.

(** [os.IsNotExist(err)] for a non-nil [err]. *)
Definition os_IsNotExist (e : error) : bool := bool_decide (e = ENOENT).

(** [os.WriteFile(jsonFilePath, data, 0644)]. *)
Definition os_WriteFile (data : string) (w : World) : option error * World :=
  let '(o, w') := enter (SysWriteFile data) w in
  match o with
  | io_ok => (None, with_file (Some data) w')
  | io_fail None => (Some EIO, w')
  | io_fail (Some n) => (Some EIO, with_file (Some (String.substring 0 n data)) w')
  end.

(** [http.ListenAndServe(":8080", nil)]: it returns only when it fails. *)
Definition http_ListenAndServe (w : World) : option error * World :=
  let '(o, w') := enter SysListen w in
  match o with
  | io_ok => (None, w')
  | io_fail _ => (Some EADDRINUSE, w')
  end.

Section Program.
Context `{JSON}.

(** [dataMutex] is taken and released inside one call and never held across
    a call to the other function, so in a sequential run it has no effect;
    the module [Race] below models it. *)
Definition saveTasksToFile (tasks : list Task) (w : World) : option error * World :=
  match MarshalIndent tasks with
  | Err e => (Some ("序列化 JSON 失敗: " +:+ e), w)
  | Ok data =>
      match os_WriteFile data w with
      | (Some e, w') => (Some ("寫入檔案失敗: " +:+ e), w')
      | (None, w') => (None, w')
      end
  end.

Definition loadTasksFromFile (w : World) : result (list Task) * World :=
  match os_ReadFile w with
  | (Err e, w1) =>
      if os_IsNotExist e then
        let tasks := getInitialTasks (clock w1) in
        match saveTasksToFile tasks w1 with
        | (Some e', w2) => (Err ("無法創建並寫入預設檔案: " +:+ e'), w2)
        | (None, w2) => (Ok tasks, w2)
        end
      else (Err ("讀取檔案失敗: " +:+ e), w1)
  | (Ok data, w1) =>
      match Unmarshal data with
      | Err e => (Err ("解析 JSON 失敗: " +:+ e), w1)
      | Ok tasks => (Ok tasks, w1)
      end
  end.

(** The loop of the DELETE branch: [found] and [newTasks] are its two
    variables, [currentTasks] what is left to range over. *)
Fixpoint removeTask (taskID : Z) (currentTasks : list Task)
    (found : bool) (newTasks : list Task) : bool * list Task :=
  match currentTasks with
  | [] => (found, newTasks)
  | task :: rest =>
      if bool_decide (ID task ≠ taskID)
      then removeTask taskID rest found (newTasks ++ [task])
      else removeTask taskID rest true newTasks
  end.

Definition apiTasksHandler (r : Request) (w : World) : Response * World :=
  if bool_decide (Method r = "GET") then
    match loadTasksFromFile w with
    | (Err e, w') =>
        (http_Error (jsonMessage "error" ("讀取任務數據失敗: " +:+ e))
           StatusInternalServerError, w')
    | (Ok tasks, w') => (mkResponse StatusOK (Encode tasks), w')
    end
  else if bool_decide (Method r = "POST") then
    match Body r with
    | Err _ => (http_Error (jsonMessage "error" "讀取請求主體失敗") StatusBadRequest, w)
    | Ok body =>
        match Unmarshal body with
        | Err _ => (http_Error (jsonMessage "error" "解析 JSON 失敗") StatusBadRequest, w)
        | Ok tasks =>
            match saveTasksToFile tasks w with
            | (Some e, w') =>
                (http_Error (jsonMessage "error" ("寫入任務數據失敗: " +:+ e))
                   StatusInternalServerError, w')
            | (None, w') =>
                (mkResponse StatusOK (jsonMessage "message" "任務數據儲存成功"), w')
            end
        end
    end
  else if bool_decide (Method r = "DELETE") then
    let queryID := QueryID r in
    if bool_decide (queryID = "") then
      (http_Error (jsonMessage "error" "Missing task ID") StatusBadRequest, w)
    else
      match Atoi queryID with
      | Err _ =>
          (http_Error (jsonMessage "error" "Invalid task ID format") StatusBadRequest, w)
      | Ok taskID =>
          match loadTasksFromFile w with
          | (Err e, w1) =>
              (http_Error (jsonMessage "error" ("Failed to load tasks for deletion: " +:+ e))
                 StatusInternalServerError, w1)
          | (Ok currentTasks, w1) =>
              let '(found, newTasks) := removeTask taskID currentTasks false [] in
              if negb found then
                (http_Error
                   (jsonMessage "error" ("Task with ID " +:+ Itoa taskID +:+ " not found"))
                   StatusNotFound, w1)
              else
                match saveTasksToFile newTasks w1 with
                | (Some e, w2) =>
                    (http_Error
                       (jsonMessage "error" ("Failed to save tasks after deletion: " +:+ e))
                       StatusInternalServerError, w2)
                | (None, w2) =>
                    (mkResponse StatusOK
                       (jsonMessage "message"
                          ("Task ID " +:+ Itoa taskID +:+ " deleted successfully")), w2)
                end
          end
      end
  else (http_Error (jsonMessage "error" "不支援的方法") StatusMethodNotAllowed, w).

(** [main]: the error of the first load is printed and nothing else; so is
    the error of [http.ListenAndServe], after which [main] returns. *)
Definition main (w : World) : Process World :=
  let '(_, w1) := loadTasksFromFile w in
  match http_ListenAndServe w1 with
  | (Some _, w2) => Exited 0 true w2
  | (None, w2) => Serving w2
  end.

End Program.

End FlatFile.

(** * The relational variant *)

Module Relational.

(** The rows of [tasks], by primary key [id]. *)
Abbreviation Table := (gmap Z Task).

(** The calls the program makes into [database/sql] and [net/http]. *)
Inductive call : Type :=
| Open
| Ping
| ExecCreateTable
| QueryRowCount
| QuerySelect
| RowsNext
| RowsScan
| RowsClose
| Begin
| TxExecDelete
| TxPrepareInsert
| StmtExec (t : Task)
| StmtClose
| Commit
| Rollback
| Listen.

(** The database behind the global handle [db].
    - [table]: the committed rows; [None] when the table does not exist.
    - [pending]: the working copy of the open transaction, if there is one.
    - [faults]: for each call still to come, whether the driver fails it.
    - [calls]: the calls made so far, oldest first.
    - [clock]: the year the clock shows. *)
Record DB := mkDB {
  table : option Table;
  pending : option (option Table);
  faults : list bool;
  calls : list call;
  clock : Z
}.

Definition with_table (t : option Table) (db : DB) : DB :=
  mkDB t (pending db) (faults db) (calls db) (clock db).

Definition with_pending (p : option (option Table)) (db : DB) : DB :=
  mkDB (table db) p (faults db) (calls db) (clock db).

(** Entering a call: it is logged, and the next outcome of the script tells
    whether the driver fails it. *)
Definition enter (c : call) (db : DB) : bool * DB :=
  match faults db with
  | [] => (false, mkDB (table db) (pending db) [] (calls db ++ [c]) (clock db))
  | f :: rest => (f, mkDB (table db) (pending db) rest (calls db ++ [c]) (clock db))
  end.

Definition ErrBadConn : error := "driver: bad connection".
Definition ErrTxDone : error := "sql: transaction has already been committed or rolled back".
Definition ErrNoTable : error := "SQL logic error: no such table: tasks (1)".
Definition ErrUnique : error := "constraint failed: UNIQUE constraint failed: tasks.id (1555)".
Definition EADDRINUSE : error := "listen tcp :8080: bind: address already in use".

(** [ORDER BY priority]. *)
Definition by_priority (a b : Task) : Prop := Priority a ≤ Priority b.

#[global] Instance by_priority_dec : RelDecision by_priority.
Proof. intros a b. unfold by_priority. apply _. Defined.

#[global] Instance by_priority_total : Total by_priority.
Proof. intros a b. unfold by_priority. lia. Qed.

#[global] Instance by_priority_trans : Transitive by_priority.
Proof. intros a b c. unfold by_priority. lia. Qed.

(** [sql.Open("sqlite", filepath)] and [db.Ping()]. *)
Definition sql_Open (db : DB) : option error * DB :=
  let '(f, db1) := enter Open db in
  if f : bool then (Some ErrBadConn, db1) else (None, db1).

Definition db_Ping (db : DB) : option error * DB :=
  let '(f, db1) := enter Ping db in
  if f : bool then (Some ErrBadConn, db1) else (None, db1).

(** [db.Exec("CREATE TABLE IF NOT EXISTS tasks (...)")]. *)
Definition db_Exec_CREATE (db : DB) : option error * DB :=
  let '(f, db1) := enter ExecCreateTable db in
  if f : bool then (Some ErrBadConn, db1)
  else
    match table db1 with
    | None => (None, with_table (Some ∅) db1)
    | Some _ => (None, db1)
    end.

(** [db.QueryRow("SELECT COUNT( * ) FROM tasks").Scan(&count)]. *)
Definition db_QueryRow_COUNT (db : DB) : result Z * DB :=
  let '(f, db1) := enter QueryRowCount db in
  if f : bool then (Err ErrBadConn, db1)
  else
    match table db1 with
    | None => (Err ErrNoTable, db1)
    | Some m => (Ok (Z.of_nat (size m)), db1)
    end.

(** [db.Query("SELECT id, name, start, durationDays, color, priority FROM
    tasks ORDER BY priority")]: the rows the cursor will deliver.  The query
    orders by priority alone, so the order among rows of equal priority is
    the engine's; the one taken here is a representative, and the
    properties below speak of the result as a permutation of the rows in
    ascending order of priority. *)
Definition db_Query_SELECT (db : DB) : result (list Task) * DB :=
  let '(f, db1) := enter QuerySelect db in
  if f : bool then (Err ErrBadConn, db1)
  else
    match table db1 with
    | None => (Err ErrNoTable, db1)
    | Some m => (Ok (merge_sort by_priority (map_to_list m).*2), db1)
    end.

Definition rows_Close (db : DB) : DB := (enter RowsClose db).2.

(** [db.Begin()]. *)
Definition db_Begin (db : DB) : option error * DB :=
  let '(f, db1) := enter Begin db in
  if f : bool then (Some ErrBadConn, db1)
  else (None, with_pending (Some (table db1)) db1).

(** [tx.Exec("DELETE FROM tasks")]. *)
Definition tx_Exec_DELETE (db : DB) : option error * DB :=
  let '(f, db1) := enter TxExecDelete db in
  if f : bool then (Some ErrBadConn, db1)
  else
    match pending db1 with
    | None => (Some ErrTxDone, db1)
    | Some None => (Some ErrNoTable, db1)
    | Some (Some _) => (None, with_pending (Some (Some ∅)) db1)
    end.

(** [tx.Prepare("INSERT INTO tasks (...) VALUES (?, ?, ?, ?, ?, ?)")]. *)
Definition tx_Prepare_INSERT (db : DB) : option error * DB :=
  let '(f, db1) := enter TxPrepareInsert db in
  if f : bool then (Some ErrBadConn, db1)
  else
    match pending db1 with
    | None => (Some ErrTxDone, db1)
    | Some None => (Some ErrNoTable, db1)
    | Some (Some _) => (None, db1)
    end.

(** [stmt.Exec(task.ID, task.Name, task.Start, task.DurationDays,
    task.Color, task.Priority)]: [id] is the primary key. *)
Definition stmt_Exec (task : Task) (db : DB) : option error * DB :=
  let '(f, db1) := enter (StmtExec task) db in
  if f : bool then (Some ErrBadConn, db1)
  else
    match pending db1 with
    | None => (Some ErrTxDone, db1)
    | Some None => (Some ErrNoTable, db1)
    | Some (Some m) =>
        match m !! ID task with
        | Some _ => (Some ErrUnique, db1)
        | None => (None, with_pending (Some (Some (<[ID task := task]> m))) db1)
        end
    end.

Definition stmt_Close (db : DB) : DB := (enter StmtClose db).2.

(** [tx.Commit()]: when the driver fails it nothing is committed. *)
Definition tx_Commit (db : DB) : option error * DB :=
  let '(f, db1) := enter Commit db in
  if f : bool then (Some ErrBadConn, with_pending None db1)
  else
    match pending db1 with
    | None => (Some ErrTxDone, db1)
    | Some t => (None, with_pending None (with_table t db1))
    end.

(** [tx.Rollback()], whose error the program drops: the working copy is
    discarded in any case. *)
Definition tx_Rollback (db : DB) : DB :=
  with_pending None (enter Rollback db).2.

Definition http_ListenAndServe (db : DB) : option error * DB :=
  let '(f, db1) := enter Listen db in
  if f : bool then (Some EADDRINUSE, db1) else (None, db1).

(** The loop of [loadTasksFromDB] over the cursor.  [rows.Next()] answers
    false at the end of the rows and also when the driver fails; the program
    does not consult [rows.Err()], so in both cases the loop just ends. *)
Fixpoint scanRows (rows : list Task) (tasks : list Task) (db : DB)
    : result (list Task) * DB :=
  let '(f, db1) := enter RowsNext db in
  match rows with
  | [] => (Ok tasks, db1)
  | t :: rest =>
      if f : bool then (Ok tasks, db1)
      else
        let '(f', db2) := enter RowsScan db1 in
        if f' : bool then (Err ("掃描資料行失敗: " +:+ ErrBadConn), db2)
        else scanRows rest (tasks ++ [t]) db2
  end.

Definition loadTasksFromDB (db : DB) : result (list Task) * DB :=
  match db_Query_SELECT db with
  | (Err e, db1) => (Err ("查詢資料庫失敗: " +:+ e), db1)
  | (Ok rows, db1) =>
      let '(r, db2) := scanRows rows [] db1 in
      (r, rows_Close db2)
  end.

(** The loop of [saveTasksToDB] over [tasks]. *)
Fixpoint insertTasks (tasks : list Task) (db : DB) : option error * DB :=
  match tasks with
  | [] => (None, db)
  | task :: rest =>
      match stmt_Exec task db with
      | (Some e, db1) =>
          (Some ("插入任務 ID " +:+ Itoa (ID task) +:+ " 失敗: " +:+ e), tx_Rollback db1)
      | (None, db1) => insertTasks rest db1
      end
  end.

Definition saveTasksToDB (tasks : list Task) (db : DB) : option error * DB :=
  match db_Begin db with
  | (Some e, db1) => (Some ("開啟事務失敗: " +:+ e), db1)
  | (None, db1) =>
      match tx_Exec_DELETE db1 with
      | (Some e, db2) => (Some ("刪除舊任務失敗: " +:+ e), tx_Rollback db2)
      | (None, db2) =>
          match tx_Prepare_INSERT db2 with
          | (Some e, db3) => (Some ("準備插入語句失敗: " +:+ e), tx_Rollback db3)
          | (None, db3) =>
              (* defer stmt.Close() *)
              let '(r, db5) :=
                match insertTasks tasks db3 with
                | (Some e, db4) => (Some e, db4)
                | (None, db4) =>
                    match tx_Commit db4 with
                    | (Some e, db5) => (Some ("提交事務失敗: " +:+ e), db5)
                    | (None, db5) => (None, db5)
                    end
                end in
              (r, stmt_Close db5)
          end
      end
  end.

(** [initDB(filepath)]; the handle it returns is the global [db], here the
    state itself. *)
Definition initDB (filepath : string) (db : DB) : option error * DB :=
  match sql_Open db with
  | (Some e, db1) => (Some ("無法開啟資料庫: " +:+ e), db1)
  | (None, db1) =>
      match db_Ping db1 with
      | (Some e, db2) => (Some ("無法連接到資料庫: " +:+ e), db2)
      | (None, db2) =>
          match db_Exec_CREATE db2 with
          | (Some e, db3) => (Some ("無法創建資料表: " +:+ e), db3)
          | (None, db3) =>
              match db_QueryRow_COUNT db3 with
              | (Err e, db4) => (Some ("無法查詢任務數量: " +:+ e), db4)
              | (Ok count, db4) =>
                  if bool_decide (count = 0) then
                    let defaultTasks := getInitialTasks (clock db4) in
                    match saveTasksToDB defaultTasks db4 with
                    | (Some e, db5) => (Some ("插入預設任務失敗: " +:+ e), db5)
                    | (None, db5) => (None, db5)
                    end
                  else (None, db4)
              end
          end
      end
  end.

Section Program.
Context `{JSON}.

Definition apiTasksHandler (r : Request) (db : DB) : Response * DB :=
  if bool_decide (Method r = "GET") then
    match loadTasksFromDB db with
    | (Err e, db') =>
        (http_Error (jsonMessage "error" ("讀取任務數據失敗: " +:+ e))
           StatusInternalServerError, db')
    | (Ok tasks, db') => (mkResponse StatusOK (Encode tasks), db')
    end
  else if bool_decide (Method r = "POST") then
    match Body r with
    | Err _ => (http_Error (jsonMessage "error" "讀取請求主體失敗") StatusBadRequest, db)
    | Ok body =>
        match Unmarshal body with
        | Err e =>
            (http_Error (jsonMessage "error" ("解析 JSON 失敗: " +:+ e)) StatusBadRequest, db)
        | Ok tasks =>
            match saveTasksToDB tasks db with
            | (Some e, db') =>
                (http_Error (jsonMessage "error" ("寫入任務數據失敗: " +:+ e))
                   StatusInternalServerError, db')
            | (None, db') =>
                (mkResponse StatusOK (jsonMessage "message" "任務數據儲存成功"), db')
            end
        end
    end
  else (http_Error (jsonMessage "error" "不支援的方法") StatusMethodNotAllowed, db).

End Program.

(** [main]: [log.Fatalf] ends the process with status 1. *)
Definition main (db : DB) : Process DB :=
  match initDB "./gantt.db" db with
  | (Some _, db1) => Exited 1 false db1
  | (None, db1) =>
      match http_ListenAndServe db1 with
      | (Some _, db2) => Exited 1 true db2
      | (None, db2) => Serving db2
      end
  end.

(** The table after [tasks] have been inserted into [m] one by one. *)
Definition inserted (m : Table) (tasks : list Task) : Table :=
  foldl (λ acc t, <[ID t := t]> acc) m tasks.

(** [tasks] can all be inserted into [m]: their ids are pairwise distinct
    and none is a key of [m]. *)
Definition insertable (m : Table) (tasks : list Task) : Prop :=
  NoDup (ID <$> tasks) ∧ ∀ t, t ∈ tasks → m !! ID t = None.

(** The rows of a table, in the order the engine scans them. *)
Definition rows (m : Table) : list Task := (map_to_list m).*2.

End Relational.

(** * A reference codec

    [RefJson] prints a collection the way [json.MarshalIndent(tasks, "",
    "  ")] lays out a [[]Task], and reads arrays of flat objects whose values
    are strings and integers.  It serves to evaluate the programs on
    concrete inputs; the theorems below hold for every codec. *)

Module RefJson.

Definition hexDigit (n : nat) : string :=
  String.substring n 1 "0123456789abcdef".

(** A byte below 0x80 that the encoder escapes as [\u00XX]. *)
Definition u00 (n : nat) : string :=
  "\u00" +:+ hexDigit (n / 16) +:+ hexDigit (n mod 16).

Definition escapeByte (c : ascii) : string :=
  let n := nat_of_ascii c in
  if (n =? 34)%nat then "\" +:+ dq
  else if (n =? 92)%nat then "\\"
  else if (n =? 10)%nat then "\n"
  else if (n =? 13)%nat then "\r"
  else if (n =? 9)%nat then "\t"
  else if (n <? 32)%nat || (n =? 60)%nat || (n =? 62)%nat || (n =? 38)%nat then u00 n
  else String c EmptyString.

Fixpoint escape (s : string) : string :=
  match s with
  | EmptyString => EmptyString
  | String c rest => escapeByte c +:+ escape rest
  end.

Definition member (indent key value : string) : string :=
  indent +:+ quoted key +:+ ": " +:+ value.

Definition object (t : Task) : string :=
  "  {" +:+ newline
  +:+ member "    " "id" (Itoa (ID t)) +:+ "," +:+ newline
  +:+ member "    " "name" (quoted (escape (Name t))) +:+ "," +:+ newline
  +:+ member "    " "start" (quoted (escape (Start t))) +:+ "," +:+ newline
  +:+ member "    " "durationDays" (Itoa (DurationDays t)) +:+ "," +:+ newline
  +:+ member "    " "color" (quoted (escape (Color t))) +:+ "," +:+ newline
  +:+ member "    " "priority" (Itoa (Priority t)) +:+ newline
  +:+ "  }".

Fixpoint objects (ts : list Task) : string :=
  match ts with
  | [] => ""
  | [t] => object t +:+ newline
  | t :: rest => object t +:+ "," +:+ newline +:+ objects rest
  end.

Definition marshalIndent (ts : list Task) : string :=
  match ts with
  | [] => "[]"
  | _ => "[" +:+ newline +:+ objects ts +:+ "]"
  end.

Inductive token : Type :=
| TLBracket | TRBracket | TLBrace | TRBrace | TColon | TComma
| TString (s : string)
| TNumber (z : Z).

Definition hexValue (c : ascii) : option nat :=
  let n := nat_of_ascii c in
  if (48 <=? n)%nat && (n <=? 57)%nat then Some (n - 48)%nat
  else if (97 <=? n)%nat && (n <=? 102)%nat then Some (n - 87)%nat
  else if (65 <=? n)%nat && (n <=? 70)%nat then Some (n - 55)%nat
  else None.

(** The string literal whose opening quote has been read: its value and
    what follows the closing quote.  Of the [\u] escapes only those below
    0x80 are read. *)
Fixpoint lexString (s : string) (acc : string) : option (string * string) :=
  match s with
  | EmptyString => None
  | String c rest =>
      let n := nat_of_ascii c in
      if (n =? 34)%nat then Some (acc, rest)
      else if (n <? 32)%nat then None
      else if (n =? 92)%nat then
        match rest with
        | String "u"%char (String a (String b (String x (String y rest')))) =>
            match hexValue a, hexValue b, hexValue x, hexValue y with
            | Some 0%nat, Some 0%nat, Some h, Some l =>
                if (h <? 8)%nat
                then lexString rest' (acc +:+ String (ascii_of_nat (16 * h + l)) EmptyString)
                else None
            | _, _, _, _ => None
            end
        | String e rest' =>
            let k := nat_of_ascii e in
            let plain (b : nat) := lexString rest' (acc +:+ String (ascii_of_nat b) EmptyString) in
            if (k =? 34)%nat then plain 34%nat
            else if (k =? 92)%nat then plain 92%nat
            else if (k =? 47)%nat then plain 47%nat
            else if (k =? 110)%nat then plain 10%nat
            else if (k =? 114)%nat then plain 13%nat
            else if (k =? 116)%nat then plain 9%nat
            else if (k =? 98)%nat then plain 8%nat
            else if (k =? 102)%nat then plain 12%nat
            else None
        | EmptyString => None
        end
      else lexString rest (acc +:+ String c EmptyString)
  end.

(** The longest prefix of sign and digit characters, and the rest. *)
Fixpoint spanNumber (s : string) : string * string :=
  match s with
  | String c rest =>
      if bool_decide (c = "-"%char) || bool_decide (is_Some (digit c))
      then let '(n, r) := spanNumber rest in (String c n, r)
      else (EmptyString, s)
  | EmptyString => (EmptyString, EmptyString)
  end.

Definition readNumber (s : string) : option Z :=
  match s with
  | String "+"%char _ => None
  | _ => match Atoi s with Ok z => Some z | Err _ => None end
  end.

Fixpoint lex (fuel : nat) (s : string) : option (list token) :=
  match fuel with
  | O => None
  | S fuel' =>
      match s with
      | EmptyString => Some []
      | String c rest =>
          let n := nat_of_ascii c in
          let punct (t : token) := cons t <$> lex fuel' rest in
          if (n =? 32)%nat || (n =? 10)%nat || (n =? 13)%nat || (n =? 9)%nat then lex fuel' rest
          else if (n =? 91)%nat then punct TLBracket
          else if (n =? 93)%nat then punct TRBracket
          else if (n =? 123)%nat then punct TLBrace
          else if (n =? 125)%nat then punct TRBrace
          else if (n =? 58)%nat then punct TColon
          else if (n =? 44)%nat then punct TComma
          else if (n =? 34)%nat then
            match lexString rest EmptyString with
            | Some (v, rest') => cons (TString v) <$> lex fuel' rest'
            | None => None
            end
          else
            let '(num, rest') := spanNumber s in
            match readNumber num with
            | Some z => cons (TNumber z) <$> lex fuel' rest'
            | None => None
            end
      end
  end.

(** Storing the value of one member into the task being read; members of
    other names are skipped. *)
Definition setField (key : string) (v : token) (t : Task) : option Task :=
  match v with
  | TNumber z =>
      if bool_decide (key = "id")
      then Some (mkTask z (Name t) (Start t) (DurationDays t) (Color t) (Priority t))
      else if bool_decide (key = "durationDays")
      then Some (mkTask (ID t) (Name t) (Start t) z (Color t) (Priority t))
      else if bool_decide (key = "priority")
      then Some (mkTask (ID t) (Name t) (Start t) (DurationDays t) (Color t) z)
      else if bool_decide (key = "name") || bool_decide (key = "start")
              || bool_decide (key = "color")
      then None
      else Some t
  | TString s =>
      if bool_decide (key = "name")
      then Some (mkTask (ID t) s (Start t) (DurationDays t) (Color t) (Priority t))
      else if bool_decide (key = "start")
      then Some (mkTask (ID t) (Name t) s (DurationDays t) (Color t) (Priority t))
      else if bool_decide (key = "color")
      then Some (mkTask (ID t) (Name t) (Start t) (DurationDays t) s (Priority t))
      else if bool_decide (key = "id") || bool_decide (key = "durationDays")
              || bool_decide (key = "priority")
      then None
      else Some t
  | _ => None
  end.

(** The members of an object, after its opening brace. *)
Fixpoint parseMembers (ts : list token) (t : Task) : option (Task * list token) :=
  match ts with
  | TString key :: TColon :: v :: rest =>
      match setField key v t with
      | None => None
      | Some t' =>
          match rest with
          | TComma :: rest' => parseMembers rest' t'
          | TRBrace :: rest' => Some (t', rest')
          | _ => None
          end
      end
  | _ => None
  end.

Definition zeroTask : Task := mkTask 0 "" "" 0 "" 0.

Definition parseObject (ts : list token) : option (Task * list token) :=
  match ts with
  | TLBrace :: TRBrace :: rest => Some (zeroTask, rest)
  | TLBrace :: rest => parseMembers rest zeroTask
  | _ => None
  end.

(** The elements of a non-empty array, after its opening bracket. *)
Fixpoint parseElements (fuel : nat) (ts : list token) (acc : list Task)
    : option (list Task) :=
  match fuel with
  | O => None
  | S fuel' =>
      match parseObject ts with
      | Some (t, TComma :: rest) => parseElements fuel' rest (acc ++ [t])
      | Some (t, [TRBracket]) => Some (acc ++ [t])
      | _ => None
      end
  end.

Definition unmarshal (data : string) : result (list Task) :=
  match lex (S (String.length data)) data with
  | Some [] => Err "unexpected end of JSON input"
  | Some [TLBracket; TRBracket] => Ok []
  | Some (TLBracket :: ts) =>
      match parseElements (length ts) ts [] with
      | Some tasks => Ok tasks
      | None => Err "json: cannot unmarshal into Go value of type []main.Task"
      end
  | Some _ => Err "json: cannot unmarshal into Go value of type []main.Task"
  | None => Err "invalid character in JSON input"
  end.

Definition codec : JSON :=
  {| MarshalIndent := λ ts, Ok (marshalIndent ts);
     Unmarshal := unmarshal;
     Encode := λ ts, marshalIndent ts +:+ newline |}.

End RefJson.


(** * Goroutines of the flat-file variant

    [net/http] serves every request in a goroutine of its own, so calls of
    [loadTasksFromFile] and [saveTasksToFile] interleave.  Here each call is
    the list of its steps in source order, a step being one operation on
    what the goroutines share: the file and [dataMutex].  [os.ReadFile] is
    taken as one step; [os.WriteFile] is two, opening the file with
    [O_TRUNC] and writing the data. *)

Module Race.

Inductive value : Type :=
| Nil
| Tasks (tasks : list Task)
| Failed (e : error).

Inductive instr : Type :=
| ReadFile
| Lock
| UnmarshalData
| Marshal (tasks : list Task)
| OpenTruncate
| WriteData
| Unlock
| Return (v : value)
| ReturnSeed (tasks : list Task).

(** A goroutine: the steps it has still to take, its local variable [data]
    and the value its last call returned. *)
Record Goroutine := mkGoroutine {
  code : list instr;
  data : string;
  returned : option value
}.

Record State := mkState {
  file : option string;
  locked : bool;
  goroutines : list Goroutine;
  clock : Z
}.

(** [saveTasksToFile(tasks)]. *)
Definition saveCode (tasks : list Task) : list instr :=
  [Lock; Marshal tasks; OpenTruncate; WriteData; Unlock; Return Nil].

(** [loadTasksFromFile()]. *)
Definition loadCode : list instr := [ReadFile; Lock; UnmarshalData].

Definition go (c : list instr) : Goroutine := mkGoroutine c "" None.

Definition start (f : option string) (now : Z) (calls : list (list instr)) : State :=
  mkState f false (go <$> calls) now.

Section Step.
Context `{JSON}.

(** One step of goroutine [i]; [None] when it cannot take one (it has
    finished, or it waits for the mutex). *)
Definition step (i : nat) (s : State) : option State :=
  match goroutines s !! i with
  | None => None
  | Some g =>
      let continue (f : option string) (l : bool) (g' : Goroutine) :=
        Some (mkState f l (<[i := g']> (goroutines s)) (clock s)) in
      match code g with
      | [] => None
      | ReadFile :: rest =>
          match file s with
          | Some d => continue (file s) (locked s) (mkGoroutine rest d (returned g))
          | None =>
              let tasks := getInitialTasks (clock s) in
              continue (file s) (locked s)
                (mkGoroutine (saveCode tasks ++ [ReturnSeed tasks]) (data g) (returned g))
          end
      | Lock :: rest =>
          if locked s then None
          else continue (file s) true (mkGoroutine rest (data g) (returned g))
      | UnmarshalData :: rest =>
          let v := match Unmarshal (data g) with
                   | Ok tasks => Tasks tasks
                   | Err e => Failed ("解析 JSON 失敗: " +:+ e)
                   end in
          continue (file s) (locked s)
            (mkGoroutine (Unlock :: Return v :: rest) (data g) (returned g))
      | Marshal tasks :: rest =>
          match MarshalIndent tasks with
          | Ok d => continue (file s) (locked s) (mkGoroutine rest d (returned g))
          | Err e =>
              continue (file s) (locked s)
                (mkGoroutine (Unlock :: Return (Failed ("序列化 JSON 失敗: " +:+ e)) :: drop 4 rest)
                   (data g) (returned g))
          end
      | OpenTruncate :: rest =>
          continue (Some "") (locked s) (mkGoroutine rest (data g) (returned g))
      | WriteData :: rest =>
          continue (Some (data g)) (locked s) (mkGoroutine rest (data g) (returned g))
      | Unlock :: rest =>
          continue (file s) false (mkGoroutine rest (data g) (returned g))
      | Return v :: rest =>
          continue (file s) (locked s) (mkGoroutine rest (data g) (Some v))
      | ReturnSeed tasks :: rest =>
          let v := match returned g with
                   | Some (Failed e) => Failed ("無法創建並寫入預設檔案: " +:+ e)
                   | _ => Tasks tasks
                   end in
          continue (file s) (locked s) (mkGoroutine rest (data g) (Some v))
      end
  end.

(** A schedule names the goroutine that takes each step. *)
Fixpoint run (schedule : list nat) (s : State) : option State :=
  match schedule with
  | [] => Some s
  | i :: rest =>
      match step i s with
      | Some s' => run rest s'
      | None => None
      end
  end.

End Step.

Definition finished (s : State) : bool :=
  forallb (λ g, bool_decide (code g = [])) (goroutines s).

(** What the sequential functions return, as values of goroutines. *)
Definition load_value (r : result (list Task)) : value :=
  match r with Ok tasks => Tasks tasks | Err e => Failed e end.

Definition save_value (r : option error) : value :=
  match r with None => Nil | Some e => Failed e end.

(** A goroutine that has taken [p] steps of [saveCode] holds the mutex
    from its first step to its fifth. *)
Definition in_cs (p : nat) : bool := (1 <=? p)%nat && (p <=? 4)%nat.

(** The invariant of two goroutines that run [saveCode T0] and [saveCode
    T1], whose serializations are [d0] and [d1]: [p0] and [p1] count the
    steps taken.  At most one goroutine is between its [Lock] and its
    [Unlock]; the file is empty exactly while one is between truncation and
    write, and holds [d0] or [d1] as soon as one has written. *)
Definition writers_inv (T0 T1 : list Task) (d0 d1 : string) (s : State) : Prop :=
  ∃ p0 p1 x0 x1 r0 r1,
    (p0 ≤ 6)%nat ∧ (p1 ≤ 6)%nat
    ∧ goroutines s
      = [mkGoroutine (drop p0 (saveCode T0)) x0 r0;
         mkGoroutine (drop p1 (saveCode T1)) x1 r1]
    ∧ ((2 ≤ p0)%nat → x0 = d0) ∧ ((2 ≤ p1)%nat → x1 = d1)
    ∧ locked s = in_cs p0 || in_cs p1
    ∧ in_cs p0 && in_cs p1 = false
    ∧ (p0 = 3%nat ∨ p1 = 3%nat → file s = Some "")
    ∧ (p0 ≠ 3%nat → p1 ≠ 3%nat → (4 ≤ p0 ∨ 4 ≤ p1)%nat →
       file s = Some d0 ∨ file s = Some d1).

End Race.

(** * The collection of the test suite ([getTestTasks] of main_test.go) *)

Definition getTestTasks : list Task :=
  [ mkTask 101 "測試任務 A" "2026-02-01" 3 "#AAAAAA" 5;
    mkTask 102 "測試任務 B" "2026-02-04" 2 "#BBBBBB" 1 ].

(** * The page handler *)

(** [indexHandler] of each variant, given the outcome of
    [os.ReadFile("index.html")]; it reads nothing else. *)
Module FlatFilePage.

Definition indexHandler (index : result string) : Response :=
  match index with
  | Err e =>
      http_Error
        ("Error: Cannot find or read index.html in the current directory. "
         +:+ "Please make sure both main.go and index.html are present. Detail: " +:+ e)
        StatusInternalServerError
  | Ok htmlBytes => mkResponse StatusOK htmlBytes
  end.

End FlatFilePage.

Module RelationalPage.

Definition indexHandler (index : result string) : Response :=
  match index with
  | Err e =>
      http_Error ("Error: Cannot find or read index.html. Detail: " +:+ e)
        StatusInternalServerError
  | Ok htmlBytes => mkResponse StatusOK htmlBytes
  end.

End RelationalPage.

(** The statuses the program answers with. *)
Definition statuses : list Z :=
  [StatusOK; StatusBadRequest; StatusNotFound; StatusMethodNotAllowed;
   StatusInternalServerError].

(** A goroutine is inside a critical section when its next step is one
    that the source puts between [dataMutex.Lock()] and the [Unlock()] that
    follows it, this [Unlock] included. *)
Definition in_critical_section (g : Race.Goroutine) : bool :=
  match Race.code g with
  | (Race.UnmarshalData | Race.Marshal _ | Race.OpenTruncate | Race.WriteData
     | Race.Unlock) :: _ => true
  | _ => false
  end.

(** ** Scripts of driver outcomes *)

(** The driver fails none of the next [k] calls (an exhausted script fails
    none). *)
Definition calm_for (k : nat) (fs : list bool) : Prop :=
  Forall (λ f, f = false) (take k fs).

(** The driver lets the next [k] calls through and fails the one after
    them. *)
Definition fails_after (k : nat) (fs : list bool) : Prop :=
  calm_for k fs ∧ fs !! k = Some true.

(** Splitting a conjunction into its parts, definitions left folded. *)
Ltac conj := repeat match goal with |- _ ∧ _ => split end.

(** The steps two goroutines have taken, read off what is left of their
    six-step programs. *)
Ltac pick_pcs :=
  match goal with
  | |- context [Race.mkState _ _ [Race.mkGoroutine ?c0 _ _; Race.mkGoroutine ?c1 _ _] _] =>
      let p0 := eval compute in (6 - length c0)%nat in
      let p1 := eval compute in (6 - length c1)%nat in
      exists p0, p1
  end.

(** * Facts about the flat-file variant *)

Section FlatFileFacts.
Context `{JSON}.
Import FlatFile.

(** The loop of the DELETE branch is a filter: it keeps, in order, the tasks
    whose id differs, and [found] tells whether one was dropped. *)
Lemma removeTask_filter (taskID : Z) (currentTasks : list Task) :
  ∀ found newTasks,
    removeTask taskID currentTasks found newTasks
    = (found || bool_decide (taskID ∈ ID <$> currentTasks),
       newTasks ++ filter (λ t, ID t ≠ taskID) currentTasks).
Proof.
  induction currentTasks as [|task rest IH]; intros found newTasks; simpl.
  - by rewrite orb_false_r, app_nil_r.
  - destruct (decide (ID task = taskID)) as [Heq|Hne].
    + rewrite (bool_decide_eq_false_2 (ID task ≠ taskID)) by naive_solver.
      rewrite IH, filter_cons_False by naive_solver.
      rewrite (bool_decide_eq_true_2 (taskID ∈ _ :: _)) by (rewrite elem_of_cons; auto).
      by rewrite orb_true_r.
    + rewrite (bool_decide_eq_true_2 (ID task ≠ taskID)) by done.
      rewrite IH, filter_cons_True by done. rewrite <- app_assoc.
      f_equal. f_equal. apply bool_decide_ext. rewrite elem_of_cons.
      split; [auto | intros [->|?]; done].
Qed.

(** When no system call fails, saving writes the serialized collection and
    nothing else. *)
Lemma saveTasksToFile_calm (tasks : list Task) f sc y d :
  MarshalIndent tasks = Ok d →
  saveTasksToFile tasks (mkWorld f [] sc y)
  = (None, mkWorld (Some d) [] (sc ++ [SysWriteFile d]) y).
Proof. intros Hd. unfold saveTasksToFile. by rewrite Hd. Qed.

(** When serialization fails, saving makes no system call. *)
Lemma saveTasksToFile_unserializable (tasks : list Task) w e :
  MarshalIndent tasks = Err e →
  (saveTasksToFile tasks w).2 = w ∧ (saveTasksToFile tasks w).1 ≠ None.
Proof. intros He. unfold saveTasksToFile. by rewrite He. Qed.

(** Loading an existing file, when the read does not fail, parses it and
    leaves it alone. *)
Lemma loadTasksFromFile_present d sc y :
  loadTasksFromFile (mkWorld (Some d) [] sc y)
  = (match Unmarshal d with
     | Ok tasks => Ok tasks
     | Err e => Err ("解析 JSON 失敗: " +:+ e)
     end, mkWorld (Some d) [] (sc ++ [SysReadFile]) y).
Proof. unfold loadTasksFromFile. simpl. by destruct (Unmarshal d). Qed.

(** Loading when the file is absent seeds it. *)
Lemma loadTasksFromFile_absent sc y d :
  MarshalIndent (getInitialTasks y) = Ok d →
  loadTasksFromFile (mkWorld None [] sc y)
  = (Ok (getInitialTasks y),
     mkWorld (Some d) [] (sc ++ [SysReadFile; SysWriteFile d]) y).
Proof.
  intros Hd. unfold loadTasksFromFile. cbn -[getInitialTasks].
  unfold saveTasksToFile. rewrite Hd. cbn -[getInitialTasks].
  by rewrite <- app_assoc.
Qed.

(** The outcome of a load does not depend on the system calls made before. *)
Lemma loadTasksFromFile_log f fs sc sc' y :
  (loadTasksFromFile (mkWorld f fs sc y)).1 = (loadTasksFromFile (mkWorld f fs sc' y)).1.
Proof.
  unfold loadTasksFromFile, os_ReadFile, saveTasksToFile, os_WriteFile, enter.
  cbn -[getInitialTasks].
  destruct fs as [|[|n] fs]; cbn -[getInitialTasks]; try done.
  - destruct f; cbn -[getInitialTasks]; [by destruct (Unmarshal _)|].
    by destruct (MarshalIndent _).
  - destruct f; cbn -[getInitialTasks]; [by destruct (Unmarshal _)|].
    destruct (MarshalIndent _); [|done].
    cbn -[getInitialTasks]. destruct fs as [|[|[k|]] fs]; by cbn -[getInitialTasks].
Qed.

(** A load that succeeds when no system call fails leaves a world in which
    the file exists and no system call fails. *)
Lemma loadTasksFromFile_calm f sc y cur w1 :
  loadTasksFromFile (mkWorld f [] sc y) = (Ok cur, w1) →
  ∃ d sc', w1 = mkWorld (Some d) [] sc' y
           ∧ (∀ d0, f = Some d0 → d = d0 ∧ sc' = sc ++ [SysReadFile]).
Proof.
  destruct f as [d0|].
  - rewrite loadTasksFromFile_present. intros [= _ <-].
    exists d0, (sc ++ [SysReadFile]). split; [done|]. by intros ? [= <-].
  - destruct (MarshalIndent (getInitialTasks y)) as [d|e] eqn:Hd.
    + rewrite (loadTasksFromFile_absent _ _ _ Hd). intros [= _ <-].
      by exists d, (sc ++ [SysReadFile; SysWriteFile d]).
    + unfold loadTasksFromFile. cbn -[getInitialTasks].
      unfold saveTasksToFile. by rewrite Hd.
Qed.

(** The DELETE branch, once the id has been parsed and the collection
    loaded. *)
Lemma apiTasksHandler_DELETE q id body w cur w1 :
  Atoi q = Ok id →
  loadTasksFromFile w = (Ok cur, w1) →
  apiTasksHandler (mkRequest "DELETE" q body) w
  = if bool_decide (id ∈ ID <$> cur)
    then
      match saveTasksToFile (filter (λ t, ID t ≠ id) cur) w1 with
      | (Some e, w2) =>
          (http_Error (jsonMessage "error" ("Failed to save tasks after deletion: " +:+ e))
             StatusInternalServerError, w2)
      | (None, w2) =>
          (mkResponse StatusOK
             (jsonMessage "message" ("Task ID " +:+ Itoa id +:+ " deleted successfully")), w2)
      end
    else
      (http_Error (jsonMessage "error" ("Task with ID " +:+ Itoa id +:+ " not found"))
         StatusNotFound, w1).
Proof.
  intros Hq Hload. unfold apiTasksHandler.
  rewrite (bool_decide_eq_false_2 (Method _ = "GET")) by done.
  rewrite (bool_decide_eq_false_2 (Method _ = "POST")) by done.
  rewrite (bool_decide_eq_true_2 (Method _ = "DELETE")) by done.
  cbn [QueryID].
  rewrite (bool_decide_eq_false_2 (q = "")) by (by intros ->).
  rewrite Hq, Hload, removeTask_filter. cbn [orb app].
  by destruct (bool_decide (id ∈ ID <$> cur)).
Qed.

End FlatFileFacts.

(** * Facts about the relational variant *)

Section RelationalFacts.
Import Relational.

Lemma insertable_nil (m : Table) : insertable m [].
Proof. split; [constructor|]. intros t Ht. by apply elem_of_nil in Ht. Qed.

Lemma insertable_cons (m : Table) t tasks :
  insertable m (t :: tasks) ↔ m !! ID t = None ∧ insertable (<[ID t := t]> m) tasks.
Proof.
  unfold insertable. rewrite fmap_cons, NoDup_cons. split.
  - intros [[Hnotin Hnd] Hfresh]. split; [apply Hfresh; left|].
    split; [done|]. intros t' Ht'. rewrite lookup_insert_ne; [apply Hfresh; by right|].
    intros Heq. apply Hnotin. rewrite Heq. by apply list_elem_of_fmap_2.
  - intros [Hfresh [Hnd Hrest]]. split; [split; [|done]|].
    + intros [t' [Heq Ht']]%list_elem_of_fmap.
      specialize (Hrest t' Ht'). rewrite <- Heq, lookup_insert_eq in Hrest. done.
    + intros t' [->|Ht']%elem_of_cons; [done|].
      specialize (Hrest t' Ht').
      destruct (decide (ID t = ID t')) as [Heq|Hne].
      * rewrite Heq, lookup_insert_eq in Hrest. done.
      * by rewrite lookup_insert_ne in Hrest.
Qed.

(** Inserting insertable tasks adds exactly them to the rows. *)
Lemma rows_inserted tasks : ∀ m : Table,
  insertable m tasks → rows (inserted m tasks) ≡ₚ rows m ++ tasks.
Proof.
  unfold rows. induction tasks as [|t tasks IH]; intros m Hins; simpl.
  - by rewrite app_nil_r.
  - apply insertable_cons in Hins as [Hfresh Hins].
    rewrite (IH _ Hins), (map_to_list_insert _ _ _ Hfresh). simpl.
    by rewrite Permutation_middle.
Qed.

Lemma rows_inserted_empty tasks :
  NoDup (ID <$> tasks) → rows (inserted ∅ tasks) ≡ₚ tasks.
Proof.
  intros Hnd. rewrite rows_inserted; [unfold rows; by rewrite map_to_list_empty|].
  split; [done|]. intros t _. apply lookup_empty.
Qed.

(** One insertion through the prepared statement. *)
Lemma stmt_Exec_spec task db (m : Table) :
  pending db = Some (Some m) →
  let '(r, db1) := stmt_Exec task db in
  table db1 = table db ∧ clock db1 = clock db
  ∧ calls db1 = calls db ++ [StmtExec task]
  ∧ match r with
    | None => m !! ID task = None ∧ pending db1 = Some (Some (<[ID task := task]> m))
    | Some _ => pending db1 = Some (Some m)
    end.
Proof.
  destruct db as [t p fs cs y]. simpl. intros ->.
  unfold stmt_Exec, enter. simpl.
  destruct fs as [|[|] fs]; simpl; try done; by destruct (m !! ID task) eqn:Hm.
Qed.

(** The insertion loop: it succeeds only by inserting every task, and when
    it fails it has rolled the transaction back. *)
Lemma insertTasks_spec tasks : ∀ db (m : Table),
  pending db = Some (Some m) →
  let '(r, db') := insertTasks tasks db in
  table db' = table db ∧ clock db' = clock db
  ∧ match r with
    | None =>
        calls db' = calls db ++ (StmtExec <$> tasks)
        ∧ pending db' = Some (Some (inserted m tasks))
        ∧ insertable m tasks
    | Some e =>
        pending db' = None
        ∧ ∃ k t e', tasks !! k = Some t
               ∧ e = "插入任務 ID " +:+ Itoa (ID t) +:+ " 失敗: " +:+ e'
               ∧ calls db' = calls db ++ (StmtExec <$> take (S k) tasks) ++ [Rollback]
    end.
Proof.
  induction tasks as [|task tasks IH]; intros db m Hp; simpl.
  - rewrite app_nil_r. conj; try done. apply insertable_nil.
  - pose proof (stmt_Exec_spec task db m Hp) as Hexec.
    destruct (stmt_Exec task db) as [[e|] db1].
    + destruct Hexec as (Ht & Hy & Hc & Hp1).
      unfold tx_Rollback, with_pending, enter. simpl.
      destruct (faults db1); simpl; conj; try done;
        (exists 0%nat, task, e; conj; [done | done |];
         rewrite Hc, take_0; simpl; by rewrite <- app_assoc).
    + destruct Hexec as (Ht & Hy & Hc & Hfresh & Hp1).
      specialize (IH db1 _ Hp1).
      destruct (insertTasks tasks db1) as [[e|] db'].
      * destruct IH as (Ht' & Hy' & Hp' & k & t & e' & Hk & He & Hc').
        conj; try congruence.
        exists (S k), t, e'. conj; [done | done |]. rewrite Hc', Hc. simpl.
        by rewrite <- !app_assoc.
      * destruct IH as (Ht' & Hy' & Hc' & Hp' & Hins).
        conj; try congruence.
        -- rewrite Hc', Hc. by rewrite <- app_assoc.
        -- apply insertable_cons. done.
Qed.

Lemma db_Begin_spec db :
  let '(r, db1) := db_Begin db in
  table db1 = table db ∧ clock db1 = clock db ∧ calls db1 = calls db ++ [Begin]
  ∧ match r with
    | None => pending db1 = Some (table db)
    | Some _ => pending db1 = pending db
    end.
Proof.
  destruct db as [t p fs cs y]. unfold db_Begin, enter. simpl.
  by destruct fs as [|[|] fs].
Qed.

Lemma tx_Exec_DELETE_spec db t :
  pending db = Some t →
  let '(r, db1) := tx_Exec_DELETE db in
  table db1 = table db ∧ clock db1 = clock db ∧ calls db1 = calls db ++ [TxExecDelete]
  ∧ match r with
    | None => pending db1 = Some (Some ∅) ∧ is_Some t
    | Some _ => pending db1 = Some t
    end.
Proof.
  destruct db as [t0 p fs cs y]. simpl. intros ->.
  unfold tx_Exec_DELETE, enter. simpl.
  destruct fs as [|[|] fs]; simpl; try done; by destruct t.
Qed.

Lemma tx_Prepare_INSERT_spec db (m : Table) :
  pending db = Some (Some m) →
  let '(r, db1) := tx_Prepare_INSERT db in
  table db1 = table db ∧ clock db1 = clock db ∧ calls db1 = calls db ++ [TxPrepareInsert]
  ∧ pending db1 = Some (Some m).
Proof.
  destruct db as [t0 p fs cs y]. simpl. intros ->.
  unfold tx_Prepare_INSERT, enter. simpl.
  by destruct fs as [|[|] fs].
Qed.

Lemma tx_Commit_spec db t :
  pending db = Some t →
  let '(r, db1) := tx_Commit db in
  clock db1 = clock db ∧ calls db1 = calls db ++ [Commit] ∧ pending db1 = None
  ∧ match r with
    | None => table db1 = t
    | Some _ => table db1 = table db
    end.
Proof.
  destruct db as [t0 p fs cs y]. simpl. intros ->.
  unfold tx_Commit, enter. simpl.
  by destruct fs as [|[|] fs].
Qed.

Lemma tx_Rollback_spec db :
  table (tx_Rollback db) = table db ∧ clock (tx_Rollback db) = clock db
  ∧ calls (tx_Rollback db) = calls db ++ [Rollback]
  ∧ pending (tx_Rollback db) = None.
Proof.
  destruct db as [t0 p fs cs y]. unfold tx_Rollback, enter. simpl.
  by destruct fs.
Qed.

Lemma stmt_Close_spec db :
  table (stmt_Close db) = table db ∧ clock (stmt_Close db) = clock db
  ∧ calls (stmt_Close db) = calls db ++ [StmtClose]
  ∧ pending (stmt_Close db) = pending db.
Proof.
  destruct db as [t0 p fs cs y]. unfold stmt_Close, enter. simpl.
  by destruct fs.
Qed.

(** What a call of [saveTasksToDB] does, whatever the driver's failures:
    the calls it makes, the table and the transaction it leaves, and the
    error it returns, which wraps the error of the step that failed. *)
Lemma saveTasksToDB_spec (tasks : list Task) (db : DB) :
  let '(r, db') := saveTasksToDB tasks db in
  clock db' = clock db ∧
  ∃ trace, calls db' = calls db ++ trace ∧
    match r with
    | None =>
        trace = [Begin; TxExecDelete; TxPrepareInsert] ++ (StmtExec <$> tasks)
                ++ [Commit; StmtClose]
        ∧ pending db' = None
        ∧ table db' = Some (inserted ∅ tasks)
        ∧ insertable ∅ tasks
        ∧ is_Some (table db)
    | Some e =>
        table db' = table db
        ∧ ∃ e',
            trace = [Begin] ∧ pending db' = pending db
            ∧ e = "開啟事務失敗: " +:+ e'
            ∨ pending db' = None
              ∧ (trace = [Begin; TxExecDelete; Rollback]
                 ∧ e = "刪除舊任務失敗: " +:+ e'
                 ∨ trace = [Begin; TxExecDelete; TxPrepareInsert; Rollback]
                   ∧ e = "準備插入語句失敗: " +:+ e'
                 ∨ (∃ k t, tasks !! k = Some t
                           ∧ trace = [Begin; TxExecDelete; TxPrepareInsert]
                                     ++ (StmtExec <$> take (S k) tasks)
                                     ++ [Rollback; StmtClose]
                           ∧ e = "插入任務 ID " +:+ Itoa (ID t) +:+ " 失敗: " +:+ e')
                 ∨ trace = [Begin; TxExecDelete; TxPrepareInsert] ++ (StmtExec <$> tasks)
                           ++ [Commit; StmtClose]
                   ∧ e = "提交事務失敗: " +:+ e')
    end.
Proof.
  unfold saveTasksToDB.
  pose proof (db_Begin_spec db) as Hb.
  destruct (db_Begin db) as [[e|] db1].
  { destruct Hb as (Ht & Hy & Hc & Hp). split; [done|]. exists [Begin].
    conj; [done | done |]. exists e. by left. }
  destruct Hb as (Ht1 & Hy1 & Hc1 & Hp1).
  pose proof (tx_Exec_DELETE_spec db1 _ Hp1) as Hd.
  destruct (tx_Exec_DELETE db1) as [[e|] db2].
  { destruct Hd as (Ht2 & Hy2 & Hc2 & Hp2).
    destruct (tx_Rollback_spec db2) as (Ht & Hy & Hc & Hp).
    split; [congruence|].
    exists [Begin; TxExecDelete; Rollback]. conj.
    - rewrite Hc, Hc2, Hc1. by rewrite <- !app_assoc.
    - congruence.
    - exists e. right. split; [done|]. by left. }
  destruct Hd as (Ht2 & Hy2 & Hc2 & Hp2 & Hsome).
  pose proof (tx_Prepare_INSERT_spec db2 _ Hp2) as Hq.
  destruct (tx_Prepare_INSERT db2) as [[e|] db3].
  { destruct Hq as (Ht3 & Hy3 & Hc3 & Hp3).
    destruct (tx_Rollback_spec db3) as (Ht & Hy & Hc & Hp).
    split; [congruence|].
    exists [Begin; TxExecDelete; TxPrepareInsert; Rollback]. conj.
    - rewrite Hc, Hc3, Hc2, Hc1. by rewrite <- !app_assoc.
    - congruence.
    - exists e. right. split; [done|]. right. by left. }
  destruct Hq as (Ht3 & Hy3 & Hc3 & Hp3).
  pose proof (insertTasks_spec tasks db3 _ Hp3) as Hi.
  destruct (insertTasks tasks db3) as [[e|] db4].
  { destruct Hi as (Ht4 & Hy4 & Hp4 & k & t & e' & Hk & He & Hc4).
    destruct (stmt_Close_spec db4) as (Ht & Hy & Hc & Hp).
    split; [congruence|].
    eexists. conj.
    - rewrite Hc, Hc4, Hc3, Hc2, Hc1. rewrite <- !app_assoc. reflexivity.
    - congruence.
    - exists e'. right. split; [congruence|]. right. right. left.
      exists k, t. by conj. }
  destruct Hi as (Ht4 & Hy4 & Hc4 & Hp4 & Hins).
  pose proof (tx_Commit_spec db4 _ Hp4) as Hm.
  destruct (tx_Commit db4) as [[e|] db5].
  { destruct Hm as (Hy5 & Hc5 & Hp5 & Ht5).
    destruct (stmt_Close_spec db5) as (Ht & Hy & Hc & Hp).
    split; [congruence|].
    eexists. conj.
    - rewrite Hc, Hc5, Hc4, Hc3, Hc2, Hc1. rewrite <- !app_assoc. reflexivity.
    - congruence.
    - exists e. right. split; [congruence|]. by do 3 right. }
  destruct Hm as (Hy5 & Hc5 & Hp5 & Ht5).
  destruct (stmt_Close_spec db5) as (Ht & Hy & Hc & Hp).
  split; [congruence|].
  eexists. conj.
  - rewrite Hc, Hc5, Hc4, Hc3, Hc2, Hc1. rewrite <- !app_assoc. reflexivity.
  - done.
  - congruence.
  - congruence.
  - done.
  - congruence.
Qed.

(** When the driver fails no call, [saveTasksToDB] succeeds on every
    collection with pairwise distinct ids, provided the table exists. *)
Lemma insertTasks_calm tasks : ∀ t (m : Table) cs y,
  insertable m tasks →
  insertTasks tasks (mkDB t (Some (Some m)) [] cs y)
  = (None, mkDB t (Some (Some (inserted m tasks))) [] (cs ++ (StmtExec <$> tasks)) y).
Proof.
  induction tasks as [|task tasks IH]; intros t m cs y Hins; simpl.
  - by rewrite app_nil_r.
  - apply insertable_cons in Hins as [Hfresh Hins].
    unfold stmt_Exec, enter, with_pending. simpl. rewrite Hfresh.
    rewrite (IH _ _ _ _ Hins). by rewrite <- app_assoc.
Qed.

Lemma saveTasksToDB_calm tasks (m0 : Table) p cs y :
  NoDup (ID <$> tasks) →
  saveTasksToDB tasks (mkDB (Some m0) p [] cs y)
  = (None,
     mkDB (Some (inserted ∅ tasks)) None []
       (cs ++ [Begin; TxExecDelete; TxPrepareInsert] ++ (StmtExec <$> tasks)
           ++ [Commit; StmtClose]) y).
Proof.
  intros Hnd. unfold saveTasksToDB, db_Begin, tx_Exec_DELETE, tx_Prepare_INSERT, enter,
    with_pending. simpl.
  rewrite insertTasks_calm by (split; [done|]; intros; apply lookup_empty).
  unfold tx_Commit, stmt_Close, enter, with_pending, with_table. simpl.
  by rewrite <- !app_assoc.
Qed.

Lemma insertTasks_faults tasks : ∀ db,
  faults db = [] → faults (insertTasks tasks db).2 = [].
Proof.
  induction tasks as [|task tasks IH]; intros db Hf; simpl; [done|].
  destruct db as [t p fs cs y]. simpl in Hf. subst fs.
  unfold stmt_Exec, enter. simpl.
  destruct p as [[m|]|]; simpl; try done.
  destruct (m !! ID task); simpl; [done|]. by apply IH.
Qed.

Lemma saveTasksToDB_faults tasks db :
  faults db = [] → faults (saveTasksToDB tasks db).2 = [].
Proof.
  destruct db as [t p fs cs y]. simpl. intros ->.
  unfold saveTasksToDB, db_Begin, tx_Exec_DELETE, tx_Prepare_INSERT, enter,
    with_pending. simpl.
  destruct t as [m|]; simpl; [|done].
  pose proof (insertTasks_faults tasks
    (mkDB (Some m) (Some (Some ∅)) [] (((cs ++ [Begin]) ++ [TxExecDelete]) ++ [TxPrepareInsert]) y)
    eq_refl) as Hf.
  destruct (insertTasks tasks _) as [[e|] db4]; simpl in *.
  - destruct db4; simpl in *; by subst.
  - destruct db4 as [t4 p4 fs4 cs4 y4]; simpl in *; subst.
    unfold tx_Commit, enter. simpl. by destruct p4.
Qed.

(** The cursor loop delivers a prefix of the rows, after what was there. *)
Lemma scanRows_prefix rs : ∀ acc db l db',
  scanRows rs acc db = (Ok l, db') → ∃ k, l = acc ++ take k rs.
Proof.
  induction rs as [|t rs IH]; intros acc db l db'; simpl.
  - destruct (enter RowsNext db) as [f db1]. intros [= <- _].
    exists 0%nat. by rewrite app_nil_r.
  - destruct (enter RowsNext db) as [[|] db1].
    + intros [= <- _]. exists 0%nat. by rewrite take_0, app_nil_r.
    + destruct (enter RowsScan db1) as [[|] db2]; [done|].
      intros [k ->]%IH. exists (S k). by rewrite <- app_assoc.
Qed.

(** When the driver fails no call the loop delivers every row. *)
Lemma scanRows_calm rs : ∀ acc t p cs y,
  ∃ cs', scanRows rs acc (mkDB t p [] cs y) = (Ok (acc ++ rs), mkDB t p [] cs' y).
Proof.
  induction rs as [|r rs IH]; intros acc t p cs y; simpl.
  - unfold enter. simpl. eexists. by rewrite app_nil_r.
  - unfold enter. simpl. destruct (IH (acc ++ [r]) t p ((cs ++ [RowsNext]) ++ [RowsScan]) y)
      as [cs' ->].
    exists cs'. by rewrite <- app_assoc.
Qed.

Lemma loadTasksFromDB_calm (m : Table) p cs y :
  ∃ cs', loadTasksFromDB (mkDB (Some m) p [] cs y)
         = (Ok (merge_sort by_priority (rows m)), mkDB (Some m) p [] cs' y).
Proof.
  unfold loadTasksFromDB, db_Query_SELECT, enter. simpl. fold (rows m).
  destruct (scanRows_calm (merge_sort by_priority (rows m)) [] (Some m) p
              (cs ++ [QuerySelect]) y) as [cs' ->].
  unfold rows_Close, enter. simpl. by eexists.
Qed.

Lemma loadTasksFromDB_no_table p cs y :
  loadTasksFromDB (mkDB None p [] cs y)
  = (Err ("查詢資料庫失敗: " +:+ ErrNoTable), mkDB None p [] (cs ++ [QuerySelect]) y).
Proof. reflexivity. Qed.

(** Whatever the driver's failures, a load that returns no error returns a
    list in ascending order of priority. *)
Lemma loadTasksFromDB_sorted db l db' :
  loadTasksFromDB db = (Ok l, db') → Sorted by_priority l.
Proof.
  unfold loadTasksFromDB.
  destruct (db_Query_SELECT db) as [[rs|e] db1] eqn:Hq; [|done].
  destruct (scanRows rs [] db1) as [r db2] eqn:Hscan. intros [= -> _].
  apply scanRows_prefix in Hscan as [k ->]. simpl.
  assert (Sorted by_priority rs) as Hs.
  { unfold db_Query_SELECT in Hq. destruct (enter QuerySelect db) as [[|] d]; [done|].
    destruct (table d); [|done]. injection Hq as <- _. apply Sorted_merge_sort, _. }
  apply StronglySorted_Sorted.
  apply Sorted_StronglySorted in Hs; [|apply _].
  rewrite <- (take_drop k rs) in Hs. by apply StronglySorted_app_1_l in Hs.
Qed.

(** The outcome of a relational load is decided by the committed table
    when the driver fails no call. *)
Lemma loadTasksFromDB_table db db' :
  Relational.faults db = [] → Relational.faults db' = [] →
  Relational.table db = Relational.table db' →
  (Relational.loadTasksFromDB db).1 = (Relational.loadTasksFromDB db').1.
Proof.
  destruct db as [t p fs cs y], db' as [t' p' fs' cs' y']. simpl.
  intros -> -> <-. destruct t as [m|].
  - destruct (loadTasksFromDB_calm m p cs y) as [c1 ->].
    destruct (loadTasksFromDB_calm m p' cs' y') as [c2 ->]. done.
  - by rewrite !loadTasksFromDB_no_table.
Qed.

(** [saveTasksToDB] and [initDB] call the database only: neither calls
    [http.ListenAndServe]. *)
Lemma saveTasksToDB_calls tasks db :
  ∃ trace, Relational.calls (Relational.saveTasksToDB tasks db).2
           = Relational.calls db ++ trace
           ∧ Forall (λ c, c ≠ Relational.Listen) trace.
Proof.
  pose proof (saveTasksToDB_spec tasks db) as Hspec.
  destruct (Relational.saveTasksToDB tasks db) as [[e|] db1]; simpl.
  - destruct Hspec as (_ & trace & Hc & _ & e' & [(-> & _) | [_ Htr]]).
    { exists [Relational.Begin]. split; [done|]. by repeat constructor. }
    exists trace. split; [done|].
    destruct Htr as [[-> _] | [[-> _] | [(k & t & _ & -> & _) | [-> _]]]];
      repeat first [ apply Forall_cons; split; [done|]
                   | apply Forall_app; split
                   | apply Forall_nil_2
                   | apply Forall_fmap, Forall_true; done ].
  - destruct Hspec as (_ & trace & Hc & -> & _).
    eexists. split; [done|].
    repeat first [ apply Forall_cons; split; [done|]
                 | apply Forall_app; split
                 | apply Forall_nil_2
                 | apply Forall_fmap, Forall_true; done ].
Qed.

Lemma initDB_calls path db :
  ∃ trace, Relational.calls (Relational.initDB path db).2 = Relational.calls db ++ trace
           ∧ Forall (λ c, c ≠ Relational.Listen) trace.
Proof.
  assert (∀ c d, Relational.calls (Relational.enter c d).2 = Relational.calls d ++ [c])
    as Henter by (intros c [t p [|f fs] cs y]; done).
  unfold Relational.initDB.
  assert (Relational.calls (Relational.sql_Open db).2 = Relational.calls db ++ [Relational.Open])
    as H1.
  { unfold Relational.sql_Open. specialize (Henter Relational.Open db).
    by destruct (Relational.enter _ db) as [[|] ?]. }
  destruct (Relational.sql_Open db) as [[e|] db1]; simpl in H1.
  { exists [Relational.Open]. split; [done|]. by repeat constructor. }
  assert (Relational.calls (Relational.db_Ping db1).2 = Relational.calls db1 ++ [Relational.Ping])
    as H2.
  { unfold Relational.db_Ping. specialize (Henter Relational.Ping db1).
    by destruct (Relational.enter _ db1) as [[|] ?]. }
  destruct (Relational.db_Ping db1) as [[e|] db2]; simpl in H2.
  { exists [Relational.Open; Relational.Ping]. simpl. rewrite H2, H1, <- app_assoc.
    split; [done|]. by repeat constructor. }
  assert (Relational.calls (Relational.db_Exec_CREATE db2).2
          = Relational.calls db2 ++ [Relational.ExecCreateTable]) as H3.
  { unfold Relational.db_Exec_CREATE. specialize (Henter Relational.ExecCreateTable db2).
    destruct (Relational.enter _ db2) as [[|] d]; [done|]. by destruct (Relational.table d). }
  destruct (Relational.db_Exec_CREATE db2) as [[e|] db3]; simpl in H3.
  { exists [Relational.Open; Relational.Ping; Relational.ExecCreateTable].
    simpl. rewrite H3, H2, H1, <- !app_assoc. split; [done|]. by repeat constructor. }
  assert (Relational.calls (Relational.db_QueryRow_COUNT db3).2
          = Relational.calls db3 ++ [Relational.QueryRowCount]) as H4.
  { unfold Relational.db_QueryRow_COUNT. specialize (Henter Relational.QueryRowCount db3).
    destruct (Relational.enter _ db3) as [[|] d]; [done|]. by destruct (Relational.table d). }
  destruct (Relational.db_QueryRow_COUNT db3) as [[count|e] db4]; simpl in H4.
  2: { exists [Relational.Open; Relational.Ping; Relational.ExecCreateTable;
               Relational.QueryRowCount].
       simpl. rewrite H4, H3, H2, H1, <- !app_assoc. split; [done|]. by repeat constructor. }
  case_bool_decide.
  2: { exists [Relational.Open; Relational.Ping; Relational.ExecCreateTable;
               Relational.QueryRowCount].
       simpl. rewrite H4, H3, H2, H1, <- !app_assoc. split; [done|]. by repeat constructor. }
  destruct (saveTasksToDB_calls (getInitialTasks (Relational.clock db4)) db4)
    as (tr & Hc & Htr).
  exists ([Relational.Open; Relational.Ping; Relational.ExecCreateTable;
           Relational.QueryRowCount] ++ tr).
  split.
  - destruct (Relational.saveTasksToDB _ db4) as [[e|] db5]; simpl in *;
      rewrite Hc, H4, H3, H2, H1, <- !app_assoc; done.
  - apply Forall_app. split; [by repeat constructor | done].
Qed.

End RelationalFacts.

(** * Facts about the goroutines *)

Section RaceFacts.
Context `{JSON}.

(** A goroutine that runs alone does what the sequential function does:
    same value returned, same file left, mutex released. *)
Lemma load_alone f y sc :
  ∃ n s,
    Race.run (replicate n 0%nat) (Race.start f y [Race.loadCode]) = Some s
    ∧ Race.finished s = true
    ∧ Race.locked s = false
    ∧ Race.file s = FlatFile.file (FlatFile.loadTasksFromFile (FlatFile.mkWorld f [] sc y)).2
    ∧ Race.returned <$> Race.goroutines s !! 0%nat
      = Some (Some (Race.load_value
                      (FlatFile.loadTasksFromFile (FlatFile.mkWorld f [] sc y)).1)).
Proof.
  destruct f as [d|].
  - rewrite loadTasksFromFile_present. exists 5%nat. cbn.
    destruct (Unmarshal d); eexists; by conj.
  - destruct (MarshalIndent (getInitialTasks y)) as [d|e] eqn:Hd.
    + rewrite (loadTasksFromFile_absent _ _ _ Hd). exists 8%nat.
      cbn -[getInitialTasks]. rewrite Hd. cbn -[getInitialTasks]. eexists; by conj.
    + unfold FlatFile.loadTasksFromFile. cbn -[getInitialTasks].
      unfold FlatFile.saveTasksToFile. rewrite Hd. exists 6%nat.
      cbn -[getInitialTasks]. rewrite Hd. cbn -[getInitialTasks]. eexists; by conj.
Qed.

Lemma save_alone tasks f y sc :
  ∃ n s,
    Race.run (replicate n 0%nat) (Race.start f y [Race.saveCode tasks]) = Some s
    ∧ Race.finished s = true
    ∧ Race.locked s = false
    ∧ Race.file s
      = FlatFile.file (FlatFile.saveTasksToFile tasks (FlatFile.mkWorld f [] sc y)).2
    ∧ Race.returned <$> Race.goroutines s !! 0%nat
      = Some (Some (Race.save_value
                      (FlatFile.saveTasksToFile tasks (FlatFile.mkWorld f [] sc y)).1)).
Proof.
  destruct (MarshalIndent tasks) as [d|e] eqn:Hd.
  - rewrite (saveTasksToFile_calm _ _ _ _ d Hd). exists 6%nat.
    cbn. rewrite Hd. cbn. eexists; by conj.
  - unfold FlatFile.saveTasksToFile. rewrite Hd. exists 4%nat.
    cbn. rewrite Hd. cbn. eexists; by conj.
Qed.

(** Two goroutines that save: every step keeps the invariant. *)
Lemma writers_inv_step (T0 T1 : list Task) (d0 d1 : string) i s s' :
  MarshalIndent T0 = Ok d0 → MarshalIndent T1 = Ok d1 →
  Race.writers_inv T0 T1 d0 d1 s → Race.step i s = Some s' →
  Race.writers_inv T0 T1 d0 d1 s'.
Proof.
  intros Hd0 Hd1.
  intros (p0 & p1 & x0 & x1 & r0 & r1 & Hp0 & Hp1 & Hg & Hx0 & Hx1 & Hl & Hex & Ht & Hw).
  destruct s as [f l gs y]. simpl in *. subst gs.
  unfold Race.step. simpl.
  destruct i as [|[|i]]; simpl; [| |done];
    do 7 (try destruct p0 as [|p0]); try lia; simpl;
    do 7 (try destruct p1 as [|p1]); try lia; simpl in *; subst l;
    try done; rewrite ?Hd0, ?Hd1; intros [= <-];
    try (rewrite Hx0 by lia); try (rewrite Hx1 by lia);
    pick_pcs; eexists _, _, _, _; simpl;
    solve [ conj;
            [ lia | lia | reflexivity
            | intros; first [lia | done | apply Hx0; lia]
            | intros; first [lia | done | apply Hx1; lia]
            | reflexivity | reflexivity
            | intros [?|?]; first [lia | done | apply Ht; lia]
            | intros; first [lia | by left | by right | apply Hw; lia
                             | destruct Hw as [?|?]; [lia|lia|lia| |];
                               first [by left | by right] ] ] ].
Qed.

Lemma writers_inv_run (T0 T1 : list Task) (d0 d1 : string) schedule : ∀ s s',
  MarshalIndent T0 = Ok d0 → MarshalIndent T1 = Ok d1 →
  Race.writers_inv T0 T1 d0 d1 s → Race.run schedule s = Some s' →
  Race.writers_inv T0 T1 d0 d1 s'.
Proof.
  induction schedule as [|i schedule IH]; intros s s' Hd0 Hd1 Hinv; simpl.
  - by intros [= <-].
  - destruct (Race.step i s) as [s1|] eqn:Hstep; [|done].
    apply IH; [done..|]. by apply (writers_inv_step T0 T1 d0 d1 i s).
Qed.

End RaceFacts.

(** * The transaction, call by call of the script *)

Section RelationalScript.
Import Relational.

Lemma enter_eq c t p fs cs y :
  enter c (mkDB t p fs cs y)
  = (default false (fs !! 0%nat), mkDB t p (drop 1 fs) (cs ++ [c]) y).
Proof. by destruct fs. Qed.

Lemma calm_for_0 fs : calm_for 0 fs.
Proof. unfold calm_for. rewrite take_0. constructor. Qed.

Lemma calm_for_head k fs :
  calm_for (S k) fs ↔ default false (fs !! 0%nat) = false ∧ calm_for k (drop 1 fs).
Proof.
  unfold calm_for. destruct fs as [|f fs]; simpl.
  - rewrite take_nil. split; [done|]. intros _. constructor.
  - rewrite Forall_cons. by rewrite drop_0.
Qed.

Lemma fails_after_0 fs : fails_after 0 fs ↔ fs !! 0%nat = Some true.
Proof. unfold fails_after. split; [by intros [_ ?]|]. split; [apply calm_for_0|done]. Qed.

Lemma fails_after_head k fs :
  fails_after (S k) fs
  ↔ default false (fs !! 0%nat) = false ∧ fails_after k (drop 1 fs).
Proof.
  unfold fails_after. rewrite calm_for_head, lookup_drop. simpl. tauto.
Qed.

Lemma calm_for_le k k' fs : (k' ≤ k)%nat → calm_for k fs → calm_for k' fs.
Proof.
  unfold calm_for. intros Hle Hk.
  rewrite <- (Nat.min_l k' k), <- take_take by done. by apply Forall_take.
Qed.

(** A script that fails the call after the first [k] is not calm beyond
    it: the cases by which the outcome is told apart exclude one another. *)
Lemma fails_after_not_calm k k' fs : (k < k')%nat → fails_after k fs → ¬ calm_for k' fs.
Proof.
  intros Hlt [_ Hk] Hcalm. unfold calm_for in Hcalm.
  rewrite Forall_lookup in Hcalm.
  by specialize (Hcalm k true (proj2 (lookup_take_Some fs k' k true) (conj Hk Hlt))).
Qed.

Lemma tx_Rollback_eq t p fs cs y :
  tx_Rollback (mkDB t p fs cs y) = mkDB t None (drop 1 fs) (cs ++ [Rollback]) y.
Proof. unfold tx_Rollback. by rewrite enter_eq. Qed.

Lemma stmt_Close_eq t p fs cs y :
  stmt_Close (mkDB t p fs cs y) = mkDB t p (drop 1 fs) (cs ++ [StmtClose]) y.
Proof. unfold stmt_Close. by rewrite enter_eq. Qed.

(** A key is in the table after the insertions when it was there before or
    is the id of an inserted task. *)
Lemma inserted_lookup tasks : ∀ (m : Table) k,
  is_Some (inserted m tasks !! k) ↔ is_Some (m !! k) ∨ k ∈ ID <$> tasks.
Proof.
  induction tasks as [|t tasks IH]; intros m k; simpl.
  - rewrite elem_of_nil. tauto.
  - unfold inserted in *. simpl. rewrite IH, elem_of_cons.
    destruct (decide (k = ID t)) as [->|Hne].
    + rewrite lookup_insert_eq. split; [auto|]. intros _. left. by eexists.
    + rewrite lookup_insert_ne by done.
      split; [intros [?|?]; auto | intros [?|[?|?]]; [auto | done | auto]].
Qed.

(** The insertion loop when the driver lets every insertion through. *)
Lemma insertTasks_ok tasks : ∀ t (m : Table) fs cs y,
  insertable m tasks → calm_for (length tasks) fs →
  insertTasks tasks (mkDB t (Some (Some m)) fs cs y)
  = (None, mkDB t (Some (Some (inserted m tasks))) (drop (length tasks) fs)
             (cs ++ (StmtExec <$> tasks)) y).
Proof.
  induction tasks as [|task tasks IH]; intros t m fs cs y Hins Hcalm; simpl.
  - by rewrite drop_0, app_nil_r.
  - apply insertable_cons in Hins as [Hfresh Hins].
    apply calm_for_head in Hcalm as [Hh Hcalm].
    unfold stmt_Exec. rewrite enter_eq, Hh. simpl. rewrite Hfresh.
    unfold with_pending. simpl. rewrite IH by done.
    by rewrite drop_drop, <- app_assoc.
Qed.

(** The insertion loop when the driver fails the insertion of the task at
    index [i]. *)
Lemma insertTasks_fails tasks : ∀ i task t (m : Table) fs cs y,
  tasks !! i = Some task → insertable m (take i tasks) → fails_after i fs →
  insertTasks tasks (mkDB t (Some (Some m)) fs cs y)
  = (Some ("插入任務 ID " +:+ Itoa (ID task) +:+ " 失敗: " +:+ ErrBadConn),
     mkDB t None (drop (S (S i)) fs)
       (cs ++ (StmtExec <$> take (S i) tasks) ++ [Rollback]) y).
Proof.
  induction tasks as [|task0 tasks IH]; intros i task t m fs cs y Hi Hins Hf; [done|].
  destruct i as [|i]; simpl in Hi.
  - injection Hi as ->. apply fails_after_0 in Hf. simpl.
    unfold stmt_Exec. rewrite enter_eq, Hf. simpl. rewrite tx_Rollback_eq.
    by rewrite drop_drop, <- app_assoc.
  - simpl in Hins. apply insertable_cons in Hins as [Hfresh Hins].
    apply fails_after_head in Hf as [Hh Hf]. simpl.
    unfold stmt_Exec. rewrite enter_eq, Hh. simpl. rewrite Hfresh.
    unfold with_pending. simpl. rewrite (IH i task) by done.
    by rewrite drop_drop, <- app_assoc.
Qed.

(** The insertion loop when the id of the task at index [i] is already in
    the table, the driver letting the insertions through. *)
Lemma insertTasks_duplicate tasks : ∀ i task t (m : Table) fs cs y,
  tasks !! i = Some task → insertable m (take i tasks) →
  is_Some (inserted m (take i tasks) !! ID task) → calm_for (S i) fs →
  insertTasks tasks (mkDB t (Some (Some m)) fs cs y)
  = (Some ("插入任務 ID " +:+ Itoa (ID task) +:+ " 失敗: " +:+ ErrUnique),
     mkDB t None (drop (S (S i)) fs)
       (cs ++ (StmtExec <$> take (S i) tasks) ++ [Rollback]) y).
Proof.
  induction tasks as [|task0 tasks IH]; intros i task t m fs cs y Hi Hins Hdup Hf; [done|].
  destruct i as [|i]; simpl in Hi.
  - injection Hi as ->. apply calm_for_head in Hf as [Hh _]. simpl in *.
    destruct Hdup as [x Hx].
    unfold stmt_Exec. rewrite enter_eq, Hh. simpl. rewrite Hx, tx_Rollback_eq.
    by rewrite drop_drop, <- app_assoc.
  - simpl in Hins. apply insertable_cons in Hins as [Hfresh Hins].
    apply calm_for_head in Hf as [Hh Hf]. simpl.
    unfold stmt_Exec. rewrite enter_eq, Hh. simpl. rewrite Hfresh.
    unfold with_pending. simpl. rewrite (IH i task) by done.
    by rewrite drop_drop, <- app_assoc.
Qed.

(** A step that returns no error was let through by the driver. *)
Lemma insertTasks_let_through tasks : ∀ db db',
  insertTasks tasks db = (None, db') →
  calm_for (length tasks) (faults db)
  ∧ faults db' = drop (length tasks) (faults db).
Proof.
  induction tasks as [|task tasks IH]; intros db db'; simpl.
  - intros [= <-]. split; [apply calm_for_0 | by rewrite drop_0].
  - destruct db as [t p fs cs y]. unfold stmt_Exec. rewrite enter_eq.
    destruct (default false (fs !! 0%nat)) eqn:Hh; simpl; [done|].
    destruct p as [[m|]|]; simpl; try done.
    destruct (m !! ID task); simpl; [done|].
    intros [Hcalm ->]%IH. simpl in *. split.
    + by apply calm_for_head.
    + by rewrite drop_drop.
Qed.

Lemma saveTasksToDB_let_through tasks db db' :
  saveTasksToDB tasks db = (None, db') → calm_for (4 + length tasks) (faults db).
Proof.
  destruct db as [t p fs cs y]. simpl.
  unfold saveTasksToDB, db_Begin. rewrite enter_eq.
  destruct (default false (fs !! 0%nat)) eqn:H0; simpl; [done|].
  unfold tx_Exec_DELETE, with_pending. simpl. rewrite enter_eq.
  destruct (default false (drop 1 fs !! 0%nat)) eqn:H1; simpl; [done|].
  destruct t as [m|]; simpl; [|done].
  unfold tx_Prepare_INSERT. rewrite enter_eq.
  destruct (default false (drop 1 (drop 1 fs) !! 0%nat)) eqn:H2; simpl; [done|].
  destruct (insertTasks tasks _) as [[e|] db4] eqn:Hins; [done|].
  apply insertTasks_let_through in Hins as [Hcalm Hfs]. simpl in *.
  destruct db4 as [t4 p4 fs4 cs4 y4]. simpl in Hfs. subst fs4.
  unfold tx_Commit. rewrite enter_eq.
  destruct (default false (drop (length tasks) (drop 1 (drop 1 (drop 1 fs))) !! 0%nat))
    eqn:H3; simpl; [done|].
  intros _.
  apply calm_for_head. split; [done|].
  apply calm_for_head. split; [done|].
  apply calm_for_head. split; [done|].
  revert Hcalm H3. generalize (drop 1 (drop 1 (drop 1 fs))). clear.
  induction (length tasks) as [|n IH]; intros fs Hcalm H3.
  - apply calm_for_head. split; [by rewrite drop_0 in H3|apply calm_for_0].
  - apply calm_for_head in Hcalm as [Hh Hcalm]. apply calm_for_head. split; [done|].
    apply IH; [done|]. by rewrite drop_drop.
Qed.

(** What [saveTasksToDB] does on a table that exists, by the call of the
    script at which the driver first fails. *)
Lemma saveTasksToDB_script tasks (m0 : Table) p fs cs y :
  let db := mkDB (Some m0) p fs cs y in
  (NoDup (ID <$> tasks) → calm_for (4 + length tasks) fs →
   ∃ fs', saveTasksToDB tasks db
   = (None,
      mkDB (Some (inserted ∅ tasks)) None fs'
        (cs ++ [Begin; TxExecDelete; TxPrepareInsert] ++ (StmtExec <$> tasks)
            ++ [Commit; StmtClose]) y))
  ∧ (fails_after 2 fs →
     ∃ fs', saveTasksToDB tasks db
     = (Some ("準備插入語句失敗: " +:+ ErrBadConn),
        mkDB (Some m0) None fs'
          (cs ++ [Begin; TxExecDelete; TxPrepareInsert; Rollback]) y))
  ∧ (∀ i task, tasks !! i = Some task → NoDup (ID <$> take i tasks) →
       (fails_after (3 + i) fs →
        ∃ fs', saveTasksToDB tasks db
        = (Some ("插入任務 ID " +:+ Itoa (ID task) +:+ " 失敗: " +:+ ErrBadConn),
           mkDB (Some m0) None fs'
             (cs ++ [Begin; TxExecDelete; TxPrepareInsert]
                 ++ (StmtExec <$> take (S i) tasks) ++ [Rollback; StmtClose]) y))
       ∧ (calm_for (4 + i) fs → ID task ∈ ID <$> take i tasks →
          ∃ fs', saveTasksToDB tasks db
          = (Some ("插入任務 ID " +:+ Itoa (ID task) +:+ " 失敗: " +:+ ErrUnique),
             mkDB (Some m0) None fs'
               (cs ++ [Begin; TxExecDelete; TxPrepareInsert]
                   ++ (StmtExec <$> take (S i) tasks) ++ [Rollback; StmtClose]) y)))
  ∧ (NoDup (ID <$> tasks) → fails_after (3 + length tasks) fs →
     ∃ fs', saveTasksToDB tasks db
     = (Some ("提交事務失敗: " +:+ ErrBadConn),
        mkDB (Some m0) None fs'
          (cs ++ [Begin; TxExecDelete; TxPrepareInsert] ++ (StmtExec <$> tasks)
              ++ [Commit; StmtClose]) y)).
Proof.
  intros db. subst db.
  assert (∀ l : list Task, NoDup (ID <$> l) → insertable (∅ : Table) l) as Hfresh.
  { intros l Hnd. split; [done|]. intros; apply lookup_empty. }
  assert (default false (fs !! 0%nat) = false
          ∧ default false (drop 1 fs !! 0%nat) = false
          ∧ default false (drop 1 (drop 1 fs) !! 0%nat) = false →
          saveTasksToDB tasks (mkDB (Some m0) p fs cs y)
          = (let '(r, db5) :=
               match insertTasks tasks
                       (mkDB (Some m0) (Some (Some ∅)) (drop 1 (drop 1 (drop 1 fs)))
                          (((cs ++ [Begin]) ++ [TxExecDelete]) ++ [TxPrepareInsert]) y) with
               | (Some e, db4) => (Some e, db4)
               | (None, db4) =>
                   match tx_Commit db4 with
                   | (Some e, db5) => (Some ("提交事務失敗: " +:+ e), db5)
                   | (None, db5) => (None, db5)
                   end
               end in
             (r, stmt_Close db5))) as Hrun.
  { intros (H0 & H1 & H2).
    unfold saveTasksToDB, db_Begin. rewrite enter_eq, H0. simpl.
    unfold tx_Exec_DELETE, with_pending. simpl. rewrite enter_eq, H1. simpl.
    unfold tx_Prepare_INSERT. rewrite enter_eq, H2. simpl. done. }
  conj.
  - intros Hnd Hcalm. cbn [Nat.add] in Hcalm.
    apply calm_for_head in Hcalm as [H0 Hcalm].
    apply calm_for_head in Hcalm as [H1 Hcalm].
    apply calm_for_head in Hcalm as [H2 Hcalm].
    rewrite (Hrun (conj H0 (conj H1 H2))).
    assert (calm_for (length tasks) (drop 1 (drop 1 (drop 1 fs)))) as Hloop.
    { eapply calm_for_le; [|done]. lia. }
    rewrite (insertTasks_ok tasks _ ∅) by auto.
    assert (default false
              (drop (length tasks) (drop 1 (drop 1 (drop 1 fs))) !! 0%nat) = false) as H3.
    { clear -Hcalm. revert Hcalm. generalize (drop 1 (drop 1 (drop 1 fs))).
      induction (length tasks) as [|n IH]; intros l Hc.
      - apply calm_for_head in Hc as [? _]. by rewrite drop_0.
      - apply calm_for_head in Hc as [_ Hc]. apply IH in Hc. by rewrite drop_drop in Hc. }
    unfold tx_Commit. rewrite enter_eq, H3. simpl.
    unfold with_pending, with_table. simpl. rewrite stmt_Close_eq.
    eexists. rewrite <- ?app_assoc. simpl. by rewrite <- ?app_assoc.
  - intros Hf.
    apply fails_after_head in Hf as [H0 Hf].
    apply fails_after_head in Hf as [H1 Hf].
    apply fails_after_0 in Hf.
    unfold saveTasksToDB, db_Begin. rewrite enter_eq, H0. simpl.
    unfold tx_Exec_DELETE, with_pending. simpl. rewrite enter_eq, H1. simpl.
    unfold tx_Prepare_INSERT. rewrite enter_eq, Hf. simpl.
    rewrite tx_Rollback_eq. eexists. by rewrite <- ?app_assoc.
  - intros i task Hi Hnd. split.
    + intros Hf. cbn [Nat.add] in Hf.
      apply fails_after_head in Hf as [H0 Hf].
      apply fails_after_head in Hf as [H1 Hf].
      apply fails_after_head in Hf as [H2 Hf].
      rewrite (Hrun (conj H0 (conj H1 H2))).
      rewrite (insertTasks_fails tasks i task _ ∅) by auto.
      rewrite stmt_Close_eq. eexists. rewrite <- ?app_assoc. simpl.
      by rewrite <- ?app_assoc.
    + intros Hcalm Hin. cbn [Nat.add] in Hcalm.
      apply calm_for_head in Hcalm as [H0 Hcalm].
      apply calm_for_head in Hcalm as [H1 Hcalm].
      apply calm_for_head in Hcalm as [H2 Hcalm].
      rewrite (Hrun (conj H0 (conj H1 H2))).
      rewrite (insertTasks_duplicate tasks i task _ ∅); auto.
      2: { apply inserted_lookup. by right. }
      rewrite stmt_Close_eq. eexists. rewrite <- ?app_assoc. simpl.
      by rewrite <- ?app_assoc.
  - intros Hnd Hf. cbn [Nat.add] in Hf.
    apply fails_after_head in Hf as [H0 Hf].
    apply fails_after_head in Hf as [H1 Hf].
    apply fails_after_head in Hf as [H2 Hf].
    rewrite (Hrun (conj H0 (conj H1 H2))).
    destruct Hf as [Hloop Hf].
    rewrite (insertTasks_ok tasks _ ∅) by auto.
    unfold tx_Commit. rewrite enter_eq.
    rewrite lookup_drop, Nat.add_0_r, Hf. simpl.
    unfold with_pending. simpl. rewrite stmt_Close_eq.
    eexists. rewrite <- ?app_assoc. simpl. by rewrite <- ?app_assoc.
Qed.

(** The begin and the delete, whatever the table. *)
Lemma saveTasksToDB_script_start tasks t p fs cs y :
  let db := mkDB t p fs cs y in
  (fails_after 0 fs →
   ∃ fs', saveTasksToDB tasks db
   = (Some ("開啟事務失敗: " +:+ ErrBadConn), mkDB t p fs' (cs ++ [Begin]) y))
  ∧ (fails_after 1 fs →
     ∃ fs', saveTasksToDB tasks db
     = (Some ("刪除舊任務失敗: " +:+ ErrBadConn),
        mkDB t None fs' (cs ++ [Begin; TxExecDelete; Rollback]) y))
  ∧ (calm_for 2 fs → t = None →
     ∃ fs', saveTasksToDB tasks db
     = (Some ("刪除舊任務失敗: " +:+ ErrNoTable),
        mkDB t None fs' (cs ++ [Begin; TxExecDelete; Rollback]) y)).
Proof.
  intros db. subst db. conj.
  - intros Hf%fails_after_0.
    unfold saveTasksToDB, db_Begin. rewrite enter_eq, Hf. by eexists.
  - intros Hf. apply fails_after_head in Hf as [H0 Hf%fails_after_0].
    unfold saveTasksToDB, db_Begin. rewrite enter_eq, H0. simpl.
    unfold tx_Exec_DELETE, with_pending. simpl. rewrite enter_eq, Hf. simpl.
    rewrite tx_Rollback_eq. eexists. by rewrite <- ?app_assoc.
  - intros Hcalm ->. apply calm_for_head in Hcalm as [H0 Hcalm].
    apply calm_for_head in Hcalm as [H1 _].
    unfold saveTasksToDB, db_Begin. rewrite enter_eq, H0. simpl.
    unfold tx_Exec_DELETE, with_pending. simpl. rewrite enter_eq, H1. simpl.
    rewrite tx_Rollback_eq. eexists. by rewrite <- ?app_assoc.
Qed.

End RelationalScript.

(** * The properties of the specification *)

Section Transaction.
Import Relational.

(** C1. [saveTasksToDB] is one transaction: begin, delete all rows, prepare
    the insert, execute it once per task of the input in order, commit.

    Whatever the outcome: when it returns no error the calls were exactly
    these and the rows of the table are exactly the tasks of the input;
    when it returns an error, the error wraps that of the failing step and
    the committed table is what it was before the call; if the step was the
    begin no transaction was opened, and if it was the delete, the prepare
    or an insert the transaction has been rolled back.

    The outcome is decided by the table, the ids and the driver.  The call
    returns no error exactly when the table exists, the ids of the input
    are pairwise distinct and the driver fails none of the calls begin,
    delete, prepare, the inserts and commit.  When the driver fails one of
    these calls, having let the calls before it through, the error of that
    step is returned and no later step is run; so it is when the engine
    refuses the delete because the table is missing, or an insert because
    its id repeats one before it. *)
Theorem saveTasksToDB_atomic (tasks : list Task) (db : Relational.DB) :
  let r := (saveTasksToDB tasks db).1 in
  let db' := (saveTasksToDB tasks db).2 in
  (∃ trace, calls db' = calls db ++ trace ∧
     match r with
     | None =>
         trace = [Begin; TxExecDelete; TxPrepareInsert] ++ (StmtExec <$> tasks)
                 ++ [Commit; StmtClose]
         ∧ pending db' = None
         ∧ ∃ m, table db' = Some m ∧ rows m ≡ₚ tasks
     | Some e =>
         table db' = table db
         ∧ ∃ e',
             trace = [Begin] ∧ pending db' = pending db
             ∧ e = "開啟事務失敗: " +:+ e'
             ∨ pending db' = None
               ∧ (trace = [Begin; TxExecDelete; Rollback]
                  ∧ e = "刪除舊任務失敗: " +:+ e'
                  ∨ trace = [Begin; TxExecDelete; TxPrepareInsert; Rollback]
                    ∧ e = "準備插入語句失敗: " +:+ e'
                  ∨ (∃ k t, tasks !! k = Some t
                            ∧ trace = [Begin; TxExecDelete; TxPrepareInsert]
                                      ++ (StmtExec <$> take (S k) tasks)
                                      ++ [Rollback; StmtClose]
                            ∧ e = "插入任務 ID " +:+ Itoa (ID t) +:+ " 失敗: " +:+ e')
                  ∨ trace = [Begin; TxExecDelete; TxPrepareInsert] ++ (StmtExec <$> tasks)
                            ++ [Commit; StmtClose]
                    ∧ e = "提交事務失敗: " +:+ e')
     end)
  ∧ (r = None
     ↔ is_Some (table db) ∧ NoDup (ID <$> tasks)
       ∧ calm_for (4 + length tasks) (faults db))
  ∧ (fails_after 0 (faults db) →
     r = Some ("開啟事務失敗: " +:+ ErrBadConn)
     ∧ calls db' = calls db ++ [Begin])
  ∧ (fails_after 1 (faults db) →
     r = Some ("刪除舊任務失敗: " +:+ ErrBadConn)
     ∧ calls db' = calls db ++ [Begin; TxExecDelete; Rollback])
  ∧ (calm_for 2 (faults db) → table db = None →
     r = Some ("刪除舊任務失敗: " +:+ ErrNoTable)
     ∧ calls db' = calls db ++ [Begin; TxExecDelete; Rollback])
  ∧ (is_Some (table db) →
     (fails_after 2 (faults db) →
      r = Some ("準備插入語句失敗: " +:+ ErrBadConn)
      ∧ calls db' = calls db ++ [Begin; TxExecDelete; TxPrepareInsert; Rollback])
     ∧ (∀ i task, tasks !! i = Some task → NoDup (ID <$> take i tasks) →
          (fails_after (3 + i) (faults db) →
           r = Some ("插入任務 ID " +:+ Itoa (ID task) +:+ " 失敗: " +:+ ErrBadConn)
           ∧ calls db' = calls db ++ [Begin; TxExecDelete; TxPrepareInsert]
                           ++ (StmtExec <$> take (S i) tasks) ++ [Rollback; StmtClose])
          ∧ (calm_for (4 + i) (faults db) → ID task ∈ ID <$> take i tasks →
             r = Some ("插入任務 ID " +:+ Itoa (ID task) +:+ " 失敗: " +:+ ErrUnique)
             ∧ calls db' = calls db ++ [Begin; TxExecDelete; TxPrepareInsert]
                             ++ (StmtExec <$> take (S i) tasks)
                             ++ [Rollback; StmtClose]))
     ∧ (NoDup (ID <$> tasks) → fails_after (3 + length tasks) (faults db) →
        r = Some ("提交事務失敗: " +:+ ErrBadConn)
        ∧ calls db' = calls db ++ [Begin; TxExecDelete; TxPrepareInsert]
                        ++ (StmtExec <$> tasks) ++ [Commit; StmtClose])).
Proof.
  intros r db'. subst r db'. conj.
  - pose proof (saveTasksToDB_spec tasks db) as Hspec.
    destruct (saveTasksToDB tasks db) as [[e|] db']; simpl.
    + destruct Hspec as (_ & trace & Hc & Hrest). by exists trace.
    + destruct Hspec as (_ & trace & Hc & Htr & Hp & Ht & Hins & _).
      exists trace. conj; try done.
      exists (inserted ∅ tasks). split; [done|].
      apply rows_inserted_empty, Hins.
  - split.
    + intros Hr. pose proof (saveTasksToDB_spec tasks db) as Hspec.
      destruct (saveTasksToDB tasks db) as [r db'] eqn:Hsave. simpl in Hr. subst r.
      destruct Hspec as (_ & trace & _ & _ & _ & _ & [Hnd _] & Hsome).
      conj; [done | done |]. by apply (saveTasksToDB_let_through tasks db db').
    + intros ([m0 Ht] & Hnd & Hcalm). destruct db as [t p fs cs y]. simpl in *. subst t.
      destruct (saveTasksToDB_script tasks m0 p fs cs y) as (Hok & _).
      destruct (Hok Hnd Hcalm) as [fs' ->]. done.
  - intros Hf. destruct db as [t p fs cs y]. simpl in *.
    destruct (saveTasksToDB_script_start tasks t p fs cs y) as (Hb & _).
    destruct (Hb Hf) as [fs' ->]. done.
  - intros Hf. destruct db as [t p fs cs y]. simpl in *.
    destruct (saveTasksToDB_script_start tasks t p fs cs y) as (_ & Hd & _).
    destruct (Hd Hf) as [fs' ->]. done.
  - intros Hcalm Ht. destruct db as [t p fs cs y]. simpl in *.
    destruct (saveTasksToDB_script_start tasks t p fs cs y) as (_ & _ & Hd).
    destruct (Hd Hcalm Ht) as [fs' ->]. done.
  - intros [m0 Ht]. destruct db as [t p fs cs y]. simpl in *. subst t.
    destruct (saveTasksToDB_script tasks m0 p fs cs y) as (_ & Hprep & Hins & Hcommit).
    conj.
    + intros Hf. destruct (Hprep Hf) as [fs' ->]. done.
    + intros i task Hi Hnd. destruct (Hins i task Hi Hnd) as [Hfail Hdup]. split.
      * intros Hf. destruct (Hfail Hf) as [fs' ->]. done.
      * intros Hcalm Hin. destruct (Hdup Hcalm Hin) as [fs' ->]. done.
    + intros Hnd Hf. destruct (Hcommit Hnd Hf) as [fs' ->]. done.
Qed.

(** The table holds the default tasks and the test collection is saved;
    the driver fails the fifth call, the insertion of the second task: the
    error names task 102, the calls end with the rollback and the closing
    of the statement, and the table still holds the default tasks. *)
Lemma saveTasksToDB_atomic_witness :
  let db :=
    mkDB (Some (inserted ∅ (getInitialTasks 2025))) None
      [false; false; false; false; true] [] 2025 in
  (saveTasksToDB getTestTasks db).1
  = Some ("插入任務 ID " +:+ Itoa 102 +:+ " 失敗: " +:+ ErrBadConn)
  ∧ calls (saveTasksToDB getTestTasks db).2
    = calls db ++ [Begin; TxExecDelete; TxPrepareInsert]
        ++ (StmtExec <$> take 2 getTestTasks) ++ [Rollback; StmtClose].
Proof.
  intros db.
  destruct (saveTasksToDB_atomic getTestTasks db) as (_ & _ & _ & _ & _ & Hexists).
  assert (is_Some (table db)) as Ht by (by eexists).
  destruct (Hexists Ht) as (_ & Hins & _).
  assert (getTestTasks !! 1%nat
          = Some (mkTask 102 "測試任務 B" "2026-02-04" 2 "#BBBBBB" 1)) as Hi
    by reflexivity.
  assert (NoDup (ID <$> take 1 getTestTasks)) as Hnd
    by (apply (bool_decide_unpack _); vm_compute; exact I).
  destruct (Hins 1%nat _ Hi Hnd) as [Hfail _].
  apply Hfail. split; [by repeat constructor | reflexivity].
Defined.

End Transaction.

(** C2. Replacing the collection by [T] and loading gives [T] back.  Flat
    file: when [T] is a collection the document format represents faithfully
    and no system call fails, [saveTasksToFile T] succeeds, the file holds
    the serialization of [T], and the next [loadTasksFromFile] returns [T],
    in the same order.  Relational: when the
    ids of [T] are pairwise distinct, the table exists and the driver fails
    no call, [saveTasksToDB T] succeeds and the next [loadTasksFromDB]
    returns a permutation of [T] in ascending order of priority. *)
Theorem replace_then_load `{JSON} (T : list Task) :
  (json_stable T →
   ∀ f sc y, ∃ w',
     FlatFile.saveTasksToFile T (FlatFile.mkWorld f [] sc y) = (None, w')
     ∧ Ok <$> FlatFile.file w' = Some (MarshalIndent T)
     ∧ (FlatFile.loadTasksFromFile w').1 = Ok T)
  ∧ (NoDup (ID <$> T) →
     ∀ (m : gmap Z Task) p cs y, ∃ db' l,
       Relational.saveTasksToDB T (Relational.mkDB (Some m) p [] cs y) = (None, db')
       ∧ (Relational.loadTasksFromDB db').1 = Ok l
       ∧ l ≡ₚ T
       ∧ Sorted Relational.by_priority l).
Proof.
  split.
  - intros (d & Hd & Hu) f sc y. eexists. conj.
    + by apply saveTasksToFile_calm.
    + by rewrite Hd.
    + by rewrite loadTasksFromFile_present, Hu.
  - intros Hnd m p cs y.
    rewrite (saveTasksToDB_calm T m p cs y Hnd).
    destruct (loadTasksFromDB_calm (Relational.inserted ∅ T) None
                (cs ++ [Relational.Begin; Relational.TxExecDelete;
                        Relational.TxPrepareInsert]
                    ++ (Relational.StmtExec <$> T)
                    ++ [Relational.Commit; Relational.StmtClose]) y) as [cs' Hload].
    eexists _, _. split; [done|]. rewrite Hload. simpl. split; [done|]. split.
    + by rewrite merge_sort_Permutation, rows_inserted_empty.
    + apply Sorted_merge_sort, _.
Qed.

(** The collection of the test suite is saved and loaded back by both
    variants. *)
Lemma replace_then_load_witness :
  (∃ w', FlatFile.saveTasksToFile (H := RefJson.codec) getTestTasks
           (FlatFile.mkWorld None [] [] 2025) = (None, w')
         ∧ Ok <$> FlatFile.file w' = Some (Ok (RefJson.marshalIndent getTestTasks))
         ∧ (FlatFile.loadTasksFromFile (H := RefJson.codec) w').1 = Ok getTestTasks)
  ∧ (∃ db' l,
       Relational.saveTasksToDB getTestTasks
         (Relational.mkDB (Some ∅) None [] [] 2025) = (None, db')
       ∧ (Relational.loadTasksFromDB db').1 = Ok l
       ∧ l ≡ₚ getTestTasks
       ∧ Sorted Relational.by_priority l).
Proof.
  destruct (replace_then_load (H := RefJson.codec) getTestTasks) as [Hfile Hdb].
  split.
  - apply Hfile. eexists. split; [reflexivity|]. vm_compute. reflexivity.
  - apply Hdb. apply (bool_decide_unpack _). vm_compute. exact I.
Defined.

(** C3, as amended.  A DELETE request with a well-formed id, on a world in
    which no system call fails and whose collection loads as [cur].  If [cur]
    holds a task with that id, the response is 200 and, the remaining
    collection being one the document format represents faithfully, the next
    load returns [cur] without the tasks of that id, the others in their order.
    If [cur] holds no task with that id, the response is 404 and the handler
    does nothing after its load: a backing file that existed is unchanged
    and has only been read. *)
Theorem delete_by_id `{JSON} (q : string) (id : Z) (body : result string)
    (f : option string) (sc : list FlatFile.syscall) (y : Z)
    (cur : list Task) (w1 : FlatFile.World) :
  Atoi q = Ok id →
  FlatFile.loadTasksFromFile (FlatFile.mkWorld f [] sc y) = (Ok cur, w1) →
  let keep := filter (λ t, ID t ≠ id) cur in
  let '(resp, w2) :=
    FlatFile.apiTasksHandler (mkRequest "DELETE" q body) (FlatFile.mkWorld f [] sc y) in
  if bool_decide (id ∈ ID <$> cur)
  then json_stable keep →
       Status resp = StatusOK
       ∧ (FlatFile.loadTasksFromFile w2).1 = Ok keep
       ∧ id ∉ ID <$> keep
  else Status resp = StatusNotFound
       ∧ w2 = w1
       ∧ ∀ d, f = Some d →
           FlatFile.file w2 = Some d
           ∧ FlatFile.syscalls w2 = sc ++ [FlatFile.SysReadFile].
Proof.
  intros Hq Hload keep.
  rewrite (apiTasksHandler_DELETE q id body _ cur w1 Hq Hload).
  destruct (loadTasksFromFile_calm _ _ _ _ _ Hload) as (d1 & sc1 & -> & Hsame).
  destruct (bool_decide (id ∈ ID <$> cur)).
  - fold keep. destruct (MarshalIndent keep) as [d|e] eqn:Hd.
    + rewrite (saveTasksToFile_calm keep _ _ _ d Hd). simpl.
      intros (d' & Hd' & Hu). assert (d' = d) as -> by congruence.
      rewrite loadTasksFromFile_present, Hu. simpl. conj; try done.
      intros (t & Hid & Ht)%list_elem_of_fmap.
      apply list_elem_of_filter in Ht as [Hne _]. by apply Hne.
    + unfold FlatFile.saveTasksToFile. rewrite Hd. simpl.
      intros (d' & Hd' & _). congruence.
  - simpl. conj; try done. intros d Hf.
    destruct (Hsame d Hf) as [-> ->]. done.
Qed.

(** On the collection of the test suite, deleting id 101 leaves the task
    102; deleting id 7 answers 404 and leaves the file as it was. *)
Lemma delete_by_id_witness :
  let doc := RefJson.marshalIndent getTestTasks in
  let w := FlatFile.mkWorld (Some doc) [] [] 2025 in
  (let '(resp, w2) :=
     FlatFile.apiTasksHandler (H := RefJson.codec) (mkRequest "DELETE" "101" (Ok "")) w in
   Status resp = StatusOK
   ∧ (FlatFile.loadTasksFromFile (H := RefJson.codec) w2).1
     = Ok (filter (λ t, ID t ≠ 101) getTestTasks)
   ∧ 101 ∉ ID <$> filter (λ t, ID t ≠ 101) getTestTasks)
  ∧ (let '(resp, w2) :=
       FlatFile.apiTasksHandler (H := RefJson.codec) (mkRequest "DELETE" "7" (Ok "")) w in
     Status resp = StatusNotFound
     ∧ FlatFile.file w2 = Some doc
     ∧ FlatFile.syscalls w2 = [FlatFile.SysReadFile]).
Proof.
  intros doc w. split.
  - pose proof (delete_by_id (H := RefJson.codec) "101" 101 (Ok "") (Some doc) [] 2025
                  getTestTasks (FlatFile.mkWorld (Some doc) [] [FlatFile.SysReadFile] 2025)
                  eq_refl eq_refl) as Hthm.
    cbv zeta in Hthm. fold w in Hthm.
    destruct (FlatFile.apiTasksHandler _ w) as [resp w2].
    rewrite bool_decide_eq_true_2 in Hthm
      by (apply (bool_decide_unpack _); vm_compute; exact I).
    apply Hthm. eexists. split; reflexivity.
  - pose proof (delete_by_id (H := RefJson.codec) "7" 7 (Ok "") (Some doc) [] 2025
                  getTestTasks (FlatFile.mkWorld (Some doc) [] [FlatFile.SysReadFile] 2025)
                  eq_refl eq_refl) as Hthm.
    cbv zeta in Hthm. fold w in Hthm.
    destruct (FlatFile.apiTasksHandler _ w) as [resp w2].
    rewrite bool_decide_eq_false_2 in Hthm
      by (apply (bool_decide_unpack _); vm_compute; exact I).
    destruct Hthm as (Hs & Hw & Hf). split; [done|]. by apply Hf.
Defined.

(** A first start on which the seed could not be written leaves [main]
    serving with no backing file.  A DELETE for an id that no task has is
    then answered with 404, and yet the file has been written: the load
    inside the handler has seeded it with the default collection. *)
Lemma delete_absent_id_seeds_file :
  let w0 := FlatFile.mkWorld None [FlatFile.io_ok; FlatFile.io_fail None] [] 2025 in
  let seed := RefJson.marshalIndent (getInitialTasks 2025) in
  ∃ w,
    FlatFile.main (H := RefJson.codec) w0 = Serving w
    ∧ FlatFile.file w = None
    ∧ let '(resp, w2) :=
        FlatFile.apiTasksHandler (H := RefJson.codec) (mkRequest "DELETE" "99" (Ok "")) w in
      Status resp = StatusNotFound
      ∧ FlatFile.file w2 = Some seed
      ∧ FlatFile.syscalls w2
        = FlatFile.syscalls w ++ [FlatFile.SysReadFile; FlatFile.SysWriteFile seed].
Proof.
  intros w0 seed. eexists. split; [vm_compute; reflexivity|].
  vm_compute. repeat split.
Qed.

(** C4. On a fresh store the first load gives the five default tasks, whose
    ids are 1 to 5.  Flat file: when the backing file is absent (and the
    default collection serializes, no system call failing),
    [loadTasksFromFile] writes the default collection to the file and
    returns it.  Relational: when the table is missing or empty (the driver
    failing no call), [initDB] creates it and then does what [saveTasksToDB]
    does with the default tasks, after which the table holds exactly them. *)
Theorem first_run_seeding `{JSON} (y : Z) :
  ID <$> getInitialTasks y = [1; 2; 3; 4; 5]
  ∧ (∀ d sc,
       MarshalIndent (getInitialTasks y) = Ok d →
       FlatFile.loadTasksFromFile (FlatFile.mkWorld None [] sc y)
       = (Ok (getInitialTasks y),
          FlatFile.mkWorld (Some d) [] (sc ++ [FlatFile.SysReadFile; FlatFile.SysWriteFile d]) y))
  ∧ (∀ (t : option (gmap Z Task)) p cs path,
       t = None ∨ t = Some ∅ →
       let created :=
         Relational.mkDB (Some ∅) p []
           (cs ++ [Relational.Open; Relational.Ping; Relational.ExecCreateTable;
                   Relational.QueryRowCount]) y in
       Relational.initDB path (Relational.mkDB t p [] cs y)
       = Relational.saveTasksToDB (getInitialTasks y) created
       ∧ ∃ db' l,
           Relational.initDB path (Relational.mkDB t p [] cs y) = (None, db')
           ∧ (∃ m, Relational.table db' = Some m
                   ∧ Relational.rows m ≡ₚ getInitialTasks y)
           ∧ (Relational.loadTasksFromDB db').1 = Ok l
           ∧ l ≡ₚ getInitialTasks y).
Proof.
  split; [reflexivity|]. split.
  - intros d sc Hd. by apply loadTasksFromFile_absent.
  - intros t p cs path Ht created.
    assert (NoDup (ID <$> getInitialTasks y)) as Hnd.
    { apply (bool_decide_unpack _). vm_compute. exact I. }
    assert (Relational.initDB path (Relational.mkDB t p [] cs y)
            = Relational.saveTasksToDB (getInitialTasks y) created) as Hinit.
    { unfold Relational.initDB, Relational.sql_Open, Relational.db_Ping,
        Relational.db_Exec_CREATE, Relational.db_QueryRow_COUNT, Relational.enter,
        Relational.with_table.
      unfold created.
      destruct Ht as [-> | ->]; cbn -[getInitialTasks Relational.saveTasksToDB];
        rewrite map_size_empty; cbn -[getInitialTasks Relational.saveTasksToDB];
        rewrite !(saveTasksToDB_calm _ ∅ _ _ _ Hnd); by rewrite <- !app_assoc. }
    split; [done|]. rewrite Hinit. unfold created.
    rewrite (saveTasksToDB_calm _ ∅ _ _ _ Hnd).
    match goal with |- context [Relational.mkDB _ None [] ?cs' y] =>
      destruct (loadTasksFromDB_calm (Relational.inserted ∅ (getInitialTasks y)) None cs' y)
        as [cs'' Hload] end.
    eexists _, _. split; [done|]. rewrite Hload. cbn [fst Relational.table]. conj.
    + eexists. split; [done|]. by apply rows_inserted_empty.
    + done.
    + by rewrite merge_sort_Permutation, rows_inserted_empty.
Qed.

(** With the clock in 2025: the flat-file variant creates the file with
    the defaults dated January 2026, and the relational variant, started on
    a database without the table, ends with the five tasks in it. *)
Lemma first_run_seeding_witness :
  let seed := RefJson.marshalIndent (getInitialTasks 2025) in
  FlatFile.loadTasksFromFile (H := RefJson.codec) (FlatFile.mkWorld None [] [] 2025)
  = (Ok (getInitialTasks 2025),
     FlatFile.mkWorld (Some seed) []
       [FlatFile.SysReadFile; FlatFile.SysWriteFile seed] 2025)
  ∧ ∃ db' l,
      Relational.initDB "./gantt.db" (Relational.mkDB None None [] [] 2025) = (None, db')
      ∧ (∃ m, Relational.table db' = Some m ∧ Relational.rows m ≡ₚ getInitialTasks 2025)
      ∧ (Relational.loadTasksFromDB db').1 = Ok l
      ∧ l ≡ₚ getInitialTasks 2025.
Proof.
  intros seed.
  destruct (first_run_seeding (H := RefJson.codec) 2025) as (_ & Hfile & Hdb).
  split.
  - apply (Hfile seed []). reflexivity.
  - apply (Hdb None None [] "./gantt.db"). by left.
Defined.

(** C5. A POST request whose body does not parse as a collection is
    answered with status 400 by both variants, and the state is left as it
    was: the store is not written, and not even a system call or a call to
    the driver is made. *)
Theorem malformed_post `{JSON} (b : string) (e : error) (q : string) :
  Unmarshal b = Err e →
  (∀ w, ∃ resp,
      FlatFile.apiTasksHandler (mkRequest "POST" q (Ok b)) w = (resp, w)
      ∧ Status resp = StatusBadRequest)
  ∧ (∀ db, ∃ resp,
        Relational.apiTasksHandler (mkRequest "POST" q (Ok b)) db = (resp, db)
        ∧ Status resp = StatusBadRequest).
Proof.
  intros He. split.
  - intros w. unfold FlatFile.apiTasksHandler.
    rewrite (bool_decide_eq_false_2 (Method _ = "GET")) by done.
    rewrite (bool_decide_eq_true_2 (Method _ = "POST")) by done.
    cbn [Body]. rewrite He. by eexists.
  - intros db. unfold Relational.apiTasksHandler.
    rewrite (bool_decide_eq_false_2 (Method _ = "GET")) by done.
    rewrite (bool_decide_eq_true_2 (Method _ = "POST")) by done.
    cbn [Body]. rewrite He. by eexists.
Qed.

(** The body [{"id": 1] is cut short: both variants answer 400 and leave
    a store holding the test collection untouched. *)
Lemma malformed_post_witness :
  let b := "[{" +:+ quoted "id" +:+ ": 1" in
  let w := FlatFile.mkWorld (Some (RefJson.marshalIndent getTestTasks)) [] [] 2025 in
  let db := Relational.mkDB (Some (Relational.inserted ∅ getTestTasks)) None [] [] 2025 in
  (∃ resp,
      FlatFile.apiTasksHandler (H := RefJson.codec) (mkRequest "POST" "" (Ok b)) w = (resp, w)
      ∧ Status resp = StatusBadRequest)
  ∧ (∃ resp,
        Relational.apiTasksHandler (H := RefJson.codec) (mkRequest "POST" "" (Ok b)) db
        = (resp, db)
        ∧ Status resp = StatusBadRequest).
Proof.
  intros b w db.
  destruct (malformed_post (H := RefJson.codec) b
              "json: cannot unmarshal into Go value of type []main.Task" ""
              eq_refl) as [Hfile Hdb].
  split; [apply Hfile | apply Hdb].
Defined.

(** C6. [loadTasksFromDB] returns the stored tasks in ascending order of
    priority: whatever it returns without error is in that order, and when
    the driver fails no call it returns a permutation of the stored rows.
    For a store holding exactly a task [a] (id 101, priority 5) and a task
    [b] (id 102, priority 1) it returns [[b; a]].  The flat-file load
    returns the tasks in the order of the stored document: after [[a; b]]
    has been saved it returns [[a; b]]. *)
Theorem load_order `{JSON} (a b : Task) :
  ID a = 101 → Priority a = 5 → ID b = 102 → Priority b = 1 →
  (∀ db l db',
     Relational.loadTasksFromDB db = (Ok l, db') → Sorted Relational.by_priority l)
  ∧ (∀ (m : gmap Z Task) p cs y, ∃ l,
       (Relational.loadTasksFromDB (Relational.mkDB (Some m) p [] cs y)).1 = Ok l
       ∧ l ≡ₚ Relational.rows m)
  ∧ (∀ (m : gmap Z Task) p cs y,
       Relational.rows m ≡ₚ [a; b] →
       (Relational.loadTasksFromDB (Relational.mkDB (Some m) p [] cs y)).1 = Ok [b; a])
  ∧ (json_stable [a; b] →
     ∀ f sc y,
       (FlatFile.loadTasksFromFile
          (FlatFile.saveTasksToFile [a; b] (FlatFile.mkWorld f [] sc y)).2).1
       = Ok [a; b]).
Proof.
  intros Ha Hpa Hb Hpb. conj.
  - intros db l db'. apply loadTasksFromDB_sorted.
  - intros m p cs y. destruct (loadTasksFromDB_calm m p cs y) as [cs' ->].
    eexists. split; [done|]. apply merge_sort_Permutation.
  - intros m p cs y Hrows. destruct (loadTasksFromDB_calm m p cs y) as [cs' ->].
    simpl. f_equal.
    pose proof (Sorted_merge_sort Relational.by_priority (Relational.rows m)) as Hsorted.
    assert ([a; b] ≡ₚ merge_sort Relational.by_priority (Relational.rows m)) as Hperm.
    { symmetry. etrans; [apply merge_sort_Permutation | done]. }
    apply Permutation_length_2_inv in Hperm as [Heq | Heq]; [|done].
    rewrite Heq in Hsorted. apply Sorted_inv in Hsorted as [_ Hhd].
    apply HdRel_inv in Hhd. unfold Relational.by_priority in Hhd. lia.
  - intros (d & Hd & Hu) f sc y.
    rewrite (saveTasksToFile_calm _ _ _ _ d Hd). simpl.
    by rewrite loadTasksFromFile_present, Hu.
Qed.

(** The two tasks of the test suite: the relational load answers
    [[102; 101]], the flat-file load [[101; 102]]. *)
Lemma load_order_witness :
  (Relational.loadTasksFromDB
     (Relational.mkDB (Some (Relational.inserted ∅ getTestTasks)) None [] [] 2025)).1
  = Ok (reverse getTestTasks)
  ∧ (FlatFile.loadTasksFromFile (H := RefJson.codec)
       (FlatFile.saveTasksToFile (H := RefJson.codec) getTestTasks
          (FlatFile.mkWorld None [] [] 2025)).2).1
    = Ok getTestTasks.
Proof.
  destruct (load_order (H := RefJson.codec)
              (mkTask 101 "測試任務 A" "2026-02-01" 3 "#AAAAAA" 5)
              (mkTask 102 "測試任務 B" "2026-02-04" 2 "#BBBBBB" 1)
              eq_refl eq_refl eq_refl eq_refl) as (_ & _ & Hdb & Hfile).
  split.
  - apply Hdb. apply rows_inserted_empty.
    apply (bool_decide_unpack _). vm_compute. exact I.
  - apply Hfile. eexists. split; [reflexivity|]. vm_compute. reflexivity.
Defined.

(** C7. Replacing the collection by [T] twice leaves what replacing it once
    leaves: in both variants, when no call into the system fails, the second
    call changes neither the stored collection nor the result of a load. *)
Theorem replace_all_idempotent `{JSON} (T : list Task) :
  (∀ f sc y,
     let w1 := (FlatFile.saveTasksToFile T (FlatFile.mkWorld f [] sc y)).2 in
     let w2 := (FlatFile.saveTasksToFile T w1).2 in
     FlatFile.file w2 = FlatFile.file w1
     ∧ (FlatFile.loadTasksFromFile w2).1 = (FlatFile.loadTasksFromFile w1).1)
  ∧ (∀ t p cs y,
       let db1 := (Relational.saveTasksToDB T (Relational.mkDB t p [] cs y)).2 in
       let db2 := (Relational.saveTasksToDB T db1).2 in
       Relational.table db2 = Relational.table db1
       ∧ (Relational.loadTasksFromDB db2).1 = (Relational.loadTasksFromDB db1).1).
Proof.
  split.
  - intros f sc y. destruct (MarshalIndent T) as [d|e] eqn:Hd.
    + rewrite (saveTasksToFile_calm _ _ _ _ d Hd). cbn [snd].
      rewrite (saveTasksToFile_calm _ _ _ _ d Hd). cbn [snd].
      split; [done|]. apply loadTasksFromFile_log.
    + intros w1 w2.
      assert (w1 = FlatFile.mkWorld f [] sc y) as Hw1
        by apply (saveTasksToFile_unserializable _ _ _ Hd).
      assert (w2 = w1) as -> by apply (saveTasksToFile_unserializable _ _ _ Hd).
      done.
  - intros t p cs y db1 db2.
    assert (Relational.faults db1 = []) as Hf1 by by apply saveTasksToDB_faults.
    assert (Relational.faults db2 = []) as Hf2 by by apply saveTasksToDB_faults.
    assert (Relational.table db2 = Relational.table db1) as Ht;
      [|split; [done|]; by apply loadTasksFromDB_table].
    pose proof (saveTasksToDB_spec T (Relational.mkDB t p [] cs y)) as H1.
    pose proof (saveTasksToDB_spec T db1) as H2.
    subst db2. destruct (Relational.saveTasksToDB T db1) as [[e2|] db2]; simpl.
    + by destruct H2 as (_ & tr & _ & Hsame & _).
    + destruct H2 as (_ & tr & _ & _ & _ & Ht2 & [Hnd _] & Hsome).
      rewrite Ht2. subst db1.
      destruct (Relational.saveTasksToDB T _) as [[e1|] db1] eqn:Hsave; simpl in *.
      * destruct H1 as (_ & tr1 & _ & Hsame & _). rewrite Hsame in Hsome.
        simpl in Hsome. destruct Hsome as [m ->].
        by rewrite (saveTasksToDB_calm T m p cs y Hnd) in Hsave.
      * by destruct H1 as (_ & tr1 & _ & _ & _ & -> & _).
Qed.

(** C8, as amended.  In the relational variant a failure of [initDB] is
    fatal: the process ends with status 1 in the state [initDB] left, and
    [http.ListenAndServe] has not been called.  In the flat-file variant
    [main] calls [http.ListenAndServe] whatever the first load returned: it
    ends up serving, or exits with status 0 after the failure of that
    call. *)
Theorem startup_failure `{JSON} (db db1 : Relational.DB) (e : error) :
  Relational.initDB "./gantt.db" db = (Some e, db1) →
  Relational.main db = Exited 1 false db1
  ∧ (Relational.Listen ∉ Relational.calls db → Relational.Listen ∉ Relational.calls db1)
  ∧ (∀ w, ∃ w',
       (FlatFile.main w = Serving w' ∨ FlatFile.main w = Exited 0 true w')
       ∧ last (FlatFile.syscalls w') = Some FlatFile.SysListen).
Proof.
  intros Hinit. conj.
  - unfold Relational.main. by rewrite Hinit.
  - destruct (initDB_calls "./gantt.db" db) as (trace & Hc & Htr).
    rewrite Hinit in Hc. simpl in Hc. rewrite Hc, not_elem_of_app.
    intros Hdb. split; [done|]. rewrite Forall_forall in Htr.
    intros Hin. by apply (Htr _ Hin).
  - intros w. unfold FlatFile.main.
    destruct (FlatFile.loadTasksFromFile w) as [r w1].
    unfold FlatFile.http_ListenAndServe, FlatFile.enter.
    destruct w1 as [f1 fs1 sc1 y1]. simpl.
    destruct fs1 as [|[|n] fs1]; eexists; (split; [eauto|]); simpl; apply last_snoc.
Qed.

(** A database that cannot be opened: the relational [main] exits with
    status 1 after that one call, while the flat-file [main] serves. *)
Lemma startup_failure_witness :
  let db := Relational.mkDB None None [true] [] 2025 in
  Relational.main db = Exited 1 false (Relational.mkDB None None [] [Relational.Open] 2025)
  ∧ (Relational.Listen ∉ Relational.calls db →
     Relational.Listen ∉ [Relational.Open])
  ∧ (∀ w, ∃ w',
       (FlatFile.main (H := RefJson.codec) w = Serving w'
        ∨ FlatFile.main (H := RefJson.codec) w = Exited 0 true w')
       ∧ last (FlatFile.syscalls w') = Some FlatFile.SysListen).
Proof.
  intros db.
  exact (startup_failure (H := RefJson.codec) db
           (Relational.mkDB None None [] [Relational.Open] 2025)
           ("無法開啟資料庫: " +:+ Relational.ErrBadConn) eq_refl).
Defined.

(** The backing file is absent and cannot be written: the first load of
    the flat-file [main] fails, and [main] goes on to serve requests. *)
Lemma flat_main_serves_after_failed_seed :
  let w := FlatFile.mkWorld None [FlatFile.io_ok; FlatFile.io_fail None] [] 2025 in
  let seed := RefJson.marshalIndent (getInitialTasks 2025) in
  is_Ok (FlatFile.loadTasksFromFile (H := RefJson.codec) w).1 = false
  ∧ FlatFile.main (H := RefJson.codec) w
    = Serving (FlatFile.mkWorld None []
                 [FlatFile.SysReadFile; FlatFile.SysWriteFile seed; FlatFile.SysListen] 2025).
Proof. vm_compute. done. Qed.

(** C9.  The claim fails on the code: [loadTasksFromFile] reads the file
    before it takes [dataMutex].  With a goroutine saving the test
    collection and a goroutine loading, this schedule lets the load read
    the file between the truncation and the write of the save: it observes
    an empty document, which is neither the old one nor the new one, and
    returns a parse error although both documents parse. *)
Theorem unguarded_read_observes_truncated_file :
  let old := RefJson.marshalIndent (getInitialTasks 2025) in
  let new := RefJson.marshalIndent getTestTasks in
  let s0 := Race.start (Some old) 2025 [Race.saveCode getTestTasks; Race.loadCode] in
  ∃ s e,
    Race.run (H := RefJson.codec) [0; 0; 0; 1; 0; 0; 0; 1; 1; 1; 1]%nat s0 = Some s
    ∧ Race.finished s = true
    ∧ Race.file s = Some new
    ∧ Race.data <$> Race.goroutines s !! 1%nat = Some ""
    ∧ Race.returned <$> Race.goroutines s !! 1%nat = Some (Some (Race.Failed e))
    ∧ is_Ok (RefJson.unmarshal old) = true
    ∧ is_Ok (RefJson.unmarshal new) = true.
Proof. vm_compute. eexists _, _. repeat split. Qed.

(** C10. A DELETE request removes every task whose id is the requested one:
    when the loaded collection [cur] holds at least one such task and no
    system call fails, the response is 200 and the file holds the
    serialization of [cur] without all of them, the other tasks kept. *)
Theorem delete_removes_every_match `{JSON} (q : string) (id : Z) (body : result string)
    (f : option string) (sc : list FlatFile.syscall) (y : Z)
    (cur : list Task) (w1 : FlatFile.World) (d : string) :
  Atoi q = Ok id →
  FlatFile.loadTasksFromFile (FlatFile.mkWorld f [] sc y) = (Ok cur, w1) →
  id ∈ ID <$> cur →
  MarshalIndent (filter (λ t, ID t ≠ id) cur) = Ok d →
  ∃ resp w2,
    FlatFile.apiTasksHandler (mkRequest "DELETE" q body) (FlatFile.mkWorld f [] sc y)
    = (resp, w2)
    ∧ Status resp = StatusOK
    ∧ FlatFile.file w2 = Some d
    ∧ (∀ t, t ∈ filter (λ t, ID t ≠ id) cur ↔ t ∈ cur ∧ ID t ≠ id)
    ∧ Nat.add (length (filter (λ t, ID t ≠ id) cur))
              (length (filter (λ t, ID t = id) cur))
      = length cur.
Proof.
  intros Hq Hload Hin Hd.
  rewrite (apiTasksHandler_DELETE q id body _ cur w1 Hq Hload).
  destruct (loadTasksFromFile_calm _ _ _ _ _ Hload) as (d1 & sc1 & -> & _).
  rewrite bool_decide_eq_true_2 by done.
  rewrite (saveTasksToFile_calm _ _ _ _ d Hd).
  eexists _, _. conj; try done.
  - intros t. rewrite list_elem_of_filter. tauto.
  - clear. induction cur as [|t cur IH]; [done|].
    destruct (decide (ID t = id)) as [Heq|Hne].
    + rewrite filter_cons_False, filter_cons_True by tauto. simpl. lia.
    + rewrite filter_cons_True, filter_cons_False by tauto. simpl. lia.
Qed.

(** Three stored tasks, two of them with id 7: one DELETE for id 7 leaves
    the third alone. *)
Lemma delete_removes_every_match_witness :
  let a := mkTask 7 "a" "2026-01-01" 1 "#111111" 1 in
  let b := mkTask 8 "b" "2026-01-02" 2 "#222222" 2 in
  let c := mkTask 7 "c" "2026-01-03" 3 "#333333" 3 in
  ∃ resp w2,
    FlatFile.apiTasksHandler (H := RefJson.codec) (mkRequest "DELETE" "7" (Ok ""))
      (FlatFile.mkWorld (Some (RefJson.marshalIndent [a; b; c])) [] [] 2025)
    = (resp, w2)
    ∧ Status resp = StatusOK
    ∧ FlatFile.file w2 = Some (RefJson.marshalIndent [b])
    ∧ (∀ t, t ∈ filter (λ t, ID t ≠ 7) [a; b; c] ↔ t ∈ [a; b; c] ∧ ID t ≠ 7)
    ∧ Nat.add (length (filter (λ t, ID t ≠ 7) [a; b; c]))
              (length (filter (λ t, ID t = 7) [a; b; c]))
      = length [a; b; c].
Proof.
  intros a b c.
  apply (delete_removes_every_match (H := RefJson.codec) "7" 7 (Ok "")
           (Some (RefJson.marshalIndent [a; b; c])) [] 2025 [a; b; c]
           (FlatFile.mkWorld (Some (RefJson.marshalIndent [a; b; c])) []
              [FlatFile.SysReadFile] 2025)).
  - reflexivity.
  - vm_compute. reflexivity.
  - apply (bool_decide_unpack _). vm_compute. exact I.
  - reflexivity.
Defined.

(** * Further properties *)

(** X1. A request whose method is neither GET nor POST is answered with
    405 by the relational variant, a DELETE included, and the database is
    not touched; the flat-file variant does the same unless the method is
    DELETE. *)
Theorem method_not_allowed `{JSON} (r : Request) :
  Method r ≠ "GET" → Method r ≠ "POST" →
  (∀ db, ∃ resp,
     Relational.apiTasksHandler r db = (resp, db)
     ∧ Status resp = StatusMethodNotAllowed)
  ∧ (Method r ≠ "DELETE" →
     ∀ w, ∃ resp,
       FlatFile.apiTasksHandler r w = (resp, w)
       ∧ Status resp = StatusMethodNotAllowed).
Proof.
  intros Hget Hpost. split.
  - intros db. unfold Relational.apiTasksHandler.
    rewrite !bool_decide_eq_false_2 by done. by eexists.
  - intros Hdel w. unfold FlatFile.apiTasksHandler.
    rewrite !bool_decide_eq_false_2 by done. by eexists.
Qed.

(** A DELETE request to the relational variant, on a store holding the
    test collection. *)
Lemma method_not_allowed_witness :
  let db := Relational.mkDB (Some (Relational.inserted ∅ getTestTasks)) None [] [] 2025 in
  ∃ resp,
    Relational.apiTasksHandler (H := RefJson.codec) (mkRequest "DELETE" "101" (Ok "")) db
    = (resp, db)
    ∧ Status resp = StatusMethodNotAllowed.
Proof.
  intros db.
  destruct (method_not_allowed (H := RefJson.codec) (mkRequest "DELETE" "101" (Ok "")))
    as [Hdb _]; [done..|].
  apply Hdb.
Defined.

(** X2. Uniqueness of ids is enforced by the relational store and not by
    the flat file.  For a collection in which an id repeats, when no call
    fails: [saveTasksToDB] returns an error and leaves the table as it was,
    while [saveTasksToFile] stores it, and it loads back whole if the
    document format represents it faithfully. *)
Theorem duplicate_ids `{JSON} (T : list Task) :
  ¬ NoDup (ID <$> T) →
  (∀ t p cs y, ∃ e db',
     Relational.saveTasksToDB T (Relational.mkDB t p [] cs y) = (Some e, db')
     ∧ Relational.table db' = t)
  ∧ (json_stable T →
     ∀ f sc y,
       (FlatFile.loadTasksFromFile
          (FlatFile.saveTasksToFile T (FlatFile.mkWorld f [] sc y)).2).1 = Ok T).
Proof.
  intros Hdup. split.
  - intros t p cs y.
    pose proof (saveTasksToDB_spec T (Relational.mkDB t p [] cs y)) as Hspec.
    destruct (Relational.saveTasksToDB T _) as [[e|] db'].
    + destruct Hspec as (_ & tr & _ & Hsame & _). by exists e, db'.
    + destruct Hspec as (_ & tr & _ & _ & _ & _ & [Hnd _] & _). done.
  - intros (d & Hd & Hu) f sc y.
    rewrite (saveTasksToFile_calm _ _ _ _ d Hd). simpl.
    by rewrite loadTasksFromFile_present, Hu.
Qed.

(** Two tasks with id 7, offered to a store holding the test collection. *)
Lemma duplicate_ids_witness :
  let a := mkTask 7 "a" "2026-01-01" 1 "#111111" 1 in
  let c := mkTask 7 "c" "2026-01-03" 3 "#333333" 3 in
  let t := Some (Relational.inserted ∅ getTestTasks) in
  (∃ e db',
     Relational.saveTasksToDB [a; c] (Relational.mkDB t None [] [] 2025) = (Some e, db')
     ∧ Relational.table db' = t)
  ∧ (FlatFile.loadTasksFromFile (H := RefJson.codec)
       (FlatFile.saveTasksToFile (H := RefJson.codec) [a; c]
          (FlatFile.mkWorld None [] [] 2025)).2).1 = Ok [a; c].
Proof.
  intros a c t.
  destruct (duplicate_ids (H := RefJson.codec) [a; c]) as [Hdb Hfile].
  { apply (bool_decide_unpack _). vm_compute. exact I. }
  split.
  - apply Hdb.
  - apply Hfile. eexists. split; [reflexivity|]. vm_compute. reflexivity.
Defined.

(** X3. A DELETE request without an id, or with an id that is not a decimal
    integer in range, is answered with 400 by the flat-file variant before
    any system call. *)
Theorem delete_bad_id `{JSON} (q : string) (body : result string) :
  q = "" ∨ is_Ok (Atoi q) = false →
  ∀ w, ∃ resp,
    FlatFile.apiTasksHandler (mkRequest "DELETE" q body) w = (resp, w)
    ∧ Status resp = StatusBadRequest.
Proof.
  intros Hq w. unfold FlatFile.apiTasksHandler.
  rewrite (bool_decide_eq_false_2 (Method _ = "GET")) by done.
  rewrite (bool_decide_eq_false_2 (Method _ = "POST")) by done.
  rewrite (bool_decide_eq_true_2 (Method _ = "DELETE")) by done.
  cbn [QueryID]. case_bool_decide; [by eexists|].
  destruct Hq as [? | Hq]; [done|].
  destruct (Atoi q); [done|]. by eexists.
Qed.

(** The ids [7a] and [9223372036854775808] (one more than the largest
    [int]) are refused. *)
Lemma delete_bad_id_witness :
  let w := FlatFile.mkWorld (Some (RefJson.marshalIndent getTestTasks)) [] [] 2025 in
  (∃ resp,
     FlatFile.apiTasksHandler (H := RefJson.codec) (mkRequest "DELETE" "7a" (Ok "")) w
     = (resp, w)
     ∧ Status resp = StatusBadRequest)
  ∧ (∃ resp,
       FlatFile.apiTasksHandler (H := RefJson.codec)
         (mkRequest "DELETE" "9223372036854775808" (Ok "")) w
       = (resp, w)
       ∧ Status resp = StatusBadRequest).
Proof.
  intros w. split.
  - apply (delete_bad_id (H := RefJson.codec) "7a" (Ok "")). right. reflexivity.
  - apply (delete_bad_id (H := RefJson.codec) "9223372036854775808" (Ok "")).
    right. reflexivity.
Defined.

(** X4. The mutex serializes the writers.  Two goroutines run
    [saveTasksToFile]; in every state they can reach, under any schedule,
    complete or not:
    - at most one of them is inside the critical section, and the mutex is
      held exactly while one is;
    - a goroutine that is about to write finds the file as its own
      truncation left it, empty, and holds the serialization of its own
      collection: no step of the other comes between its truncation and its
      write;
    - when both have returned, the file holds the serialization of one of
      the two collections and the mutex is released;
    - as long as one has not returned, one of them can take a step: the
      mutex never blocks both. *)
Theorem writers_serialized `{JSON} (T0 T1 : list Task) (d0 d1 : string)
    (f : option string) (y : Z) (schedule : list nat) (s : Race.State) :
  MarshalIndent T0 = Ok d0 → MarshalIndent T1 = Ok d1 →
  Race.run schedule (Race.start f y [Race.saveCode T0; Race.saveCode T1]) = Some s →
  ∃ g0 g1,
    Race.goroutines s = [g0; g1]
    ∧ in_critical_section g0 && in_critical_section g1 = false
    ∧ Race.locked s = in_critical_section g0 || in_critical_section g1
    ∧ (head (Race.code g0) = Some Race.WriteData →
       Race.file s = Some "" ∧ Race.data g0 = d0)
    ∧ (head (Race.code g1) = Some Race.WriteData →
       Race.file s = Some "" ∧ Race.data g1 = d1)
    ∧ (Race.finished s = true →
       (Race.file s = Some d0 ∨ Race.file s = Some d1) ∧ Race.locked s = false)
    ∧ (Race.finished s = false → ∃ i s', Race.step i s = Some s').
Proof.
  intros Hd0 Hd1 Hrun.
  assert (Race.writers_inv T0 T1 d0 d1
            (Race.start f y [Race.saveCode T0; Race.saveCode T1])) as Hinit.
  { exists 0%nat, 0%nat, "", "", None, None. simpl. conj; try done; lia. }
  destruct (writers_inv_run T0 T1 d0 d1 schedule _ _ Hd0 Hd1 Hinit Hrun)
    as (p0 & p1 & x0 & x1 & r0 & r1 & Hp0 & Hp1 & Hg & Hx0 & Hx1 & Hl & Hex & Ht & Hw).
  assert (∀ T p x r, (p ≤ 6)%nat →
            in_critical_section (Race.mkGoroutine (drop p (Race.saveCode T)) x r)
            = Race.in_cs p) as Hcs.
  { intros T p x r Hp. do 7 (destruct p as [|p]; [reflexivity|]). lia. }
  assert (∀ T p, (p ≤ 6)%nat →
            head (drop p (Race.saveCode T)) = Some Race.WriteData → p = 3%nat) as Hwrite.
  { intros T p Hp. do 7 (destruct p as [|p]; [by intros [=]|]). lia. }
  assert (∀ T p, (p ≤ 6)%nat → drop p (Race.saveCode T) = [] → p = 6%nat) as Hend.
  { intros T p Hp. do 6 (destruct p as [|p]; [done|]). lia. }
  eexists _, _. split; [exact Hg|]. rewrite !Hcs by done. simpl. conj.
  - done.
  - done.
  - intros ->%Hwrite; [|done]. split; [apply Ht; by left | apply Hx0; lia].
  - intros ->%Hwrite; [|done]. split; [apply Ht; by right | apply Hx1; lia].
  - intros Hfin. unfold Race.finished in Hfin. rewrite Hg in Hfin. simpl in Hfin.
    apply andb_prop in Hfin as [H0 Hfin]. apply andb_prop in Hfin as [H1 _].
    apply bool_decide_eq_true_1 in H0, H1. simpl in H0, H1.
    apply Hend in H0 as ->; [|done]. apply Hend in H1 as ->; [|done].
    split; [apply Hw; lia | by rewrite Hl].
  - intros Hfin. destruct s as [fl l gs yy]. simpl in *. subst gs l.
    unfold Race.finished in Hfin. simpl in Hfin. clear Hx0 Hx1 Ht Hw Hcs Hwrite Hend.
    do 7 (try destruct p0 as [|p0]); try lia;
      do 7 (try destruct p1 as [|p1]); try lia; simpl in *; try done;
      first [ by (exists 0%nat; eexists; unfold Race.step; simpl; rewrite ?Hd0; reflexivity)
            | by (exists 1%nat; eexists; unfold Race.step; simpl; rewrite ?Hd1; reflexivity) ].
Qed.

(** Two saves interleaved as far as the mutex lets them, up to the moment
    the second is about to write: the first has returned, the second is
    alone in the critical section and finds the file empty. *)
Lemma writers_serialized_witness :
  let T0 := getTestTasks in
  let T1 := getInitialTasks 2025 in
  ∃ s,
    Race.run (H := RefJson.codec) [0; 0; 0; 0; 0; 1; 0; 1; 1]%nat
      (Race.start None 2025 [Race.saveCode T0; Race.saveCode T1]) = Some s
    ∧ ∃ g0 g1,
        Race.goroutines s = [g0; g1]
        ∧ in_critical_section g0 && in_critical_section g1 = false
        ∧ Race.locked s = in_critical_section g0 || in_critical_section g1
        ∧ (head (Race.code g0) = Some Race.WriteData →
           Race.file s = Some "" ∧ Race.data g0 = RefJson.marshalIndent T0)
        ∧ (head (Race.code g1) = Some Race.WriteData →
           Race.file s = Some "" ∧ Race.data g1 = RefJson.marshalIndent T1)
        ∧ (Race.finished s = true →
           (Race.file s = Some (RefJson.marshalIndent T0)
            ∨ Race.file s = Some (RefJson.marshalIndent T1))
           ∧ Race.locked s = false)
        ∧ (Race.finished s = false →
           ∃ i s', Race.step (H := RefJson.codec) i s = Some s').
Proof.
  intros T0 T1. eexists. split; [vm_compute; reflexivity|].
  eapply (writers_serialized (H := RefJson.codec) T0 T1 _ _ None 2025
            [0; 0; 0; 0; 0; 1; 0; 1; 1]%nat).
  - reflexivity.
  - reflexivity.
  - vm_compute. reflexivity.
Defined.

(** X5. The unguarded read, for every codec, every stored document and
    every collection that serializes: under this schedule the load reads
    the file between the truncation and the write of a concurrent save, so
    that what it returns is what parsing the empty document gives. *)
Theorem unguarded_read_any `{JSON} (tasks : list Task) (d old : string) (y : Z) :
  MarshalIndent tasks = Ok d →
  ∃ s,
    Race.run [0; 0; 0; 1; 0; 0; 0; 1; 1; 1; 1]%nat
      (Race.start (Some old) y [Race.saveCode tasks; Race.loadCode]) = Some s
    ∧ Race.finished s = true
    ∧ Race.locked s = false
    ∧ Race.file s = Some d
    ∧ Race.data <$> Race.goroutines s !! 1%nat = Some ""
    ∧ Race.returned <$> Race.goroutines s !! 1%nat
      = Some (Some (match Unmarshal "" with
                    | Ok ts => Race.Tasks ts
                    | Err e => Race.Failed ("解析 JSON 失敗: " +:+ e)
                    end)).
Proof.
  intros Hd. cbn. rewrite Hd. cbn. eexists. by conj.
Qed.

(** A save of the default collection over the stored test collection. *)
Lemma unguarded_read_any_witness :
  ∃ s,
    Race.run (H := RefJson.codec) [0; 0; 0; 1; 0; 0; 0; 1; 1; 1; 1]%nat
      (Race.start (Some (RefJson.marshalIndent getTestTasks)) 2025
         [Race.saveCode (getInitialTasks 2025); Race.loadCode]) = Some s
    ∧ Race.finished s = true
    ∧ Race.locked s = false
    ∧ Race.file s = Some (RefJson.marshalIndent (getInitialTasks 2025))
    ∧ Race.data <$> Race.goroutines s !! 1%nat = Some ""
    ∧ Race.returned <$> Race.goroutines s !! 1%nat
      = Some (Some (Race.Failed ("解析 JSON 失敗: " +:+ "unexpected end of JSON input"))).
Proof.
  exact (unguarded_read_any (H := RefJson.codec) (getInitialTasks 2025)
           (RefJson.marshalIndent (getInitialTasks 2025))
           (RefJson.marshalIndent getTestTasks) 2025 eq_refl).
Defined.

(** * More facts about the flat-file variant *)

Section FlatFileFaults.
Context `{JSON}.
Import FlatFile.

(** Whatever the failures, a load of an existing file makes one system
    call, the read, and leaves the file. *)
Lemma loadTasksFromFile_existing w d :
  file w = Some d →
  file (loadTasksFromFile w).2 = Some d
  ∧ syscalls (loadTasksFromFile w).2 = syscalls w ++ [SysReadFile]
  ∧ faults (loadTasksFromFile w).2 = tail (faults w).
Proof.
  destruct w as [f fs sc y]. simpl. intros ->.
  unfold loadTasksFromFile, os_ReadFile, enter. simpl.
  destruct fs as [|[|n] fs]; simpl; try done; by destruct (Unmarshal d).
Qed.

(** Whatever the failures, a save that returns no error has written the
    serialization of its argument, in one system call. *)
Lemma saveTasksToFile_ok tasks w w' :
  saveTasksToFile tasks w = (None, w') →
  ∃ d, MarshalIndent tasks = Ok d
       ∧ file w' = Some d
       ∧ syscalls w' = syscalls w ++ [SysWriteFile d].
Proof.
  unfold saveTasksToFile. destruct (MarshalIndent tasks) as [d|e]; [|done].
  destruct w as [f fs sc y]. unfold os_WriteFile, enter. simpl.
  destruct fs as [|[|[n|]] fs]; simpl; try done; intros [= <-]; by exists d.
Qed.

End FlatFileFaults.

(** * More properties of the code *)

(** X6. A backing file that exists is only ever read by a load, whatever
    the failures and whether or not it parses: [loadTasksFromFile], the GET
    branch of the handler and the start of [main] make one system call on
    it, the read, and leave its content as it was. *)
Theorem existing_file_only_read `{JSON} (w : FlatFile.World) (d q : string)
    (body : result string) :
  FlatFile.file w = Some d →
  (FlatFile.file (FlatFile.loadTasksFromFile w).2 = Some d
   ∧ FlatFile.syscalls (FlatFile.loadTasksFromFile w).2
     = FlatFile.syscalls w ++ [FlatFile.SysReadFile])
  ∧ (FlatFile.file (FlatFile.apiTasksHandler (mkRequest "GET" q body) w).2 = Some d
     ∧ FlatFile.syscalls (FlatFile.apiTasksHandler (mkRequest "GET" q body) w).2
       = FlatFile.syscalls w ++ [FlatFile.SysReadFile])
  ∧ (∃ w', (FlatFile.main w = Serving w' ∨ FlatFile.main w = Exited 0 true w')
           ∧ FlatFile.file w' = Some d
           ∧ FlatFile.syscalls w'
             = FlatFile.syscalls w ++ [FlatFile.SysReadFile; FlatFile.SysListen]).
Proof.
  intros Hfile.
  destruct (loadTasksFromFile_existing w d Hfile) as (Hf & Hsc & _).
  conj; try done.
  - unfold FlatFile.apiTasksHandler.
    rewrite (bool_decide_eq_true_2 (Method _ = "GET")) by done.
    by destruct (FlatFile.loadTasksFromFile w) as [[tasks|e] w1].
  - unfold FlatFile.apiTasksHandler.
    rewrite (bool_decide_eq_true_2 (Method _ = "GET")) by done.
    by destruct (FlatFile.loadTasksFromFile w) as [[tasks|e] w1].
  - unfold FlatFile.main.
    destruct (FlatFile.loadTasksFromFile w) as [r [f1 fs1 sc1 y1]]. simpl in *. subst.
    unfold FlatFile.http_ListenAndServe, FlatFile.enter. simpl.
    destruct fs1 as [|[|n] fs1]; eexists; (split; [eauto|]); simpl;
      by rewrite <- app_assoc.
Qed.

(** A file that is not a JSON document: the load fails and the file
    stays. *)
Lemma existing_file_only_read_witness :
  let w := FlatFile.mkWorld (Some "gantt") [] [] 2025 in
  is_Ok (FlatFile.loadTasksFromFile (H := RefJson.codec) w).1 = false
  ∧ FlatFile.file (FlatFile.loadTasksFromFile (H := RefJson.codec) w).2 = Some "gantt"
  ∧ FlatFile.syscalls (FlatFile.loadTasksFromFile (H := RefJson.codec) w).2
    = [FlatFile.SysReadFile].
Proof.
  intros w. split; [reflexivity|].
  exact (proj1 (existing_file_only_read (H := RefJson.codec) w "gantt" "" (Ok "") eq_refl)).
Defined.

(** X7. The answer to a POST tells what happened to the store, whatever
    the failures.  For a body that parses as [T]: the flat-file variant
    answers 200 only after one write that left the serialization of [T] in
    the file, and 500 otherwise; the relational variant answers 200 only
    with the rows of the table being exactly [T], and otherwise 500 with the
    table as it was. *)
Theorem post_answer_tells_outcome `{JSON} (b : string) (T : list Task) (q : string) :
  Unmarshal b = Ok T →
  (∀ w,
     let '(resp, w') := FlatFile.apiTasksHandler (mkRequest "POST" q (Ok b)) w in
     Status resp = StatusOK
     ∧ (∃ d, MarshalIndent T = Ok d
             ∧ FlatFile.file w' = Some d
             ∧ FlatFile.syscalls w' = FlatFile.syscalls w ++ [FlatFile.SysWriteFile d])
     ∨ Status resp = StatusInternalServerError)
  ∧ (∀ db,
       let '(resp, db') := Relational.apiTasksHandler (mkRequest "POST" q (Ok b)) db in
       Status resp = StatusOK
       ∧ (∃ m, Relational.table db' = Some m ∧ Relational.rows m ≡ₚ T)
       ∨ Status resp = StatusInternalServerError
         ∧ Relational.table db' = Relational.table db).
Proof.
  intros Hb. split.
  - intros w. unfold FlatFile.apiTasksHandler.
    rewrite (bool_decide_eq_false_2 (Method _ = "GET")) by done.
    rewrite (bool_decide_eq_true_2 (Method _ = "POST")) by done.
    cbn [Body]. rewrite Hb.
    destruct (FlatFile.saveTasksToFile T w) as [[e|] w'] eqn:Hsave; [by right|].
    left. split; [done|]. by apply saveTasksToFile_ok.
  - intros db. unfold Relational.apiTasksHandler.
    rewrite (bool_decide_eq_false_2 (Method _ = "GET")) by done.
    rewrite (bool_decide_eq_true_2 (Method _ = "POST")) by done.
    cbn [Body]. rewrite Hb.
    pose proof (saveTasksToDB_spec T db) as Hspec.
    destruct (Relational.saveTasksToDB T db) as [[e|] db'].
    + right. split; [done|]. by destruct Hspec as (_ & tr & _ & Hsame & _).
    + left. split; [done|].
      destruct Hspec as (_ & tr & _ & _ & _ & Ht & [Hnd _] & _).
      eexists. split; [done|]. by apply rows_inserted_empty.
Qed.

(** The test collection posted while the disk refuses the write and the
    driver fails the commit. *)
Lemma post_answer_tells_outcome_witness :
  let b := RefJson.marshalIndent getTestTasks in
  let w := FlatFile.mkWorld None [FlatFile.io_fail None] [] 2025 in
  let db := Relational.mkDB (Some ∅) None [false; false; false; false; false; true] [] 2025 in
  (let '(resp, w') :=
     FlatFile.apiTasksHandler (H := RefJson.codec) (mkRequest "POST" "" (Ok b)) w in
   Status resp = StatusOK
   ∧ (∃ d, RefJson.codec.(MarshalIndent) getTestTasks = Ok d
           ∧ FlatFile.file w' = Some d
           ∧ FlatFile.syscalls w' = FlatFile.syscalls w ++ [FlatFile.SysWriteFile d])
   ∨ Status resp = StatusInternalServerError)
  ∧ (let '(resp, db') :=
       Relational.apiTasksHandler (H := RefJson.codec) (mkRequest "POST" "" (Ok b)) db in
     Status resp = StatusOK
     ∧ (∃ m, Relational.table db' = Some m ∧ Relational.rows m ≡ₚ getTestTasks)
     ∨ Status resp = StatusInternalServerError
       ∧ Relational.table db' = Relational.table db).
Proof.
  intros b w db.
  destruct (post_answer_tells_outcome (H := RefJson.codec) b getTestTasks "")
    as [Hfile Hdb]; [vm_compute; reflexivity|].
  split; [apply Hfile | apply Hdb].
Defined.

(** X8. The handlers answer with five statuses and no other: 200, 400, 404,
    405 and 500, for every request, every state and every pattern of
    failures; the page handler answers 200 or 500. *)
Theorem status_is_known `{JSON} (r : Request) :
  (∀ w, Status (FlatFile.apiTasksHandler r w).1 ∈ statuses)
  ∧ (∀ db, Status (Relational.apiTasksHandler r db).1 ∈ statuses)
  ∧ (∀ index,
       Status (FlatFilePage.indexHandler index) ∈ [StatusOK; StatusInternalServerError]
       ∧ Status (RelationalPage.indexHandler index)
         ∈ [StatusOK; StatusInternalServerError]).
Proof.
  assert (∀ x : Z, x ∈ statuses ↔
            x = StatusOK ∨ x = StatusBadRequest ∨ x = StatusNotFound
            ∨ x = StatusMethodNotAllowed ∨ x = StatusInternalServerError) as Hin.
  { intros x. unfold statuses. rewrite !elem_of_cons, elem_of_nil. tauto. }
  conj.
  - intros w. rewrite Hin. unfold FlatFile.apiTasksHandler.
    repeat first
      [ progress simpl
      | match goal with
        | |- context [bool_decide ?P] => destruct (bool_decide P)
        | |- context [Body r] => destruct (Body r)
        | |- context [Unmarshal ?b] => destruct (Unmarshal b)
        | |- context [Atoi ?q] => destruct (Atoi q)
        | |- context [FlatFile.loadTasksFromFile ?x] =>
            destruct (FlatFile.loadTasksFromFile x) as [[?|?] ?]
        | |- context [FlatFile.saveTasksToFile ?t ?x] =>
            destruct (FlatFile.saveTasksToFile t x) as [[?|] ?]
        | |- context [FlatFile.removeTask ?i ?c ?f ?n] =>
            destruct (FlatFile.removeTask i c f n) as [[|] ?]
        end ];
      auto 10.
  - intros db. rewrite Hin. unfold Relational.apiTasksHandler.
    repeat first
      [ progress simpl
      | match goal with
        | |- context [bool_decide ?P] => destruct (bool_decide P)
        | |- context [Body r] => destruct (Body r)
        | |- context [Unmarshal ?b] => destruct (Unmarshal b)
        | |- context [Relational.loadTasksFromDB ?x] =>
            destruct (Relational.loadTasksFromDB x) as [[?|?] ?]
        | |- context [Relational.saveTasksToDB ?t ?x] =>
            destruct (Relational.saveTasksToDB t x) as [[?|] ?]
        end ];
      auto 10.
  - intros [html|e]; simpl; rewrite !elem_of_cons; auto.
Qed.

(** X9. What is posted is what is listed.  For a body that parses as [T],
    when no call fails: in the flat-file variant ([T] being a collection the
    document format represents faithfully) the POST is answered 200 and a
    following GET answers 200 with the encoding of [T]; in the relational
    variant (the ids of [T] being pairwise distinct) the following GET
    answers 200 with the encoding of a permutation of [T] in ascending order
    of priority. *)
Theorem post_then_get `{JSON} (b : string) (T : list Task) (q q' : string)
    (body' : result string) :
  Unmarshal b = Ok T →
  (json_stable T →
   ∀ f sc y, ∃ w1 w2,
     FlatFile.apiTasksHandler (mkRequest "POST" q (Ok b)) (FlatFile.mkWorld f [] sc y)
     = (mkResponse StatusOK (jsonMessage "message" "任務數據儲存成功"), w1)
     ∧ FlatFile.apiTasksHandler (mkRequest "GET" q' body') w1
       = (mkResponse StatusOK (Encode T), w2))
  ∧ (NoDup (ID <$> T) →
     ∀ (m : gmap Z Task) p cs y, ∃ db1 db2 l,
       Relational.apiTasksHandler (mkRequest "POST" q (Ok b))
         (Relational.mkDB (Some m) p [] cs y)
       = (mkResponse StatusOK (jsonMessage "message" "任務數據儲存成功"), db1)
       ∧ Relational.apiTasksHandler (mkRequest "GET" q' body') db1
         = (mkResponse StatusOK (Encode l), db2)
       ∧ l ≡ₚ T
       ∧ Sorted Relational.by_priority l).
Proof.
  intros Hb. split.
  - intros (d & Hd & Hu) f sc y. unfold FlatFile.apiTasksHandler.
    rewrite (bool_decide_eq_false_2 (Method (mkRequest "POST" _ _) = "GET")) by done.
    rewrite (bool_decide_eq_true_2 (Method (mkRequest "POST" _ _) = "POST")) by done.
    rewrite (bool_decide_eq_true_2 (Method (mkRequest "GET" _ _) = "GET")) by done.
    cbn [Body]. rewrite Hb, (saveTasksToFile_calm _ _ _ _ d Hd).
    eexists _, _. split; [done|].
    by rewrite loadTasksFromFile_present, Hu.
  - intros Hnd m p cs y. unfold Relational.apiTasksHandler.
    rewrite (bool_decide_eq_false_2 (Method (mkRequest "POST" _ _) = "GET")) by done.
    rewrite (bool_decide_eq_true_2 (Method (mkRequest "POST" _ _) = "POST")) by done.
    rewrite (bool_decide_eq_true_2 (Method (mkRequest "GET" _ _) = "GET")) by done.
    cbn [Body]. rewrite Hb, (saveTasksToDB_calm T m p cs y Hnd).
    match goal with |- context [Relational.mkDB (Some ?t) None [] ?cs' y] =>
      destruct (loadTasksFromDB_calm t None cs' y) as [cs'' Hload] end.
    eexists _, _, _. split; [done|]. rewrite Hload. conj; [done | |].
    + by rewrite merge_sort_Permutation, rows_inserted_empty.
    + apply Sorted_merge_sort, _.
Qed.

(** The test collection, posted in the layout of the stored document. *)
Lemma post_then_get_witness :
  let b := RefJson.marshalIndent getTestTasks in
  (∃ w1 w2,
     FlatFile.apiTasksHandler (H := RefJson.codec) (mkRequest "POST" "" (Ok b))
       (FlatFile.mkWorld None [] [] 2025)
     = (mkResponse StatusOK (jsonMessage "message" "任務數據儲存成功"), w1)
     ∧ FlatFile.apiTasksHandler (H := RefJson.codec) (mkRequest "GET" "" (Ok "")) w1
       = (mkResponse StatusOK (RefJson.codec.(Encode) getTestTasks), w2))
  ∧ (∃ db1 db2 l,
       Relational.apiTasksHandler (H := RefJson.codec) (mkRequest "POST" "" (Ok b))
         (Relational.mkDB (Some ∅) None [] [] 2025)
       = (mkResponse StatusOK (jsonMessage "message" "任務數據儲存成功"), db1)
       ∧ Relational.apiTasksHandler (H := RefJson.codec) (mkRequest "GET" "" (Ok "")) db1
         = (mkResponse StatusOK (RefJson.codec.(Encode) l), db2)
       ∧ l ≡ₚ getTestTasks
       ∧ Sorted Relational.by_priority l).
Proof.
  intros b.
  destruct (post_then_get (H := RefJson.codec) b getTestTasks "" "" (Ok ""))
    as [Hfile Hdb]; [vm_compute; reflexivity|].
  split.
  - apply Hfile. eexists. split; [reflexivity|]. vm_compute. reflexivity.
  - apply Hdb. apply (bool_decide_unpack _). vm_compute. exact I.
Defined.

(** X10. Deleting twice: after a DELETE that removed the tasks of an id
    (no call failing, the remaining collection being one the document
    format represents faithfully), a second DELETE for the same id is
    answered with 404 and leaves the file as the first left it. *)
Theorem delete_twice `{JSON} (q : string) (id : Z) (body : result string)
    (f : option string) (sc : list FlatFile.syscall) (y : Z)
    (cur : list Task) (w1 : FlatFile.World) :
  Atoi q = Ok id →
  FlatFile.loadTasksFromFile (FlatFile.mkWorld f [] sc y) = (Ok cur, w1) →
  id ∈ ID <$> cur →
  json_stable (filter (λ t, ID t ≠ id) cur) →
  ∃ r1 w2 r2 w3,
    FlatFile.apiTasksHandler (mkRequest "DELETE" q body) (FlatFile.mkWorld f [] sc y)
    = (r1, w2)
    ∧ Status r1 = StatusOK
    ∧ FlatFile.apiTasksHandler (mkRequest "DELETE" q body) w2 = (r2, w3)
    ∧ Status r2 = StatusNotFound
    ∧ FlatFile.file w3 = FlatFile.file w2
    ∧ FlatFile.syscalls w3 = FlatFile.syscalls w2 ++ [FlatFile.SysReadFile].
Proof.
  intros Hq Hload Hin (d & Hd & Hu).
  rewrite (apiTasksHandler_DELETE q id body _ cur w1 Hq Hload).
  destruct (loadTasksFromFile_calm _ _ _ _ _ Hload) as (d1 & sc1 & -> & _).
  rewrite bool_decide_eq_true_2 by done.
  rewrite (saveTasksToFile_calm _ _ _ _ d Hd).
  eexists _, _. eexists _, _. split; [done|]. split; [done|].
  erewrite (apiTasksHandler_DELETE q id body _ (filter (λ t, ID t ≠ id) cur)); [|done|].
  2: { by rewrite loadTasksFromFile_present, Hu. }
  rewrite bool_decide_eq_false_2.
  - by conj.
  - intros (t & Hid & Ht)%list_elem_of_fmap.
    apply list_elem_of_filter in Ht as [Hne _]. by apply Hne.
Qed.

(** The task 101 of the test collection, deleted twice. *)
Lemma delete_twice_witness :
  let doc := RefJson.marshalIndent getTestTasks in
  ∃ r1 w2 r2 w3,
    FlatFile.apiTasksHandler (H := RefJson.codec) (mkRequest "DELETE" "101" (Ok ""))
      (FlatFile.mkWorld (Some doc) [] [] 2025) = (r1, w2)
    ∧ Status r1 = StatusOK
    ∧ FlatFile.apiTasksHandler (H := RefJson.codec) (mkRequest "DELETE" "101" (Ok "")) w2
      = (r2, w3)
    ∧ Status r2 = StatusNotFound
    ∧ FlatFile.file w3 = FlatFile.file w2
    ∧ FlatFile.syscalls w3 = FlatFile.syscalls w2 ++ [FlatFile.SysReadFile].
Proof.
  intros doc.
  apply (delete_twice (H := RefJson.codec) "101" 101 (Ok "") (Some doc) [] 2025
           getTestTasks (FlatFile.mkWorld (Some doc) [] [FlatFile.SysReadFile] 2025)).
  - reflexivity.
  - vm_compute. reflexivity.
  - apply (bool_decide_unpack _). vm_compute. exact I.
  - eexists. split; [reflexivity|]. vm_compute. reflexivity.
Defined.

(** * The relational variant under failures of the driver *)

Section RelationalFaults.
Import Relational.

(** Entering a call changes the log and the script only. *)
Lemma enter_frame c db :
  table (enter c db).2 = table db ∧ pending (enter c db).2 = pending db
  ∧ clock (enter c db).2 = clock db ∧ calls (enter c db).2 = calls db ++ [c].
Proof. by destruct db as [t p [|f fs] cs y]. Qed.

Lemma sql_Open_frame db :
  table (sql_Open db).2 = table db ∧ pending (sql_Open db).2 = pending db
  ∧ clock (sql_Open db).2 = clock db ∧ calls (sql_Open db).2 = calls db ++ [Open].
Proof.
  unfold sql_Open. pose proof (enter_frame Open db) as Hf.
  by destruct (enter Open db) as [[|] db1].
Qed.

Lemma db_Ping_frame db :
  table (db_Ping db).2 = table db ∧ pending (db_Ping db).2 = pending db
  ∧ clock (db_Ping db).2 = clock db ∧ calls (db_Ping db).2 = calls db ++ [Ping].
Proof.
  unfold db_Ping. pose proof (enter_frame Ping db) as Hf.
  by destruct (enter Ping db) as [[|] db1].
Qed.

(** [CREATE TABLE IF NOT EXISTS] leaves a table that exists as it is. *)
Lemma db_Exec_CREATE_spec db :
  let '(r, db') := db_Exec_CREATE db in
  pending db' = pending db ∧ clock db' = clock db
  ∧ calls db' = calls db ++ [ExecCreateTable]
  ∧ match r with
    | None => table db' = Some (default ∅ (table db))
    | Some _ => table db' = table db
    end.
Proof.
  unfold db_Exec_CREATE. pose proof (enter_frame ExecCreateTable db) as (Ht & Hp & Hy & Hc).
  destruct (enter ExecCreateTable db) as [[|] db1]; simpl in *; [done|].
  rewrite <- Ht. by destruct (table db1) eqn:Ht1; simpl; conj.
Qed.

Lemma db_QueryRow_COUNT_spec db :
  let '(r, db') := db_QueryRow_COUNT db in
  table db' = table db ∧ pending db' = pending db ∧ clock db' = clock db
  ∧ calls db' = calls db ++ [QueryRowCount]
  ∧ match r with
    | Ok count => ∃ m : Table, table db = Some m ∧ count = Z.of_nat (size m)
    | Err _ => True
    end.
Proof.
  unfold db_QueryRow_COUNT.
  pose proof (enter_frame QueryRowCount db) as (Ht & Hp & Hy & Hc).
  destruct (enter QueryRowCount db) as [[|] db1]; simpl in *; [done|].
  rewrite <- Ht. destruct (table db1) as [m|] eqn:Ht1; simpl; conj; try done. by exists m.
Qed.

(** What [initDB] does to the table, whatever the driver's failures: it
    seeds a table that is missing or empty, leaves one that has rows, and
    when it fails the table is as it was or has just been created empty.
    It begins a transaction only to seed. *)
Lemma initDB_table path db :
  let '(r, db') := initDB path db in
  clock db' = clock db
  ∧ match table db with
    | Some m =>
        if decide (m = ∅) then
          match r with
          | None => table db' = Some (inserted ∅ (getInitialTasks (clock db)))
          | Some _ => table db' = Some m
          end
        else
          table db' = Some m ∧ pending db' = pending db
          ∧ ∃ trace, calls db' = calls db ++ trace
                     ∧ trace `prefix_of` [Open; Ping; ExecCreateTable; QueryRowCount]
    | None =>
        match r with
        | None => table db' = Some (inserted ∅ (getInitialTasks (clock db)))
        | Some _ => table db' = None ∨ table db' = Some ∅
        end
    end.
Proof.
  unfold initDB.
  pose proof (sql_Open_frame db) as (Ht1 & Hp1 & Hy1 & Hc1).
  destruct (sql_Open db) as [[e|] db1]; simpl in *.
  { split; [done|]. rewrite Ht1. destruct (table db) as [m|]; [|by left].
    destruct (decide (m = ∅)); [done|]. conj; try done.
    exists [Open]. split; [done|]. by eexists. }
  pose proof (db_Ping_frame db1) as (Ht2 & Hp2 & Hy2 & Hc2).
  destruct (db_Ping db1) as [[e|] db2]; simpl in *.
  { split; [congruence|]. rewrite Ht2, Ht1. destruct (table db) as [m|]; [|by left].
    destruct (decide (m = ∅)); [done|]. conj; try congruence.
    exists [Open; Ping]. split; [by rewrite Hc2, Hc1, <- app_assoc|]. by eexists. }
  pose proof (db_Exec_CREATE_spec db2) as Hcreate.
  destruct (db_Exec_CREATE db2) as [[e|] db3]; simpl in *.
  { destruct Hcreate as (Hp3 & Hy3 & Hc3 & Ht3).
    split; [congruence|]. rewrite Ht3, Ht2, Ht1. destruct (table db) as [m|]; [|by left].
    destruct (decide (m = ∅)); [done|]. conj; try congruence.
    exists [Open; Ping; ExecCreateTable].
    split; [by rewrite Hc3, Hc2, Hc1, <- !app_assoc|]. by eexists. }
  destruct Hcreate as (Hp3 & Hy3 & Hc3 & Ht3). rewrite Ht2, Ht1 in Ht3.
  pose proof (db_QueryRow_COUNT_spec db3) as Hcount.
  destruct (db_QueryRow_COUNT db3) as [[count|e] db4]; simpl in *.
  2: { destruct Hcount as (Ht4 & Hp4 & Hy4 & Hc4 & _).
       split; [congruence|]. rewrite Ht4, Ht3. destruct (table db) as [m|]; simpl; [|by right].
       destruct (decide (m = ∅)); [done|]. conj; try congruence.
       exists [Open; Ping; ExecCreateTable; QueryRowCount].
       split; [by rewrite Hc4, Hc3, Hc2, Hc1, <- !app_assoc|]. done. }
  destruct Hcount as (Ht4 & Hp4 & Hy4 & Hc4 & m3 & Hm3 & ->).
  rewrite Ht3 in Hm3. injection Hm3 as <-.
  assert (clock db4 = clock db) as Hy by congruence.
  case_bool_decide as Hsize.
  - assert (default ∅ (table db) = (∅ : Table)) as Hempty.
    { apply map_size_empty_iff. lia. }
    pose proof (saveTasksToDB_spec (getInitialTasks (clock db4)) db4) as Hsave.
    destruct (saveTasksToDB (getInitialTasks (clock db4)) db4) as [[e|] db5];
      destruct Hsave as (Hy5 & trace & Hc5 & Hsave).
    + destruct Hsave as (Ht5 & _). split; [congruence|].
      rewrite Ht5, Ht4, Ht3, Hempty.
      destruct (table db) as [m|]; simpl in *; [|by right]. subst m.
      by rewrite decide_True.
    + destruct Hsave as (_ & _ & Ht5 & _). split; [congruence|]. rewrite Ht5, Hy.
      destruct (table db) as [m|]; simpl in *; [|done]. subst m.
      by rewrite decide_True.
  - split; [done|]. rewrite Ht4, Ht3.
    destruct (table db) as [m|]; simpl in *.
    + rewrite decide_False.
      * conj; try congruence.
        exists [Open; Ping; ExecCreateTable; QueryRowCount].
        split; [by rewrite Hc4, Hc3, Hc2, Hc1, <- !app_assoc|]. done.
      * intros ->. by rewrite map_size_empty in Hsize.
    + by rewrite map_size_empty in Hsize.
Qed.

(** When the driver fails no call, [initDB] seeds a table that is missing
    or empty. *)
Lemma initDB_calm_seeds path (t : option Table) p cs y :
  t = None ∨ t = Some ∅ →
  ∃ cs', initDB path (mkDB t p [] cs y)
         = (None, mkDB (Some (inserted ∅ (getInitialTasks y))) None [] cs' y).
Proof.
  intros Ht.
  assert (NoDup (ID <$> getInitialTasks y)) as Hnd.
  { apply (bool_decide_unpack _). vm_compute. exact I. }
  unfold initDB, sql_Open, db_Ping, db_Exec_CREATE, db_QueryRow_COUNT, enter, with_table.
  destruct Ht as [-> | ->]; cbn -[getInitialTasks saveTasksToDB];
    rewrite map_size_empty; cbn -[getInitialTasks saveTasksToDB];
    rewrite !(saveTasksToDB_calm _ ∅ _ _ _ Hnd); by eexists.
Qed.

(** The cursor loop and the load touch neither the table nor a pending
    transaction, and call the cursor only. *)
Lemma scanRows_frame rs : ∀ acc db,
  table (scanRows rs acc db).2 = table db
  ∧ pending (scanRows rs acc db).2 = pending db
  ∧ ∃ trace, calls (scanRows rs acc db).2 = calls db ++ trace
             ∧ Forall (λ c, c = RowsNext ∨ c = RowsScan) trace.
Proof.
  induction rs as [|t rs IH]; intros acc db; simpl;
    pose proof (enter_frame RowsNext db) as (Ht & Hp & _ & Hc);
    destruct (enter RowsNext db) as [f db1]; simpl in *.
  - conj; try done. exists [RowsNext]. split; [done|]. by repeat constructor.
  - destruct f.
    { conj; try done. exists [RowsNext]. split; [done|]. by repeat constructor. }
    pose proof (enter_frame RowsScan db1) as (Ht' & Hp' & _ & Hc').
    destruct (enter RowsScan db1) as [[|] db2]; simpl in *.
    { conj; try congruence. exists [RowsNext; RowsScan].
      split; [by rewrite Hc', Hc, <- app_assoc|].
      repeat (apply Forall_cons; split; [first [by left | by right]|]). done. }
    destruct (IH (acc ++ [t]) db2) as (Ht'' & Hp'' & trace & Hc'' & Htr).
    conj; try congruence. exists ([RowsNext; RowsScan] ++ trace).
    split; [by rewrite Hc'', Hc', Hc, <- !app_assoc|].
    simpl. repeat (apply Forall_cons; split; [first [by left | by right]|]). done.
Qed.

(** The loop when [rows.Next] fails after [k] rows, and when [rows.Scan]
    fails on the row after them. *)
Lemma scanRows_next_fails k : ∀ rs acc t p fs cs y,
  (k < length rs)%nat →
  (scanRows rs acc (mkDB t p (replicate (2 * k) false ++ true :: fs) cs y)).1
  = Ok (acc ++ take k rs).
Proof.
  induction k as [|k IH]; intros [|r rs] acc t p fs cs y Hk; simpl in Hk; try lia.
  - simpl. unfold enter. simpl. by rewrite app_nil_r.
  - replace (2 * S k)%nat with (S (S (2 * k))) by lia.
    cbn [replicate app scanRows]. unfold enter at 1 2. cbn.
    rewrite IH by lia. by rewrite <- app_assoc.
Qed.

Lemma scanRows_scan_fails k : ∀ rs acc t p fs cs y,
  (k < length rs)%nat →
  (scanRows rs acc (mkDB t p (replicate (2 * k + 1) false ++ true :: fs) cs y)).1
  = Err ("掃描資料行失敗: " +:+ ErrBadConn).
Proof.
  induction k as [|k IH]; intros [|r rs] acc t p fs cs y Hk; simpl in Hk; try lia.
  - reflexivity.
  - replace (2 * S k + 1)%nat with (S (S (2 * k + 1))) by lia.
    cbn [replicate app scanRows]. unfold enter at 1 2. cbn.
    by rewrite IH by lia.
Qed.

End RelationalFaults.

Section RelationalStart.
Import Relational.

Lemma http_ListenAndServe_frame db :
  table (http_ListenAndServe db).2 = table db.
Proof.
  unfold http_ListenAndServe. pose proof (enter_frame Listen db) as (Ht & _).
  by destruct (enter Listen db) as [[|] db1].
Qed.

(** The seeded table has rows, and they are the default tasks. *)
Lemma seeded_table y :
  inserted ∅ (getInitialTasks y) ≠ ∅
  ∧ rows (inserted ∅ (getInitialTasks y)) ≡ₚ getInitialTasks y.
Proof.
  split.
  - unfold inserted, getInitialTasks. cbn [foldl]. apply insert_non_empty.
  - apply rows_inserted_empty. apply (bool_decide_unpack _). vm_compute. exact I.
Qed.

(** A load changes neither the table nor a pending transaction, and calls
    the query and its cursor only. *)
Lemma loadTasksFromDB_frame db :
  table (loadTasksFromDB db).2 = table db
  ∧ pending (loadTasksFromDB db).2 = pending db
  ∧ ∃ trace, calls (loadTasksFromDB db).2 = calls db ++ trace
             ∧ Forall (λ c, c ∈ [QuerySelect; RowsNext; RowsScan; RowsClose]) trace.
Proof.
  unfold loadTasksFromDB, db_Query_SELECT.
  pose proof (enter_frame QuerySelect db) as (Ht & Hp & _ & Hc).
  assert (QuerySelect ∈ [QuerySelect; RowsNext; RowsScan; RowsClose]) as Hsel
    by (rewrite !elem_of_cons; auto).
  destruct (enter QuerySelect db) as [[|] db1]; simpl in *.
  { conj; try done. exists [QuerySelect]. split; [done|]. by repeat constructor. }
  destruct (table db1) as [m|] eqn:Hm; simpl.
  2: { conj; try congruence. exists [QuerySelect]. split; [done|]. by repeat constructor. }
  destruct (scanRows_frame (merge_sort by_priority (map_to_list m).*2) [] db1)
    as (Ht' & Hp' & trace & Hc' & Htr).
  destruct (scanRows _ [] db1) as [r db2]; simpl in *.
  unfold rows_Close. destruct (enter_frame RowsClose db2) as (Ht'' & Hp'' & _ & Hc'').
  conj; try congruence.
  exists ([QuerySelect] ++ trace ++ [RowsClose]).
  split; [by rewrite Hc'', Hc', Hc, <- !app_assoc|].
  apply Forall_app. split; [by repeat constructor|]. apply Forall_app. split.
  - eapply Forall_impl; [done|]. intros c [-> | ->]; rewrite !elem_of_cons; auto.
  - by repeat constructor.
Qed.

End RelationalStart.

(** X11. A start never touches a table that has rows: whatever the
    driver's failures, [initDB] leaves the table and a pending transaction
    as they were and makes no call beyond Open, Ping, CREATE TABLE IF NOT
    EXISTS and SELECT COUNT, in this order; so does [main], which ends or
    serves with the table as it found it. *)
Theorem restart_keeps_rows (path : string) (db : Relational.DB) (m : gmap Z Task) :
  Relational.table db = Some m →
  m ≠ ∅ →
  (Relational.table (Relational.initDB path db).2 = Some m
   ∧ Relational.pending (Relational.initDB path db).2 = Relational.pending db
   ∧ ∃ trace,
       Relational.calls (Relational.initDB path db).2 = Relational.calls db ++ trace
       ∧ trace `prefix_of` [Relational.Open; Relational.Ping;
                            Relational.ExecCreateTable; Relational.QueryRowCount])
  ∧ match Relational.main db with
    | Serving db' | Exited _ _ db' => Relational.table db' = Some m
    end.
Proof.
  intros Hm Hne.
  assert (Relational.table (Relational.initDB path db).2 = Some m
          ∧ Relational.pending (Relational.initDB path db).2 = Relational.pending db
          ∧ ∃ trace,
              Relational.calls (Relational.initDB path db).2 = Relational.calls db ++ trace
              ∧ trace `prefix_of` [Relational.Open; Relational.Ping;
                                   Relational.ExecCreateTable; Relational.QueryRowCount])
    as Hinit.
  { pose proof (initDB_table path db) as Hspec.
    destruct (Relational.initDB path db) as [r db1]. rewrite Hm in Hspec.
    rewrite decide_False in Hspec by done. by destruct Hspec as [_ Hspec]. }
  split; [done|].
  unfold Relational.main.
  pose proof (initDB_table "./gantt.db" db) as Hspec.
  destruct (Relational.initDB "./gantt.db" db) as [[e|] db1]; rewrite Hm in Hspec;
    rewrite decide_False in Hspec by done; destruct Hspec as (_ & Ht & _); [done|].
  pose proof (http_ListenAndServe_frame db1) as Hl.
  destruct (Relational.http_ListenAndServe db1) as [[e|] db2]; simpl in *; congruence.
Qed.

(** A table with the two test tasks, the driver failing the fourth call. *)
Lemma restart_keeps_rows_witness :
  let m : gmap Z Task := Relational.inserted ∅ getTestTasks in
  let db := Relational.mkDB (Some m) None [false; false; false; true] [] 2025 in
  (Relational.table (Relational.initDB "./gantt.db" db).2 = Some m
   ∧ Relational.pending (Relational.initDB "./gantt.db" db).2 = Relational.pending db
   ∧ ∃ trace,
       Relational.calls (Relational.initDB "./gantt.db" db).2 = Relational.calls db ++ trace
       ∧ trace `prefix_of` [Relational.Open; Relational.Ping;
                            Relational.ExecCreateTable; Relational.QueryRowCount])
  ∧ match Relational.main db with
    | Serving db' | Exited _ _ db' => Relational.table db' = Some m
    end.
Proof.
  intros m db. apply (restart_keeps_rows "./gantt.db" db m).
  - reflexivity.
  - apply insert_non_empty.
Defined.

(** X12. When the relational server serves, the table exists and has
    rows: under every pattern of failures of the driver, if [main] reaches
    [http.ListenAndServe] and it binds the port, then the table holds
    either the rows it held at the start or, when it was missing or empty,
    the five default tasks. *)
Theorem served_table_nonempty (db db' : Relational.DB) :
  Relational.main db = Serving db' →
  ∃ m, Relational.table db' = Some m
       ∧ m ≠ ∅
       ∧ (Relational.table db = Some m
          ∨ (Relational.table db = None ∨ Relational.table db = Some ∅)
            ∧ Relational.rows m ≡ₚ getInitialTasks (Relational.clock db)).
Proof.
  unfold Relational.main. pose proof (initDB_table "./gantt.db" db) as Hspec.
  destruct (Relational.initDB "./gantt.db" db) as [[e|] db1]; [done|].
  pose proof (http_ListenAndServe_frame db1) as Hl.
  destruct (Relational.http_ListenAndServe db1) as [[e|] db2]; [done|].
  intros [= <-]. simpl in Hl. rewrite Hl. destruct Hspec as [_ Hspec].
  destruct (seeded_table (Relational.clock db)) as [Hne Hrows].
  destruct (Relational.table db) as [m|].
  - destruct (decide (m = ∅)) as [-> | Hm].
    + eexists. conj; [done | done |]. right. split; [by right | done].
    + destruct Hspec as (Ht & _). exists m. conj; [done | done | by left].
  - eexists. conj; [done | done |]. right. split; [by left | done].
Qed.

(** A first start on a database without the table, no call failing. *)
Lemma served_table_nonempty_witness :
  let db := Relational.mkDB None None [] [] 2025 in
  ∃ db', Relational.main db = Serving db'
    ∧ ∃ m, Relational.table db' = Some m
         ∧ m ≠ ∅
         ∧ (Relational.table db = Some m
            ∨ (Relational.table db = None ∨ Relational.table db = Some ∅)
              ∧ Relational.rows m ≡ₚ getInitialTasks (Relational.clock db)).
Proof.
  intros db. eexists. split; [vm_compute; reflexivity|].
  apply (served_table_nonempty db). vm_compute. reflexivity.
Defined.

(** X13. An emptied store and the next start.  A POST of the empty
    collection is answered 200 in both variants (no call failing).  The
    flat-file variant keeps it: the next [main] only reads the file and a
    GET answers the empty collection.  The relational variant does not: the
    table is left without rows, so the next [main] seeds the five default
    tasks and a GET lists them. *)
Theorem emptied_store_on_restart `{JSON} (b q q' : string) (body' : result string) :
  Unmarshal b = Ok [] →
  (json_stable [] →
   ∀ f sc y, ∃ w1 w2 w3,
     FlatFile.apiTasksHandler (mkRequest "POST" q (Ok b)) (FlatFile.mkWorld f [] sc y)
     = (mkResponse StatusOK (jsonMessage "message" "任務數據儲存成功"), w1)
     ∧ FlatFile.main w1 = Serving w2
     ∧ FlatFile.file w2 = FlatFile.file w1
     ∧ FlatFile.apiTasksHandler (mkRequest "GET" q' body') w2
       = (mkResponse StatusOK (Encode []), w3))
  ∧ (∀ (m : gmap Z Task) p cs y, ∃ db1 db2 db3 l,
       Relational.apiTasksHandler (mkRequest "POST" q (Ok b))
         (Relational.mkDB (Some m) p [] cs y)
       = (mkResponse StatusOK (jsonMessage "message" "任務數據儲存成功"), db1)
       ∧ Relational.table db1 = Some ∅
       ∧ Relational.main db1 = Serving db2
       ∧ Relational.apiTasksHandler (mkRequest "GET" q' body') db2
         = (mkResponse StatusOK (Encode l), db3)
       ∧ l ≡ₚ getInitialTasks y).
Proof.
  intros Hb. split.
  - intros (d & Hd & Hu) f sc y. unfold FlatFile.apiTasksHandler.
    rewrite (bool_decide_eq_false_2 (Method (mkRequest "POST" _ _) = "GET")) by done.
    rewrite (bool_decide_eq_true_2 (Method (mkRequest "POST" _ _) = "POST")) by done.
    rewrite (bool_decide_eq_true_2 (Method (mkRequest "GET" _ _) = "GET")) by done.
    cbn [Body]. rewrite Hb, (saveTasksToFile_calm _ _ _ _ d Hd).
    eexists _, _, _. split; [done|].
    unfold FlatFile.main.
    rewrite (loadTasksFromFile_present d (sc ++ [FlatFile.SysWriteFile d]) y).
    unfold FlatFile.http_ListenAndServe, FlatFile.enter.
    cbn [FlatFile.file FlatFile.syscalls FlatFile.clock FlatFile.faults].
    split; [reflexivity|]. split; [reflexivity|].
    by rewrite loadTasksFromFile_present, Hu.
  - intros m p cs y. unfold Relational.apiTasksHandler.
    rewrite (bool_decide_eq_false_2 (Method (mkRequest "POST" _ _) = "GET")) by done.
    rewrite (bool_decide_eq_true_2 (Method (mkRequest "POST" _ _) = "POST")) by done.
    rewrite (bool_decide_eq_true_2 (Method (mkRequest "GET" _ _) = "GET")) by done.
    cbn [Body]. rewrite Hb, (saveTasksToDB_calm [] m p cs y) by constructor.
    cbn [Relational.inserted foldl].
    match goal with |- context [Relational.mkDB _ _ _ ?cs' y] =>
      destruct (initDB_calm_seeds "./gantt.db" (Some ∅) None cs' y) as [cs1 Hinit];
        [by right|] end.
    destruct (loadTasksFromDB_calm (Relational.inserted ∅ (getInitialTasks y)) None
                (cs1 ++ [Relational.Listen]) y) as [cs2 Hload].
    eexists _, _, _, _. split; [reflexivity|]. split; [reflexivity|].
    unfold Relational.main. rewrite Hinit.
    unfold Relational.http_ListenAndServe, Relational.enter.
    cbn [Relational.faults Relational.table Relational.pending Relational.calls
         Relational.clock].
    split; [reflexivity|]. rewrite Hload. split; [reflexivity|].
    rewrite merge_sort_Permutation. apply seeded_table.
Qed.

(** The body [[]], on a file and on a table that hold the test tasks. *)
Lemma emptied_store_on_restart_witness :
  (∃ w1 w2 w3,
     FlatFile.apiTasksHandler (H := RefJson.codec) (mkRequest "POST" "" (Ok "[]"))
       (FlatFile.mkWorld (Some (RefJson.marshalIndent getTestTasks)) [] [] 2025)
     = (mkResponse StatusOK (jsonMessage "message" "任務數據儲存成功"), w1)
     ∧ FlatFile.main (H := RefJson.codec) w1 = Serving w2
     ∧ FlatFile.file w2 = FlatFile.file w1
     ∧ FlatFile.apiTasksHandler (H := RefJson.codec) (mkRequest "GET" "" (Ok "")) w2
       = (mkResponse StatusOK (RefJson.codec.(Encode) []), w3))
  ∧ (∃ db1 db2 db3 l,
       Relational.apiTasksHandler (H := RefJson.codec) (mkRequest "POST" "" (Ok "[]"))
         (Relational.mkDB (Some (Relational.inserted ∅ getTestTasks)) None [] [] 2025)
       = (mkResponse StatusOK (jsonMessage "message" "任務數據儲存成功"), db1)
       ∧ Relational.table db1 = Some ∅
       ∧ Relational.main db1 = Serving db2
       ∧ Relational.apiTasksHandler (H := RefJson.codec) (mkRequest "GET" "" (Ok "")) db2
         = (mkResponse StatusOK (RefJson.codec.(Encode) l), db3)
       ∧ l ≡ₚ getInitialTasks 2025).
Proof.
  destruct (emptied_store_on_restart (H := RefJson.codec) "[]" "" "" (Ok ""))
    as [Hfile Hdb]; [vm_compute; reflexivity|].
  split.
  - apply Hfile. eexists. split; [reflexivity|]. vm_compute. reflexivity.
  - apply Hdb.
Defined.

(** X14. [loadTasksFromDB] does not consult [rows.Err()]: when the driver
    fails [rows.Next] after [k] rows of a table that has more, the load
    returns no error and the first [k] rows of the query's result, which is
    the rows of the table arranged in ascending order of priority, and the
    GET is answered 200 with this shortened list.  A failure of [rows.Scan]
    on the row after them is reported: the load returns an error and the GET
    is answered 500. *)
Theorem failed_next_is_silent `{JSON} (m : gmap Z Task) (k : nat)
    (p : option (option (gmap Z Task))) (fs : list bool)
    (cs : list Relational.call) (y : Z) (q : string) (body : result string) :
  (k < size m)%nat →
  let next_fails :=
    Relational.mkDB (Some m) p (replicate (1 + 2 * k) false ++ true :: fs) cs y in
  let scan_fails :=
    Relational.mkDB (Some m) p (replicate (2 + 2 * k) false ++ true :: fs) cs y in
  ∃ sorted,
    sorted ≡ₚ Relational.rows m
    ∧ Sorted Relational.by_priority sorted
    ∧ (Relational.loadTasksFromDB next_fails).1 = Ok (take k sorted)
    ∧ length (take k sorted) = k
    ∧ (Relational.apiTasksHandler (mkRequest "GET" q body) next_fails).1
      = mkResponse StatusOK (Encode (take k sorted))
    ∧ (Relational.loadTasksFromDB scan_fails).1
      = Err ("掃描資料行失敗: " +:+ Relational.ErrBadConn)
    ∧ Status (Relational.apiTasksHandler (mkRequest "GET" q body) scan_fails).1
      = StatusInternalServerError.
Proof.
  intros Hk next_fails scan_fails.
  set (sorted := merge_sort Relational.by_priority (Relational.rows m)).
  assert (sorted ≡ₚ Relational.rows m) as Hperm by apply merge_sort_Permutation.
  assert (length sorted = size m) as Hlen.
  { rewrite Hperm. unfold Relational.rows.
    by rewrite length_fmap, length_map_to_list. }
  assert ((Relational.loadTasksFromDB next_fails).1 = Ok (take k sorted)) as Hnext.
  { unfold Relational.loadTasksFromDB, Relational.db_Query_SELECT, next_fails.
    cbn [replicate Nat.add app]. unfold Relational.enter at 1.
    cbn [Relational.faults Relational.table Relational.pending Relational.calls
         Relational.clock].
    fold (Relational.rows m). fold sorted.
    pose proof (scanRows_next_fails k sorted [] (Some m) p fs
                  (cs ++ [Relational.QuerySelect]) y) as Hscan.
    destruct (Relational.scanRows sorted [] _) as [r db2]. simpl in *.
    apply Hscan. lia. }
  assert ((Relational.loadTasksFromDB scan_fails).1
          = Err ("掃描資料行失敗: " +:+ Relational.ErrBadConn)) as Hscanf.
  { unfold Relational.loadTasksFromDB, Relational.db_Query_SELECT, scan_fails.
    replace (2 + 2 * k)%nat with (S (2 * k + 1)) by lia.
    cbn [replicate app]. unfold Relational.enter at 1.
    cbn [Relational.faults Relational.table Relational.pending Relational.calls
         Relational.clock].
    fold (Relational.rows m). fold sorted.
    pose proof (scanRows_scan_fails k sorted [] (Some m) p fs
                  (cs ++ [Relational.QuerySelect]) y) as Hscan.
    destruct (Relational.scanRows sorted [] _) as [r db2]. simpl in *.
    apply Hscan. lia. }
  exists sorted. conj.
  - done.
  - apply Sorted_merge_sort, _.
  - done.
  - rewrite length_take. lia.
  - unfold Relational.apiTasksHandler.
    rewrite (bool_decide_eq_true_2 (Method (mkRequest "GET" _ _) = "GET")) by done.
    destruct (Relational.loadTasksFromDB next_fails) as [r db']. simpl in Hnext.
    by subst r.
  - done.
  - unfold Relational.apiTasksHandler.
    rewrite (bool_decide_eq_true_2 (Method (mkRequest "GET" _ _) = "GET")) by done.
    destruct (Relational.loadTasksFromDB scan_fails) as [r db']. simpl in Hscanf.
    by subst r.
Qed.

(** The two test tasks in the table, the cursor failing after the first
    row. *)
Lemma failed_next_is_silent_witness :
  let m : gmap Z Task := Relational.inserted ∅ getTestTasks in
  let next_fails :=
    Relational.mkDB (Some m) None (replicate (1 + 2 * 1) false ++ [true]) [] 2025 in
  let scan_fails :=
    Relational.mkDB (Some m) None (replicate (2 + 2 * 1) false ++ [true]) [] 2025 in
  ∃ sorted,
    sorted ≡ₚ Relational.rows m
    ∧ Sorted Relational.by_priority sorted
    ∧ (Relational.loadTasksFromDB next_fails).1 = Ok (take 1 sorted)
    ∧ length (take 1 sorted) = 1%nat
    ∧ (Relational.apiTasksHandler (H := RefJson.codec) (mkRequest "GET" "" (Ok ""))
         next_fails).1
      = mkResponse StatusOK (RefJson.codec.(Encode) (take 1 sorted))
    ∧ (Relational.loadTasksFromDB scan_fails).1
      = Err ("掃描資料行失敗: " +:+ Relational.ErrBadConn)
    ∧ Status (Relational.apiTasksHandler (H := RefJson.codec) (mkRequest "GET" "" (Ok ""))
                scan_fails).1
      = StatusInternalServerError.
Proof.
  intros m.
  apply (failed_next_is_silent (H := RefJson.codec) m 1 None [] [] 2025 "" (Ok "")).
  vm_compute. lia.
Defined.

(** X15. A GET never changes the database: under every pattern of
    failures of the driver, the relational load and the GET branch leave the
    table and a pending transaction as they were, and call nothing but the
    SELECT and its cursor (Next, Scan, Close). *)
Theorem get_reads_only `{JSON} (db : Relational.DB) (q : string) (body : result string) :
  Relational.table (Relational.apiTasksHandler (mkRequest "GET" q body) db).2
  = Relational.table db
  ∧ Relational.pending (Relational.apiTasksHandler (mkRequest "GET" q body) db).2
    = Relational.pending db
  ∧ ∃ trace,
      Relational.calls (Relational.apiTasksHandler (mkRequest "GET" q body) db).2
      = Relational.calls db ++ trace
      ∧ Forall (λ c, c ∈ [Relational.QuerySelect; Relational.RowsNext;
                          Relational.RowsScan; Relational.RowsClose]) trace.
Proof.
  unfold Relational.apiTasksHandler.
  rewrite (bool_decide_eq_true_2 (Method (mkRequest "GET" _ _) = "GET")) by done.
  pose proof (loadTasksFromDB_frame db) as Hframe.
  by destruct (Relational.loadTasksFromDB db) as [[l|e] db'].
Qed.

(** * Decimal numbers: [strconv.Atoi] reads what [%d] prints *)

Section Strconv.

Lemma digits_cons c s acc k :
  digit c = Some k → digits (String c s) acc = digits s (10 * acc + k).
Proof. intros Hk. simpl. by rewrite Hk. Qed.

Lemma digits_of_uint_acc d : ∀ p,
  digits (NilEmpty.string_of_uint d) (Z.pos p) = Some (Z.pos (Pos.of_uint_acc d p)).
Proof.
  induction d as [|d IH|d IH|d IH|d IH|d IH|d IH|d IH|d IH|d IH|d IH]; intros p;
    cbn [NilEmpty.string_of_uint Pos.of_uint_acc]; [done|..];
    (erewrite digits_cons by reflexivity); rewrite <- IH; f_equal;
    match goal with
    | |- context [Z.of_nat (nat_of_ascii ?c) - 48] =>
        let v := eval vm_compute in (Z.of_nat (nat_of_ascii c) - 48) in
        change (Z.of_nat (nat_of_ascii c) - 48) with v
    end; lia.
Qed.

Lemma digits_of_uint d :
  digits (NilEmpty.string_of_uint d) 0 = Some (Z.of_N (Pos.of_uint d)).
Proof.
  induction d as [|d IH|d IH|d IH|d IH|d IH|d IH|d IH|d IH|d IH|d IH];
    cbn [NilEmpty.string_of_uint Pos.of_uint]; [done|..];
    (erewrite digits_cons by reflexivity);
    first [ exact IH
          | match goal with
            | |- _ = Some (Z.of_N (N.pos (Pos.of_uint_acc _ ?k))) =>
                exact (digits_of_uint_acc d k)
            end ].
Qed.

(** A string that begins with a digit and reads as [n] in decimal. *)
Lemma Atoi_unsigned c rest k n :
  digit c = Some k →
  digits (String c rest) 0 = Some n →
  minInt ≤ n ≤ maxInt →
  Atoi (String c rest) = Ok n.
Proof.
  intros Hc Hd Hn. unfold Atoi.
  assert (c ≠ "-"%char ∧ c ≠ "+"%char) as [Hm Hp] by (split; by intros ->).
  assert ((match String c rest with
           | String "-"%char r => (true, r)
           | String "+"%char r => (false, r)
           | _ => (false, String c rest)
           end) = (false, String c rest)) as ->.
  { destruct c as [[] [] [] [] [] [] [] []]; done. }
  cbv beta iota zeta. rewrite Hd.
  rewrite (proj2 (Z.leb_le _ _)), (proj2 (Z.leb_le _ _)) by lia. done.
Qed.

Lemma Atoi_signed c rest k n :
  digit c = Some k →
  digits (String c rest) 0 = Some n →
  minInt ≤ - n ≤ maxInt →
  Atoi (String "-" (String c rest)) = Ok (- n).
Proof.
  intros Hc Hd Hn. unfold Atoi. cbv beta iota zeta. rewrite Hd.
  rewrite (proj2 (Z.leb_le _ _)), (proj2 (Z.leb_le _ _)) by lia. done.
Qed.

(** The decimal form of a positive number begins with a digit and reads
    back as the number. *)
Lemma string_of_uint_pos p :
  ∃ c rest k,
    NilZero.string_of_uint (Pos.to_uint p) = String c rest
    ∧ digit c = Some k
    ∧ digits (String c rest) 0 = Some (Z.pos p).
Proof.
  pose proof (digits_of_uint (Pos.to_uint p)) as Hd.
  rewrite DecimalPos.Unsigned.of_to in Hd.
  pose proof (DecimalPos.Unsigned.to_uint_nonnil p) as Hnil.
  destruct (Pos.to_uint p) as [|d|d|d|d|d|d|d|d|d|d]; [done|..];
    cbn [NilZero.string_of_uint NilEmpty.string_of_uint] in *;
    eexists _, _, _; (split; [reflexivity|]); (split; [reflexivity|]); exact Hd.
Qed.

(** [strconv.Atoi] reads the decimal form of every [int] back. *)
Lemma Atoi_Itoa z : minInt ≤ z ≤ maxInt → Atoi (Itoa z) = Ok z.
Proof.
  intros Hz. destruct z as [|p|p].
  - reflexivity.
  - unfold Itoa. cbn [Z.to_int NilZero.string_of_int].
    destruct (string_of_uint_pos p) as (c & rest & k & -> & Hc & Hd).
    by apply (Atoi_unsigned c rest k).
  - unfold Itoa. cbn [Z.to_int NilZero.string_of_int].
    destruct (string_of_uint_pos p) as (c & rest & k & -> & Hc & Hd).
    by apply (Atoi_signed c rest k (Z.pos p)).
Qed.

(** What [strconv.Atoi] accepts is in the range of [int]. *)
Lemma Atoi_range s z : Atoi s = Ok z → minInt ≤ z ≤ maxInt.
Proof.
  unfold Atoi.
  destruct (match s with
            | String "-"%char r => (true, r)
            | String "+"%char r => (false, r)
            | _ => (false, s)
            end) as [neg body].
  destruct body as [|c rest]; [done|].
  destruct (digits (String c rest) 0) as [n|]; [|done].
  destruct ((minInt <=? (if neg then - n else n)) && ((if neg then - n else n) <=? maxInt))
    eqn:Hr; [|done].
  intros [= <-]. apply andb_true_iff in Hr as [H1 H2]. lia.
Qed.

End Strconv.

(** X16. Replacing the collection in the flat file is not atomic.  When
    the write of [os.WriteFile] stops after [n] bytes, [saveTasksToFile]
    returns an error and a POST is answered 500, yet what the file held
    before is gone: the file holds the first [n] bytes of the new document,
    and a later load returns what parsing this prefix gives.  (The
    relational variant leaves the table as it was on every failure.) *)
Theorem failed_write_truncates `{JSON} (b : string) (T : list Task) (d q : string)
    (n : nat) (f : option string) (fs : list FlatFile.io)
    (sc : list FlatFile.syscall) (y : Z) :
  Unmarshal b = Ok T →
  MarshalIndent T = Ok d →
  let w := FlatFile.mkWorld f (FlatFile.io_fail (Some n) :: fs) sc y in
  let w' :=
    FlatFile.mkWorld (Some (String.substring 0 n d)) fs
      (sc ++ [FlatFile.SysWriteFile d]) y in
  FlatFile.saveTasksToFile T w = (Some ("寫入檔案失敗: " +:+ FlatFile.EIO), w')
  ∧ FlatFile.apiTasksHandler (mkRequest "POST" q (Ok b)) w
    = (http_Error
         (jsonMessage "error" ("寫入任務數據失敗: " +:+ ("寫入檔案失敗: " +:+ FlatFile.EIO)))
         StatusInternalServerError, w')
  ∧ ∀ sc',
      (FlatFile.loadTasksFromFile (FlatFile.mkWorld (FlatFile.file w') [] sc' y)).1
      = match Unmarshal (String.substring 0 n d) with
        | Ok tasks => Ok tasks
        | Err e => Err ("解析 JSON 失敗: " +:+ e)
        end.
Proof.
  intros Hb Hd w w'.
  assert (FlatFile.saveTasksToFile T w = (Some ("寫入檔案失敗: " +:+ FlatFile.EIO), w'))
    as Hsave.
  { unfold FlatFile.saveTasksToFile. by rewrite Hd. }
  conj.
  - done.
  - unfold FlatFile.apiTasksHandler.
    rewrite (bool_decide_eq_false_2 (Method (mkRequest "POST" _ _) = "GET")) by done.
    rewrite (bool_decide_eq_true_2 (Method (mkRequest "POST" _ _) = "POST")) by done.
    cbn [Body]. by rewrite Hb, Hsave.
  - intros sc'. unfold w'. cbn [FlatFile.file].
    by rewrite loadTasksFromFile_present.
Qed.

(** The file holds the default collection; the write of the test
    collection stops before its first byte. *)
Lemma failed_write_truncates_witness :
  let b := RefJson.marshalIndent getTestTasks in
  let w :=
    FlatFile.mkWorld (Some (RefJson.marshalIndent (getInitialTasks 2025)))
      [FlatFile.io_fail (Some 0%nat)] [] 2025 in
  let w' := FlatFile.mkWorld (Some (String.substring 0 0 b)) [] [FlatFile.SysWriteFile b] 2025 in
  FlatFile.saveTasksToFile (H := RefJson.codec) getTestTasks w
  = (Some ("寫入檔案失敗: " +:+ FlatFile.EIO), w')
  ∧ FlatFile.apiTasksHandler (H := RefJson.codec) (mkRequest "POST" "" (Ok b)) w
    = (http_Error
         (jsonMessage "error" ("寫入任務數據失敗: " +:+ ("寫入檔案失敗: " +:+ FlatFile.EIO)))
         StatusInternalServerError, w')
  ∧ ∀ sc',
      (FlatFile.loadTasksFromFile (H := RefJson.codec)
         (FlatFile.mkWorld (FlatFile.file w') [] sc' 2025)).1
      = match RefJson.codec.(Unmarshal) (String.substring 0 0 b) with
        | Ok tasks => Ok tasks
        | Err e => Err ("解析 JSON 失敗: " +:+ e)
        end.
Proof.
  intros b.
  apply (failed_write_truncates (H := RefJson.codec) b getTestTasks b "" 0
           (Some (RefJson.marshalIndent (getInitialTasks 2025))) [] [] 2025).
  - vm_compute. reflexivity.
  - reflexivity.
Defined.

(** X17. A GET on a store that has never been set up.  The flat-file
    variant sets it up while answering: with the file absent and no call
    failing (the default collection serializing), the GET writes the
    default collection to the file and answers 200 with it.  The relational
    variant does not: without the table the GET is answered 500, and the
    table is still missing afterwards. *)
Theorem get_on_fresh_store `{JSON} (q : string) (body : result string) (y : Z)
    (d : string) :
  MarshalIndent (getInitialTasks y) = Ok d →
  (∀ sc,
     FlatFile.apiTasksHandler (mkRequest "GET" q body) (FlatFile.mkWorld None [] sc y)
     = (mkResponse StatusOK (Encode (getInitialTasks y)),
        FlatFile.mkWorld (Some d) []
          (sc ++ [FlatFile.SysReadFile; FlatFile.SysWriteFile d]) y))
  ∧ (∀ p cs,
       Relational.apiTasksHandler (mkRequest "GET" q body)
         (Relational.mkDB None p [] cs y)
       = (http_Error
            (jsonMessage "error"
               ("讀取任務數據失敗: " +:+ ("查詢資料庫失敗: " +:+ Relational.ErrNoTable)))
            StatusInternalServerError,
          Relational.mkDB None p [] (cs ++ [Relational.QuerySelect]) y)).
Proof.
  intros Hd. split.
  - intros sc. unfold FlatFile.apiTasksHandler.
    rewrite (bool_decide_eq_true_2 (Method (mkRequest "GET" _ _) = "GET")) by done.
    by rewrite (loadTasksFromFile_absent sc y d Hd).
  - intros p cs. unfold Relational.apiTasksHandler.
    rewrite (bool_decide_eq_true_2 (Method (mkRequest "GET" _ _) = "GET")) by done.
    by rewrite loadTasksFromDB_no_table.
Qed.

Lemma get_on_fresh_store_witness :
  let d := RefJson.marshalIndent (getInitialTasks 2025) in
  (∀ sc,
     FlatFile.apiTasksHandler (H := RefJson.codec) (mkRequest "GET" "" (Ok ""))
       (FlatFile.mkWorld None [] sc 2025)
     = (mkResponse StatusOK (RefJson.codec.(Encode) (getInitialTasks 2025)),
        FlatFile.mkWorld (Some d) []
          (sc ++ [FlatFile.SysReadFile; FlatFile.SysWriteFile d]) 2025))
  ∧ (∀ p cs,
       Relational.apiTasksHandler (H := RefJson.codec) (mkRequest "GET" "" (Ok ""))
         (Relational.mkDB None p [] cs 2025)
       = (http_Error
            (jsonMessage "error"
               ("讀取任務數據失敗: " +:+ ("查詢資料庫失敗: " +:+ Relational.ErrNoTable)))
            StatusInternalServerError,
          Relational.mkDB None p [] (cs ++ [Relational.QuerySelect]) 2025)).
Proof.
  intros d.
  apply (get_on_fresh_store (H := RefJson.codec) "" (Ok "") 2025 d). reflexivity.
Defined.

(** X18. The answer to a DELETE tells what happened, under every pattern
    of failures.  Either it is 400, the id parameter is empty or is not
    accepted by [strconv.Atoi], and nothing was done; or the id was parsed
    (and the id printed in the answer reads back as this id) and: the load
    failed (500); or the loaded collection has no task with the id, the
    answer is the 404 message and nothing was saved; or it has one, and
    then the answer is the 200 message and the file holds the serialization
    of the collection without the tasks of this id, written in one call, or
    the save failed (500). *)
Theorem delete_answer_tells_outcome `{JSON} (q : string) (body : result string)
    (w : FlatFile.World) :
  let resp := (FlatFile.apiTasksHandler (mkRequest "DELETE" q body) w).1 in
  let w' := (FlatFile.apiTasksHandler (mkRequest "DELETE" q body) w).2 in
  (Status resp = StatusBadRequest ∧ w' = w ∧ (q = "" ∨ ∃ e, Atoi q = Err e))
  ∨ ∃ id,
      Atoi q = Ok id
      ∧ Atoi (Itoa id) = Ok id
      ∧ ((Status resp = StatusInternalServerError
          ∧ ∃ e, FlatFile.loadTasksFromFile w = (Err e, w'))
         ∨ ∃ cur w1,
             FlatFile.loadTasksFromFile w = (Ok cur, w1)
             ∧ ((resp = http_Error
                          (jsonMessage "error"
                             ("Task with ID " +:+ Itoa id +:+ " not found"))
                          StatusNotFound
                 ∧ (id ∉ ID <$> cur)
                 ∧ w' = w1)
                ∨ (id ∈ ID <$> cur
                   ∧ ((resp = mkResponse StatusOK
                                (jsonMessage "message"
                                   ("Task ID " +:+ Itoa id +:+ " deleted successfully"))
                       ∧ ∃ d, MarshalIndent (filter (λ t, ID t ≠ id) cur) = Ok d
                              ∧ FlatFile.file w' = Some d
                              ∧ FlatFile.syscalls w'
                                = FlatFile.syscalls w1 ++ [FlatFile.SysWriteFile d])
                      ∨ (Status resp = StatusInternalServerError
                         ∧ ∃ e, FlatFile.saveTasksToFile
                                  (filter (λ t, ID t ≠ id) cur) w1 = (Some e, w')))))).
Proof.
  intros resp w'. subst resp w'.
  destruct (decide (q = "")) as [-> | Hne].
  { left. unfold FlatFile.apiTasksHandler.
    rewrite (bool_decide_eq_false_2 (Method _ = "GET")) by done.
    rewrite (bool_decide_eq_false_2 (Method _ = "POST")) by done.
    rewrite (bool_decide_eq_true_2 (Method _ = "DELETE")) by done.
    cbn [QueryID]. rewrite (bool_decide_eq_true_2 ("" = "")) by done. simpl. auto. }
  destruct (Atoi q) as [id|e] eqn:Hq.
  2: { left. unfold FlatFile.apiTasksHandler.
       rewrite (bool_decide_eq_false_2 (Method _ = "GET")) by done.
       rewrite (bool_decide_eq_false_2 (Method _ = "POST")) by done.
       rewrite (bool_decide_eq_true_2 (Method _ = "DELETE")) by done.
       cbn [QueryID]. rewrite (bool_decide_eq_false_2 (q = "")) by done.
       rewrite Hq. simpl. eauto. }
  right. exists id. split; [done|]. split; [by apply Atoi_Itoa, (Atoi_range q)|].
  destruct (FlatFile.loadTasksFromFile w) as [[cur|e] w1] eqn:Hload.
  - right. exists cur, w1. split; [done|].
    rewrite (apiTasksHandler_DELETE q id body w cur w1 Hq Hload).
    destruct (decide (id ∈ ID <$> cur)) as [Hin|Hout].
    + right. split; [done|]. rewrite bool_decide_eq_true_2 by done.
      destruct (FlatFile.saveTasksToFile _ w1) as [[e|] w2] eqn:Hsave; simpl.
      * right. split; [done|]. by exists e.
      * left. split; [done|]. by apply saveTasksToFile_ok.
    + left. by rewrite bool_decide_eq_false_2 by done.
  - left. unfold FlatFile.apiTasksHandler.
    rewrite (bool_decide_eq_false_2 (Method _ = "GET")) by done.
    rewrite (bool_decide_eq_false_2 (Method _ = "POST")) by done.
    rewrite (bool_decide_eq_true_2 (Method _ = "DELETE")) by done.
    cbn [QueryID]. rewrite (bool_decide_eq_false_2 (q = "")) by done.
    rewrite Hq, Hload. simpl. eauto.
Qed.

Section Cursor.
Import Relational.

(** The only error of the cursor loop is that of [rows.Scan]. *)
Lemma scanRows_error rs : ∀ acc db e db',
  scanRows rs acc db = (Err e, db') → e = "掃描資料行失敗: " +:+ ErrBadConn.
Proof.
  induction rs as [|t rs IH]; intros acc db e db'; simpl;
    destruct (enter RowsNext db) as [f db1]; [done|].
  destruct f; [done|].
  destruct (enter RowsScan db1) as [[|] db2]; [by intros [= <- _]|]. apply IH.
Qed.

End Cursor.

(** X19. The cursor is always closed.  Under every pattern of failures of
    the driver, [loadTasksFromDB] either fails at [db.Query], with the
    query error, having made no other call; or it calls [rows.Next] and
    [rows.Scan] only and then [rows.Close], once and as its last call, also
    when it returns the error of a failed [rows.Scan]. *)
Theorem cursor_always_closed (db : Relational.DB) :
  let r := (Relational.loadTasksFromDB db).1 in
  let db' := (Relational.loadTasksFromDB db).2 in
  (∃ e, r = Err ("查詢資料庫失敗: " +:+ e)
        ∧ Relational.calls db' = Relational.calls db ++ [Relational.QuerySelect])
  ∨ (∃ mid,
       Relational.calls db'
       = Relational.calls db ++ [Relational.QuerySelect] ++ mid ++ [Relational.RowsClose]
       ∧ Forall (λ c, c = Relational.RowsNext ∨ c = Relational.RowsScan) mid
       ∧ match r with
         | Ok _ => True
         | Err e => e = "掃描資料行失敗: " +:+ Relational.ErrBadConn
         end).
Proof.
  intros r db'. subst r db'.
  unfold Relational.loadTasksFromDB, Relational.db_Query_SELECT.
  pose proof (enter_frame Relational.QuerySelect db) as (Ht & Hp & _ & Hc).
  destruct (Relational.enter Relational.QuerySelect db) as [[|] db1]; simpl in *.
  { left. by eexists. }
  destruct (Relational.table db1) as [m|] eqn:Hm; simpl.
  2: { left. by eexists. }
  right.
  destruct (scanRows_frame
              (merge_sort Relational.by_priority (map_to_list m).*2) [] db1)
    as (_ & _ & mid & Hc' & Hmid).
  pose proof (scanRows_error
                (merge_sort Relational.by_priority (map_to_list m).*2) [] db1) as Herr.
  destruct (Relational.scanRows _ [] db1) as [r db2]; simpl in *.
  exists mid. unfold Relational.rows_Close.
  destruct (enter_frame Relational.RowsClose db2) as (_ & _ & _ & Hc'').
  conj.
  - by rewrite Hc'', Hc', Hc, <- !app_assoc.
  - done.
  - destruct r as [l|e]; [done|]. by eapply Herr.
Qed.

Section Calendar.

(** January has 31 days in every year, so up to thirty days after its
    first day the date is still in January. *)
Lemma AddDate_january (Y : Z) (n : nat) :
  (n ≤ 30)%nat → AddDate n (mkDate Y 1 1) = mkDate Y 1 (1 + Z.of_nat n).
Proof.
  induction n as [|n IH]; intros Hn; [done|].
  unfold AddDate in *. rewrite Nat.iter_succ, IH by lia.
  unfold nextDay. cbn [day month year].
  change (daysIn Y 1) with 31.
  rewrite (proj2 (Z.ltb_lt _ _)) by lia. f_equal. lia.
Qed.

End Calendar.

(** X20. The default tasks start in January of the year after the one the
    clock shows, on the 1st, 8th, 13th, 13th and 25th, in every year: the
    day offsets 7, 12 and 24 never leave January, whether the year is a leap
    year or not. *)
Theorem default_tasks_in_january (y : Z) :
  Start <$> getInitialTasks y
  = (λ d, formatDate (mkDate (y + 1) 1 d)) <$> [1; 8; 13; 13; 25].
Proof.
  unfold getInitialTasks. cbn [fmap list_fmap Start].
  by rewrite !AddDate_january by lia.
Qed.

(** X21. The flat-file [main] makes sure that [gantt.json] exists before
    it serves: when no system call fails and the default collection
    serializes, [main] reaches [http.ListenAndServe] with a file that
    exists, the one it found or, if there was none, one holding the default
    collection; it writes only in the second case. *)
Theorem flat_main_ensures_file `{JSON} (f : option string)
    (sc : list FlatFile.syscall) (y : Z) (d : string) :
  MarshalIndent (getInitialTasks y) = Ok d →
  FlatFile.main (FlatFile.mkWorld f [] sc y)
  = Serving
      (FlatFile.mkWorld (Some (default d f)) []
         (sc ++ [FlatFile.SysReadFile]
             ++ (if f is None then [FlatFile.SysWriteFile d] else [])
             ++ [FlatFile.SysListen]) y).
Proof.
  intros Hd. unfold FlatFile.main. destruct f as [x|].
  - rewrite loadTasksFromFile_present.
    unfold FlatFile.http_ListenAndServe, FlatFile.enter. simpl.
    by rewrite <- !app_assoc.
  - rewrite (loadTasksFromFile_absent sc y d Hd).
    unfold FlatFile.http_ListenAndServe, FlatFile.enter. simpl.
    by rewrite <- !app_assoc.
Qed.

(** A first start in 2025. *)
Lemma flat_main_ensures_file_witness :
  let d := RefJson.marshalIndent (getInitialTasks 2025) in
  FlatFile.main (H := RefJson.codec) (FlatFile.mkWorld None [] [] 2025)
  = Serving
      (FlatFile.mkWorld (Some d) []
         [FlatFile.SysReadFile; FlatFile.SysWriteFile d; FlatFile.SysListen] 2025).
Proof.
  intros d.
  apply (flat_main_ensures_file (H := RefJson.codec) None [] 2025 d). reflexivity.
Defined.
